(** * cvclient: a distance-vector routing node

    A shallow embedding of [src/cvclient.py].  The module keeps a global
    dictionary [nodes] (a [defaultdict] whose factory is [default_node]),
    mutated by the handlers [update_costs], [linkdown], [linkup] and
    [linkchange]; [estimate_costs] recomputes every route, and
    [broadcast_costs] builds the poisoned vectors.

    Conventions of the embedding.
    - Costs are Python floats.  They are modelled as exact rationals
      extended with [+inf] ([num]); NaN and [-inf] are left out, so every
      sum is exact.  No theorem below depends on rounding.
    - A Python [dict] keeps insertion order, and the order of [nodes]
      decides which neighbour wins a tie.  Dictionaries are association
      lists; [tbl_set], [tbl_del] and [dd_getitem] spell out where a key
      lands.
    - A node is a dictionary with optional keys; it is a record whose
      optional keys have an [option] type.  Reading a missing key raises
      [KeyError], as in Python.
    - [print] appends a [report] to [stdout]; an exception nobody catches
      ends the computation with [Raised].
    - A received datagram is either bytes that [json.loads] rejects or a
      decoded JSON value ([json_value]); a mapping payload carries the
      entries of the protocol ([kwargs]).  [recvfrom] cuts what is longer
      than [SIZE] bytes.
    - [showrt] is modelled by the rows it hands to the table it prints,
      and the socket branch of the main loop by one pass ([socket_branch]).
    - [key2addr] takes Python's [int] as a parameter; the only thing
      assumed of it, where needed, is that it reads back the decimal
      numeral of an integer. *)

From Stdlib Require Import QArith.
From Stdlib Require Import Ascii.
From stdpp Require Import base list strings pretty.

Local Open Scope string_scope.
Local Open Scope list_scope.

(** ** Numbers *)

Inductive num : Type :=
  | Fin (q : Q)
  | Inf.

(** [a + b] on floats, with [inf + x = inf]. *)
Definition num_add (a b : num) : num :=
  match a, b with
  | Fin x, Fin y => Fin (x + y)
  | _, _ => Inf
  end.

(** [a < b] on floats. *)
Definition num_ltb (a b : num) : bool :=
  match a, b with
  | Fin x, Fin y => negb (Qle_bool y x)
  | Fin _, Inf => true
  | Inf, _ => false
  end.

(** The order on [num] as a proposition. *)
Definition num_lt (a b : num) : Prop :=
  match a, b with
  | Fin x, Fin y => (x < y)%Q
  | Fin _, Inf => True
  | Inf, _ => False
  end.

Arguments num_add : simpl never.
Arguments num_ltb : simpl never.
Arguments num_lt : simpl never.

(** ** Exceptions and results *)

Inductive exn : Type :=
  | KeyError (key : string)
  | ValueError
  | TypeError.

Inductive result (A : Type) : Type :=
  | Ok (a : A)
  | Raised (e : exn).
Arguments Ok {A} a.
Arguments Raised {A} e.

Definition bind {A B : Type} (m : result A) (k : A → result B) : result B :=
  match m with
  | Ok a => k a
  | Raised e => Raised e
  end.

Notation "'do' x <- m ; k" := (bind m (fun x => k))
  (at level 10, x pattern, m at level 100, k at level 200).

(** [d[key]] on a dictionary field that may be absent. *)
Definition getitem {A : Type} (key : string) (field : option A) : result A :=
  match field with
  | Some a => Ok a
  | None => Raised (KeyError key)
  end.

(** ** Dictionaries in insertion order *)

Section Dict.
Context {V : Type}.

(** [d.get(k)] *)
Fixpoint tbl_get (k : string) (t : list (string * V)) : option V :=
  match t with
  | [] => None
  | (k', v) :: t' => if String.eqb k k' then Some v else tbl_get k t'
  end.

(** [k in d] *)
Definition tbl_in (k : string) (t : list (string * V)) : bool :=
  match tbl_get k t with Some _ => true | None => false end.

(** [d[k] = v]: an existing key keeps its place, a new one goes last. *)
Fixpoint tbl_set (k : string) (v : V) (t : list (string * V)) : list (string * V) :=
  match t with
  | [] => [(k, v)]
  | (k', v') :: t' =>
      if String.eqb k k' then (k', v) :: t' else (k', v') :: tbl_set k v t'
  end.

(** [del d[k]] *)
Fixpoint tbl_del (k : string) (t : list (string * V)) : list (string * V) :=
  match t with
  | [] => []
  | (k', v') :: t' =>
      if String.eqb k k' then t' else (k', v') :: tbl_del k t'
  end.
End Dict.

(** ** Timers *)

(** A [threading.Timer]: created, started and waiting, or cancelled. *)
Inductive Timer : Type :=
  | Created
  | Started
  | Cancelled.

(** [Timer.start()]; the module only starts a timer it has just created. *)
Definition Timer_start (t : Timer) : Timer :=
  match t with
  | Created => Started
  | other => other
  end.

Record ResettableTimer : Type := mkResettableTimer {
  interval : Q;
  args : string;         (* the key of the monitored neighbour *)
  countdown : Timer;
}.

Definition create_timer (interval : Q) (args : string) : Timer := Created.

Definition ResettableTimer_init (interval : Q) (args : string) : ResettableTimer :=
  {| interval := interval; args := args; countdown := create_timer interval args |}.

Definition start (m : ResettableTimer) : ResettableTimer :=
  {| interval := interval m; args := args m; countdown := Timer_start (countdown m) |}.

Definition cancel (m : ResettableTimer) : ResettableTimer :=
  {| interval := interval m; args := args m; countdown := Cancelled |}.

Definition reset (m : ResettableTimer) : ResettableTimer :=
  let m1 := cancel m in
  let m2 := {| interval := interval m1; args := args m1;
               countdown := create_timer (interval m1) (args m1) |} in
  start m2.

(** ** Nodes *)

(** A cost vector: destination key to cost. *)
Abbreviation costs_t := (list (string * num)).

Record node : Type := mkNode {
  cost : num;
  is_neighbor : bool;
  route : string;
  direct : option num;
  costs : option costs_t;
  saved : option num;
  silence_monitor : option ResettableTimer;
}.

(** The dictionary [nodes]. *)
Abbreviation table := (list (string * node)).

Definition set_cost (c : num) (n : node) : node :=
  {| cost := c; is_neighbor := is_neighbor n; route := route n; direct := direct n;
     costs := costs n; saved := saved n; silence_monitor := silence_monitor n |}.
Definition set_is_neighbor (b : bool) (n : node) : node :=
  {| cost := cost n; is_neighbor := b; route := route n; direct := direct n;
     costs := costs n; saved := saved n; silence_monitor := silence_monitor n |}.
Definition set_route (r : string) (n : node) : node :=
  {| cost := cost n; is_neighbor := is_neighbor n; route := r; direct := direct n;
     costs := costs n; saved := saved n; silence_monitor := silence_monitor n |}.
Definition set_direct (d : option num) (n : node) : node :=
  {| cost := cost n; is_neighbor := is_neighbor n; route := route n; direct := d;
     costs := costs n; saved := saved n; silence_monitor := silence_monitor n |}.
Definition set_costs (cs : option costs_t) (n : node) : node :=
  {| cost := cost n; is_neighbor := is_neighbor n; route := route n; direct := direct n;
     costs := cs; saved := saved n; silence_monitor := silence_monitor n |}.
Definition set_saved (s : option num) (n : node) : node :=
  {| cost := cost n; is_neighbor := is_neighbor n; route := route n; direct := direct n;
     costs := costs n; saved := s; silence_monitor := silence_monitor n |}.
Definition set_silence_monitor (m : option ResettableTimer) (n : node) : node :=
  {| cost := cost n; is_neighbor := is_neighbor n; route := route n; direct := direct n;
     costs := costs n; saved := saved n; silence_monitor := m |}.

(** [default_node()] *)
Definition default_node : node :=
  {| cost := Inf; is_neighbor := false; route := "";
     direct := None; costs := None; saved := None; silence_monitor := None |}.

(** [nodes[k]] on the [defaultdict]: a missing key is created, last. *)
Definition dd_getitem (k : string) (nodes : table) : node * table :=
  match tbl_get k nodes with
  | Some n => (n, nodes)
  | None => (default_node, nodes ++ [(k, default_node)])
  end.

(** The comprehension [{ addr: node['cost'] for addr, node in nodes.items() }]
    that opens [broadcast_costs]. *)
Definition stored_costs (nodes : table) : costs_t :=
  map (fun d => (d.1, cost d.2)) nodes.

(** [get_neighbors()] *)
Definition get_neighbors (nodes : table) : table :=
  filter (fun d => is_neighbor d.2 = true) nodes.

(** The first loop of [update_costs]: every key of [costs] that is not in
    [nodes] yet gets a default node. *)
Definition add_default (nodes : table) (node : string) : table :=
  if negb (tbl_in node nodes) then tbl_set node default_node nodes else nodes.

Definition create_missing (costs : costs_t) (nodes : table) : table :=
  fold_left add_default (map fst costs) nodes.

(** ** Addresses *)

(** [addr2key(host, port)] *)
Definition addr2key (host : string) (port : Z) : string :=
  host +:+ ":" +:+ pretty port.

(** ** What the module prints *)

Inductive report : Type :=
  | NotInNetwork (addr : string)
  | MakingNewNeighbor (addr : string)
  | NotNeighborCannotChange (addr : string)
  | MinimumLinkCost
  | LinkCurrentlyDown
  | NotNeighborCannotTakeDown (addr : string)
  | NotPreviousNeighbor (addr : string)
  | NotInUpdateProtocol (kind : string).

(** The keyword arguments a handler receives: the fields of the payload. *)
Record kwargs : Type := mkKwargs {
  kw_costs : option costs_t;            (* payload['costs'] *)
  kw_neighbor : option (option num);    (* payload['neighbor'], and its ['direct'] *)
  kw_direct : option num;               (* payload['direct'] *)
}.

Definition no_kwargs : kwargs :=
  {| kw_costs := None; kw_neighbor := None; kw_direct := None |}.

(** The global state the handlers act on. *)
Record world : Type := mkWorld {
  nodes : table;
  stdout : list report;
}.

Definition print (r : report) (w : world) : world :=
  {| nodes := nodes w; stdout := stdout w ++ [r] |}.
Definition with_nodes (t : table) (w : world) : world :=
  {| nodes := t; stdout := stdout w |}.

(** A protocol message: the dictionary [data] a node builds and sends,
    whose keys may be absent. *)
Record message : Type := mkMessage {
  msg_type : option string;       (* data['type'] *)
  msg_payload : option kwargs;    (* data['payload'] *)
}.

(** The value a decoded object holds under ['type']. *)
Inductive json_type : Type :=
  | TypeString (update : string)
  | TypeOther (shown : string)    (* a number, a boolean or null: hashable;
                                     [shown] is what [format] prints for it *)
  | TypeUnhashable.               (* a list or an object *)

(** The value a decoded object holds under ['payload']: a mapping with the
    entries of the protocol, or a value that is not a mapping. *)
Inductive json_payload : Type :=
  | Mapping (kw : kwargs)
  | NotMapping.

(** What [json.loads] returns: an object, whose keys may be absent, or
    another JSON value (an array, a string, a number, a boolean, null). *)
Inductive json_value : Type :=
  | JObject (update : option json_type) (payload : option json_payload)
  | JOther.

(** [json.loads(json.dumps(data))]: the object a message decodes to. *)
Definition encode (data : message) : json_value :=
  JObject (TypeString <$> msg_type data) (Mapping <$> msg_payload data).

(** What [recvfrom] returns: bytes that [json.loads] rejects, or the encoding
    of a JSON value. *)
Inductive datagram : Type :=
  | NotJSON
  | Encoded (loaded : json_value).

(** [json.loads(data)] raises [ValueError] on bytes that are not JSON. *)
Definition json_loads (data : datagram) : result json_value :=
  match data with
  | NotJSON => Raised ValueError
  | Encoded loaded => Ok loaded
  end.

(** [SIZE] *)
Definition SIZE : Z := 4096.

(** [s.recvfrom(SIZE)] on a datagram that was sent as
    [json.dumps(data).encode()] and is [sent_bytes] bytes long.  It arrives
    whole when it fits; a longer one is cut to [SIZE] bytes, and a proper
    prefix of the encoding of an object is not JSON. *)
Definition recvfrom (sent_bytes : Z) (data : message) : datagram :=
  if (sent_bytes <=? SIZE)%Z then Encoded (encode data) else NotJSON.

Definition LINKDOWN : string := "linkdown".
Definition LINKUP : string := "linkup".
Definition LINKCHANGE : string := "linkchange".
Definition COSTSUPDATE : string := "costsupdate".

(** ** The program *)

Section Program.
(** The module's globals: [me], [localhost] and [run_args.timeout]. *)
Variable me : string.
Variable localhost : string.
Variable timeout : Q.

(** [get_host(host)] *)
Definition get_host (host : string) : string :=
  if String.eqb host "localhost" then localhost else host.

(** [create_node(cost, is_neighbor, direct, costs, addr)] *)
Definition create_node (cost : num) (is_neighbor : bool) (direct : option num)
    (costs : option costs_t) (addr : string) : node :=
  let node := default_node in
  let node := set_cost cost node in
  let node := set_is_neighbor is_neighbor node in
  let node := set_direct (Some (match direct with Some d => d | None => Inf end)) node in
  let node := set_costs (Some (match costs with Some c => c | None => [] end)) node in
  if is_neighbor then
    let node := set_route addr node in
    let monitor := ResettableTimer_init (3 * timeout) addr in
    let monitor := start monitor in
    set_silence_monitor (Some monitor) node
  else node.

(** The inner loop of [estimate_costs]: one pass over the neighbours for
    the destination [destination_addr], from the running [cost] and
    [nexthop]. *)
Fixpoint scan_neighbors (destination_addr : string) (neighbors : table)
    (cost : num) (nexthop : string) : result (num * string) :=
  match neighbors with
  | [] => Ok (cost, nexthop)
  | (neighbor_addr, neighbor) :: rest =>
      do ncosts <- getitem "costs" (costs neighbor);
      match tbl_get destination_addr ncosts with
      | Some advertised =>
          do ndirect <- getitem "direct" (direct neighbor);
          let dist := num_add ndirect advertised in
          if num_ltb dist cost then
            let cost := dist in
            let cost := if num_ltb (Fin 15) cost then Inf else cost in
            scan_neighbors destination_addr rest cost neighbor_addr
          else scan_neighbors destination_addr rest cost nexthop
      | None => scan_neighbors destination_addr rest cost nexthop
      end
  end.

(** The outer loop of [estimate_costs]: [done] holds the entries already
    visited, [todo] those still to visit. *)
Fixpoint estimate_from (done todo : table) : result table :=
  match todo with
  | [] => Ok done
  | (destination_addr, destination) :: rest =>
      if negb (String.eqb destination_addr me) then
        do best <- scan_neighbors destination_addr (get_neighbors (done ++ todo)) Inf "";
        let destination := set_cost best.1 destination in
        let destination := set_route best.2 destination in
        estimate_from (done ++ [(destination_addr, destination)]) rest
      else estimate_from (done ++ [(destination_addr, destination)]) rest
  end.

(** [estimate_costs()] *)
Definition estimate_costs (nodes : table) : result table :=
  estimate_from [] nodes.

Definition run_estimate_costs (w : world) : result world :=
  do t <- estimate_costs (nodes w);
  Ok (with_nodes t w).

(** [update_costs(host, port, **kwargs)] *)
Definition update_costs (host : string) (port : Z) (kw : kwargs) (w : world)
    : result world :=
  do costs <- getitem "costs" (kw_costs kw);
  let addr := addr2key host port in
  let t := create_missing costs (nodes w) in
  let '(sender, t) := dd_getitem addr t in
  if negb (is_neighbor sender) then
    let w := print (MakingNewNeighbor addr) w in
    let t := tbl_del addr t in
    let '(fresh, t) := dd_getitem addr t in
    do neighbor <- getitem "neighbor" (kw_neighbor kw);
    do direct <- getitem "direct" neighbor;
    let t := tbl_set addr (create_node (cost fresh) true (Some direct) (Some costs) addr) t in
    run_estimate_costs (with_nodes t w)
  else
    let node := set_costs (Some costs) sender in
    do monitor <- getitem "silence_monitor" (silence_monitor node);
    let node := set_silence_monitor (Some (reset monitor)) node in
    run_estimate_costs (with_nodes (tbl_set addr node t) w).

(** [in_network(addr)] *)
Definition in_network (addr : string) (w : world) : bool * world :=
  if negb (tbl_in addr (nodes w)) then (false, print (NotInNetwork addr) w)
  else (true, w).

(** [get_node(host, port)]: the node, its key, and whether there was an
    error. *)
Definition get_node (host : string) (port : Z) (w : world)
    : (node * string * bool) * world :=
  let error := false in
  let addr := addr2key (get_host host) port in
  let '(known, w) := in_network addr w in
  let error := if negb known then true else error in
  let '(node, t) := dd_getitem addr (nodes w) in
  ((node, addr, error), with_nodes t w).

(** [linkchange(host, port, **kwargs)] *)
Definition linkchange (host : string) (port : Z) (kw : kwargs) (w : world)
    : result world :=
  let '((node, addr, err), w) := get_node host port w in
  if err then Ok w
  else if negb (is_neighbor node) then Ok (print (NotNeighborCannotChange addr) w)
  else
    do direct <- getitem "direct" (kw_direct kw);
    if num_ltb direct (Fin 1) then Ok (print MinimumLinkCost w)
    else if (match saved node with Some _ => true | None => false end)
    then Ok (print LinkCurrentlyDown w)
    else
      let node := set_direct (Some direct) node in
      run_estimate_costs (with_nodes (tbl_set addr node (nodes w)) w).

(** [linkdown(host, port, **kwargs)] *)
Definition linkdown (host : string) (port : Z) (kw : kwargs) (w : world)
    : result world :=
  let '((node, addr, err), w) := get_node host port w in
  if err then Ok w
  else if negb (is_neighbor node) then Ok (print (NotNeighborCannotTakeDown addr) w)
  else
    do d <- getitem "direct" (direct node);
    let node := set_saved (Some d) node in
    let node := set_direct (Some Inf) node in
    let node := set_is_neighbor false node in
    do monitor <- getitem "silence_monitor" (silence_monitor node);
    let node := set_silence_monitor (Some (cancel monitor)) node in
    run_estimate_costs (with_nodes (tbl_set addr node (nodes w)) w).

(** [linkup(host, port, **kwargs)] *)
Definition linkup (host : string) (port : Z) (kw : kwargs) (w : world)
    : result world :=
  let '((node, addr, err), w) := get_node host port w in
  if err then Ok w
  else match saved node with
  | None => Ok (print (NotPreviousNeighbor addr) w)
  | Some s =>
      let node := set_direct (Some s) node in
      let node := set_saved None node in
      let node := set_is_neighbor true node in
      run_estimate_costs (with_nodes (tbl_set addr node (nodes w)) w)
  end.

(** The poison-reverse loop of [broadcast_costs] for one neighbour: it
    walks [items] (the unpoisoned vector) and overwrites [poisoned]. *)
Fixpoint poison_reverse (neighbor_addr : string) (items : costs_t)
    (poisoned_costs : costs_t) (nodes : table) : costs_t * table :=
  match items with
  | [] => (poisoned_costs, nodes)
  | (dest_addr, _) :: rest =>
      if negb (String.eqb dest_addr me || String.eqb dest_addr neighbor_addr) then
        let '(dest, nodes) := dd_getitem dest_addr nodes in
        if String.eqb (route dest) neighbor_addr then
          poison_reverse neighbor_addr rest (tbl_set dest_addr Inf poisoned_costs) nodes
        else poison_reverse neighbor_addr rest poisoned_costs nodes
      else poison_reverse neighbor_addr rest poisoned_costs nodes
  end.

(** The loop of [broadcast_costs] over the neighbours; [sent] collects
    what [sock.sendto] is given: the neighbour's key and the message. *)
Fixpoint broadcast_loop (costs : costs_t) (neighbors : table) (nodes : table)
    (sent : list (string * message)) : result (list (string * message) * table) :=
  match neighbors with
  | [] => Ok (sent, nodes)
  | (neighbor_addr, neighbor) :: rest =>
      let '(poisoned_costs, nodes) := poison_reverse neighbor_addr costs costs nodes in
      do d <- getitem "direct" (direct neighbor);
      let payload := {| kw_costs := Some poisoned_costs;
                        kw_neighbor := Some (Some d);
                        kw_direct := None |} in
      let data := {| msg_type := Some COSTSUPDATE; msg_payload := Some payload |} in
      broadcast_loop costs rest nodes (sent ++ [(neighbor_addr, data)])
  end.

(** [broadcast_costs()] *)
Definition broadcast_costs (nodes : table) : result (list (string * message) * table) :=
  let costs := stored_costs nodes in
  broadcast_loop costs (get_neighbors nodes) nodes [].

(** The dictionary [updates]. *)
Definition updates (update : string)
    : option (string → Z → kwargs → world → result world) :=
  if String.eqb update LINKDOWN then Some linkdown
  else if String.eqb update LINKUP then Some linkup
  else if String.eqb update LINKCHANGE then Some linkchange
  else if String.eqb update COSTSUPDATE then Some update_costs
  else None.

(** The socket branch of the main loop, from [recvfrom] to the call of the
    handler (the table display that may follow is not part of it). *)
Definition receive (data : datagram) (sender : string * Z) (w : world)
    : result world :=
  do loaded <- json_loads data;
  match loaded with
  | JOther => Raised TypeError                  (* loaded['type'] *)
  | JObject update payload =>
      do update <- getitem "type" update;
      do payload <- getitem "payload" payload;
      match update with
      | TypeUnhashable => Raised TypeError      (* update not in updates *)
      | TypeOther shown => Ok (print (NotInUpdateProtocol shown) w)
      | TypeString update =>
          match updates update with
          | None => Ok (print (NotInUpdateProtocol update) w)
          | Some handler =>
              match payload with
              | NotMapping => Raised TypeError  (* **payload *)
              | Mapping kw => handler sender.1 sender.2 kw w
              end
          end
      end
  end.

(** The table the module starts with: one neighbour per configured link,
    then the node itself at cost [0]. *)
Definition startup (neighbors : list (string * num)) : table :=
  let t := fold_left
             (fun t nc => tbl_set nc.1 (create_node nc.2 true (Some nc.2) None nc.1) t)
             neighbors [] in
  tbl_set me (create_node (Fin 0) false (Some (Fin 0)) None me) t.

End Program.

(** ** Specification-side notions *)

(** What a neighbour offers for a destination: its direct cost plus the
    cost it advertised, [+inf] when its vector does not name the
    destination. *)
Definition offer (destination_addr : string) (neighbor : node) : num :=
  match costs neighbor, direct neighbor with
  | Some ncosts, Some ndirect =>
      match tbl_get destination_addr ncosts with
      | Some advertised => num_add ndirect advertised
      | None => Inf
      end
  | _, _ => Inf
  end.

(** Two numbers that compare equal. *)
Definition num_eq (a b : num) : Prop := ¬ num_lt a b ∧ ¬ num_lt b a.

(** A cost the recomputation may store: [+inf], or at most [15]. *)
Definition capped (c : num) : Prop := c = Inf ∨ ¬ num_lt (Fin 15) c.

(** A neighbour, and a node whose link was taken down, carries the keys the
    handlers read from it. *)
Definition neighbor_ok (n : node) : Prop :=
  is_neighbor n = true ∨ is_Some (saved n) →
  is_Some (direct n) ∧ is_Some (costs n) ∧ is_Some (silence_monitor n).

(** The shape of a table the module can be in: keys are unique (it is a
    dictionary) and every neighbour, up or down, is complete. *)
Definition table_ok (t : table) : Prop :=
  NoDup t.*1 ∧ Forall (fun d => neighbor_ok d.2) t.

(** The fields [estimate_costs] reads. *)
Definition routing_view (t : table) : list (string * bool * option num * option costs_t) :=
  map (fun d => (d.1, is_neighbor d.2, direct d.2, costs d.2)) t.

(** One step of the outer loop of [estimate_costs], against a fixed list of
    neighbours. *)
Definition relaxed (me : string) (neighbors : table) (d : string * node)
    : result (string * node) :=
  if negb (String.eqb d.1 me) then
    do best <- scan_neighbors d.1 neighbors Inf "";
    Ok (d.1, set_route best.2 (set_cost best.1 d.2))
  else Ok d.

(** [e'] is [e] with, at most, another cost and route. *)
Definition same_links (e e' : string * node) : Prop :=
  e'.1 = e.1 ∧ is_neighbor e'.2 = is_neighbor e.2 ∧ direct e'.2 = direct e.2 ∧
  costs e'.2 = costs e.2 ∧ saved e'.2 = saved e.2 ∧
  silence_monitor e'.2 = silence_monitor e.2.

(** The metric ceiling for one destination, with [MAX_METRIC] the largest
    finite cost that may be stored: the stored cost is [+inf] or at most
    [MAX_METRIC]; it is [+inf] when every neighbour offers more than
    [MAX_METRIC]; and it is the winning offer when that is at most
    [MAX_METRIC]. *)
Definition metric_ceiling (MAX_METRIC : Q) (neighbors : table) (d : string)
    (stored : num) : Prop :=
  (stored = Inf ∨ ¬ num_lt (Fin MAX_METRIC) stored) ∧
  ((∀ m mb, (m, mb) ∈ neighbors → num_lt (Fin MAX_METRIC) (offer d mb)) →
   stored = Inf) ∧
  (∀ m mb, (m, mb) ∈ neighbors →
     ¬ num_lt (Fin MAX_METRIC) (offer d mb) →
     (∀ m' mb', (m', mb') ∈ neighbors → ¬ num_lt (offer d mb') (offer d mb)) →
     num_eq stored (offer d mb)).

#[global] Instance neighbor_ok_dec n : Decision (neighbor_ok n).
Proof. unfold neighbor_ok. apply _. Defined.
#[global] Instance table_ok_dec t : Decision (table_ok t).
Proof. unfold table_ok. apply _. Defined.

(** Sample network: the node [addrA] with neighbours [addrB] and [addrC], and a
    destination [addrD] they advertise. *)
Definition addrA : string := "10.0.0.1:20000".
Definition addrB : string := "10.0.0.1:20001".
Definition addrC : string := "10.0.0.1:20002".
Definition addrD : string := "10.0.0.1:20003".

Definition neighbor_node (addr : string) (d : num) (cs : costs_t) : node :=
  set_costs (Some cs) (create_node 1 d true (Some d) None addr).

(** [addrB] is one hop away and advertises [addrD] at [15]. *)
Definition ceiling_table : table :=
  [ (addrB, neighbor_node addrB (Fin 1) [(addrB, Fin 0); (addrD, Fin 15)]);
    (addrA, create_node 1 (Fin 0) false (Some (Fin 0)) None addrA);
    (addrD, default_node) ].

(** [addrB] and [addrC] both reach [addrD] at total cost [3]; [addrC] also reaches [addrB]. *)
Definition tie_table : table :=
  [ (addrB, neighbor_node addrB (Fin 1) [(addrB, Fin 0); (addrD, Fin 2)]);
    (addrC, neighbor_node addrC (Fin 2) [(addrC, Fin 0); (addrD, Fin 1); (addrB, Fin 4)]);
    (addrA, create_node 1 (Fin 0) false (Some (Fin 0)) None addrA);
    (addrD, default_node) ].

(** The vector [broadcast_costs] is specified to send to the neighbour
    [neighbor_addr]: the stored costs, with [+inf] for every destination,
    other than [me] and the neighbour, that is routed through it. *)
Definition poisoned_vector (me : string) (nodes : table) (neighbor_addr : string)
    : costs_t :=
  map (fun d =>
         (d.1, if negb (String.eqb d.1 me || String.eqb d.1 neighbor_addr)
                  && String.eqb (route d.2) neighbor_addr
               then Inf else cost d.2)) nodes.

(** The message [broadcast_costs] is specified to send to a neighbour. *)
Definition advertisement (me : string) (nodes : table) (neighbor : string * node)
    : string * message :=
  (neighbor.1,
   {| msg_type := Some COSTSUPDATE;
      msg_payload := Some {| kw_costs := Some (poisoned_vector me nodes neighbor.1);
                             kw_neighbor := Some (direct neighbor.2);
                             kw_direct := None |} |}).

(** The three link operations. *)
Inductive link_op : Type := LinkDown | LinkUp | LinkChange.

(** A link operation on the key [addr] whose precondition does not hold in
    [nodes], with the error it is to report. *)
Inductive link_violation (nodes : table) (addr : string) (kw : kwargs)
    : link_op → report → Prop :=
  | unknown_address op :
      tbl_get addr nodes = None →
      link_violation nodes addr kw op (NotInNetwork addr)
  | down_not_neighbor n :
      tbl_get addr nodes = Some n → is_neighbor n = false →
      link_violation nodes addr kw LinkDown (NotNeighborCannotTakeDown addr)
  | up_no_saved_cost n :
      tbl_get addr nodes = Some n → saved n = None →
      link_violation nodes addr kw LinkUp (NotPreviousNeighbor addr)
  | change_not_neighbor n :
      tbl_get addr nodes = Some n → is_neighbor n = false →
      link_violation nodes addr kw LinkChange (NotNeighborCannotChange addr)
  | change_below_minimum n d :
      tbl_get addr nodes = Some n → is_neighbor n = true →
      kw_direct kw = Some d → num_lt d (Fin 1) →
      link_violation nodes addr kw LinkChange MinimumLinkCost
  | change_link_down n d s :
      tbl_get addr nodes = Some n → is_neighbor n = true →
      kw_direct kw = Some d → ¬ num_lt d (Fin 1) → saved n = Some s →
      link_violation nodes addr kw LinkChange LinkCurrentlyDown.

Definition run_link (me localhost : string) (op : link_op)
    : string → Z → kwargs → world → result world :=
  match op with
  | LinkDown => linkdown me localhost
  | LinkUp => linkup me localhost
  | LinkChange => linkchange me localhost
  end.

Definition sample_world : world := {| nodes := tie_table; stdout := [] |}.

(** A cost update from [addrC] as it may arrive at the sample node. *)
Definition sample_update : kwargs :=
  {| kw_costs := Some [(addrC, Fin 0); (addrA, Fin 2); (addrD, Fin 1); ("10.0.0.1:20004", Fin 3)];
     kw_neighbor := Some (Some (Fin 2));
     kw_direct := None |}.

(** The sample node after the link to [addrC] was taken down. *)
Definition down_table : table :=
  [ (addrB, neighbor_node addrB (Fin 1) [(addrB, Fin 0); (addrD, Fin 2)]);
    (addrC, set_saved (Some (Fin 2))
          (set_direct (Some Inf)
             (set_is_neighbor false
                (set_silence_monitor
                   (Some (cancel (start (ResettableTimer_init 3 addrC))))
                   (neighbor_node addrC (Fin 2) [(addrC, Fin 0); (addrD, Fin 1)])))));
    (addrA, create_node 1 (Fin 0) false (Some (Fin 0)) None addrA);
    (addrD, default_node) ].

Definition down_world : world := {| nodes := down_table; stdout := [] |}.

(** The node [addrA] as it starts, configured with the neighbours [addrB] and [addrC]. *)
Definition startup_world : world :=
  {| nodes := startup addrA 1 [(addrB, Fin 1); (addrC, Fin 2)]; stdout := [] |}.

(** The entry of the node itself, as the module creates it. *)
Definition self_ok (me : string) (t : table) : Prop :=
  ∃ n, tbl_get me t = Some n ∧
       cost n = Fin 0 ∧ route n = "" ∧ is_neighbor n = false ∧ saved n = None.

(** What can happen to the table: a cost update from an address, a link
    operation on an address, a recomputation, a broadcast. *)
Inductive operation : Type :=
  | Update (host : string) (port : Z) (kw : kwargs)
  | Link (op : link_op) (host : string) (port : Z) (kw : kwargs)
  | Recompute
  | Broadcast.

Definition apply_operation (me localhost : string) (timeout : Q) (o : operation)
    (w : world) : result world :=
  match o with
  | Update host port kw => update_costs me timeout host port kw w
  | Link op host port kw => run_link me localhost op host port kw w
  | Recompute => run_estimate_costs me w
  | Broadcast => do sent <- broadcast_costs me (nodes w); Ok (with_nodes sent.2 w)
  end.

Fixpoint run_operations (me localhost : string) (timeout : Q) (os : list operation)
    (w : world) : result world :=
  match os with
  | [] => Ok w
  | o :: os =>
      do w' <- apply_operation me localhost timeout o w;
      run_operations me localhost timeout os w'
  end.

(** A cost update whose sender is the node itself. *)
Definition from_self (me : string) (o : operation) : Prop :=
  match o with
  | Update host port _ => addr2key host port = me
  | _ => False
  end.

(** A run of the sample node: [addrB] advertises, the link to [addrB] goes down and
    up, the link to [addrC] changes cost, an unknown address is taken down, and
    the node recomputes and broadcasts. *)
Definition sample_run : list operation :=
  [ Update "10.0.0.1" 20001
      {| kw_costs := Some [(addrB, Fin 0); (addrA, Fin 1); (addrD, Fin 2)];
         kw_neighbor := Some (Some (Fin 1)); kw_direct := None |};
    Link LinkDown "10.0.0.1" 20001 no_kwargs;
    Link LinkUp "10.0.0.1" 20001 no_kwargs;
    Link LinkChange "10.0.0.1" 20002
      {| kw_costs := None; kw_neighbor := None; kw_direct := Some (Fin 4) |};
    Link LinkDown "10.0.0.1" 20009 no_kwargs;
    Recompute;
    Broadcast ].

(** ** Further notions *)

(** [e'] routes as [e] does: same key, cost, route and link fields. *)
Definition same_routes (e e' : string * node) : Prop :=
  e'.1 = e.1 ∧ cost e'.2 = cost e.2 ∧ route e'.2 = route e.2 ∧
  is_neighbor e'.2 = is_neighbor e.2 ∧ direct e'.2 = direct e.2 ∧
  costs e'.2 = costs e.2.

(** [e'] gives [estimate_costs] what [e] gives it: the fields it reads,
    and the cost and route it leaves alone when the key is [me]. *)
Definition same_inputs (me : string) (e e' : string * node) : Prop :=
  e'.1 = e.1 ∧ is_neighbor e'.2 = is_neighbor e.2 ∧ direct e'.2 = direct e.2 ∧
  costs e'.2 = costs e.2 ∧
  (e.1 = me → cost e'.2 = cost e.2 ∧ route e'.2 = route e.2).

(** A node that holds a saved cost is a link taken down: no neighbour, and
    a direct cost of [+inf]. *)
Definition down_ok (n : node) : Prop :=
  is_Some (saved n) → is_neighbor n = false ∧ direct n = Some Inf.

Definition links_ok (t : table) : Prop :=
  ∀ k n, tbl_get k t = Some n → down_ok n.

(** The sample table after a recomputation: [addrD] is routed through
    [addrB]. *)
Definition tie_routes : table :=
  match estimate_costs addrA tie_table with
  | Ok nodes => nodes
  | Raised _ => []
  end.

(** What the sample node then sends, and the message for [addrB]. *)
Definition tie_sent : list (string * message) :=
  match broadcast_costs addrA tie_routes with
  | Ok sent => sent.1
  | Raised _ => []
  end.

Definition tie_msg : message :=
  match tie_sent with
  | (_, msg) :: _ => msg
  | [] => {| msg_type := None; msg_payload := None |}
  end.

(** ** Keys back to addresses *)

(** [key.split(':')] *)
Fixpoint split_colon (key : string) : list string :=
  match key with
  | "" => [""]
  | String c rest =>
      if Ascii.eqb c ":"%char then "" :: split_colon rest
      else match split_colon rest with
           | part :: parts => String c part :: parts
           | [] => [String c ""]
           end
  end.

Section KeyToAddr.
(** Python's [int] on a string: the integer, or [None] where it raises
    [ValueError]. *)
Variable int : string → option Z.

(** [key2addr(key)] *)
Definition key2addr (key : string) : result (string * Z) :=
  match split_colon key with
  | [host; port] =>
      match int port with
      | Some p => Ok (host, p)
      | None => Raised ValueError
      end
  | _ => Raised ValueError
  end.
End KeyToAddr.

(** The number of colons in a string. *)
Fixpoint count_colons (s : string) : nat :=
  match s with
  | "" => 0
  | String c rest => if Ascii.eqb c ":"%char then S (count_colons rest) else count_colons rest
  end.

(** A reader of decimal numerals with an optional minus sign: what [int]
    does on the strings [str] makes of integers. *)
Definition digit_of (c : ascii) : option Z :=
  let n := Z.of_N (N_of_ascii c) in
  if (48 <=? n)%Z && (n <=? 57)%Z then Some (n - 48)%Z else None.

Fixpoint read_digits (acc : Z) (s : string) : option Z :=
  match s with
  | "" => Some acc
  | String c rest =>
      match digit_of c with
      | Some d => read_digits (10 * acc + d) rest
      | None => None
      end
  end.

Definition int_decimal (s : string) : option Z :=
  match s with
  | "" => None
  | String "-"%char "" => None
  | String "-"%char rest => Z.opp <$> read_digits 0 rest
  | _ => read_digits 0 s
  end.

(** ** The routing table display *)

(** The dictionary [node_name]. *)
Definition node_name : list (string * string) :=
  [("20000", "A"); ("20001", "B"); ("20002", "C"); ("20003", "D"); ("20004", "E")].

(** [node_name[key]] *)
Definition node_name_getitem (key : string) : result string :=
  getitem key (tbl_get key node_name).
Arguments node_name_getitem : simpl never.

(** The slice [s[-5:]]: the last five characters, or all of a shorter
    string. *)
Definition last5 (s : string) : string :=
  String.substring (String.length s - 5) 5 s.

(** [showrt()]: the rows it adds to the table it prints (destination, next
    hop, cost), in the order of [nodes]; a name that [node_name] does not
    hold raises [KeyError]. *)
Fixpoint showrt (me : string) (nodes : table) : result (list (string * string * num)) :=
  match nodes with
  | [] => Ok []
  | (addr, node) :: rest =>
      if negb (String.eqb addr me) then
        do destination <- node_name_getitem (last5 addr);
        do nexthop <- node_name_getitem (last5 (route node));
        do rows <- showrt me rest;
        Ok ((destination, nexthop, cost node) :: rows)
      else showrt me rest
  end.

(** ** The socket branch of the main loop *)

(** [get_neighbors_num()] *)
Definition get_neighbors_num (nodes : table) : Z :=
  fold_left (fun neighbors_num _ => (neighbors_num + 1)%Z) (get_neighbors nodes) 0%Z.

(** What ends the main loop: an exception out of the decoding, a handler or
    [showrt], or the division by zero of [i % neighbors_num]. *)
Inductive loop_exn : Type :=
  | Uncaught (e : exn)
  | ZeroDivisionError.

Inductive outcome (A : Type) : Type :=
  | Continues (a : A)
  | Dies (e : loop_exn).
Arguments Continues {A} a.
Arguments Dies {A} e.

(** One pass through the socket branch, from [i += 1] to the display of the
    table: the new counter [i], the new state, and the rows shown if
    [showrt] was called.  [neighbors_num] is the count taken at startup. *)
Definition socket_branch (me localhost : string) (timeout : Q) (neighbors_num : Z)
    (i : Z) (data : datagram) (sender : string * Z) (w : world)
    : outcome (Z * world * option (list (string * string * num))) :=
  let i := (i + 1)%Z in
  match json_loads data with
  | Raised e => Dies (Uncaught e)
  | Ok JOther => Dies (Uncaught TypeError)
  | Ok (JObject update payload) =>
  match getitem "type" update with
  | Raised e => Dies (Uncaught e)
  | Ok update =>
  match getitem "payload" payload with
  | Raised e => Dies (Uncaught e)
  | Ok payload =>
  match update with
  | TypeUnhashable => Dies (Uncaught TypeError)
  | TypeOther shown => Continues (i, print (NotInUpdateProtocol shown) w, None)
  | TypeString update =>
  match updates me localhost timeout update with
  | None => Continues (i, print (NotInUpdateProtocol update) w, None)
  | Some handler =>
      match payload with
      | NotMapping => Dies (Uncaught TypeError)
      | Mapping kw =>
      match handler sender.1 sender.2 kw w with
      | Raised e => Dies (Uncaught e)
      | Ok w =>
          if (neighbors_num =? 0)%Z then Dies ZeroDivisionError
          else if (i mod neighbors_num =? 0)%Z then
            match showrt me (nodes w) with
            | Raised e => Dies (Uncaught e)
            | Ok rows => Continues (0%Z, w, Some rows)
            end
          else Continues (i, w, None)
      end end
  end end end end end.

(** ** Order on numbers *)

Local Ltac unfold_num := unfold num_lt, num_ltb, num_add in *.

Lemma num_ltb_lt a b : num_ltb a b = true ↔ num_lt a b.
Proof.
  destruct a as [x|], b as [y|]; unfold_num.
  - rewrite negb_true_iff. split.
    + intros H. apply Qnot_le_lt. intros Hle. apply Qle_bool_iff in Hle. congruence.
    + intros H. destruct (Qle_bool y x) eqn:E; [|done].
      apply Qle_bool_iff in E. exfalso. eapply Qlt_not_le; eauto.
  - tauto.
  - split; [discriminate | tauto].
  - split; [discriminate | tauto].
Qed.

Lemma num_ltb_nlt a b : num_ltb a b = false ↔ ¬ num_lt a b.
Proof. rewrite <- num_ltb_lt. destruct (num_ltb a b); split; congruence. Qed.

Lemma num_lt_irrefl a : ¬ num_lt a a.
Proof. destruct a; unfold_num; [apply Qlt_irrefl | tauto]. Qed.

Lemma num_lt_trans a b c : num_lt a b → num_lt b c → num_lt a c.
Proof. destruct a, b, c; unfold_num; try tauto. apply Qlt_trans. Qed.

Lemma num_lt_le_trans a b c : num_lt a b → ¬ num_lt c b → num_lt a c.
Proof.
  destruct a, b, c; unfold_num; try tauto. intros H1 H2.
  apply Qnot_lt_le in H2. eapply Qlt_le_trans; eauto.
Qed.

Lemma num_le_lt_trans a b c : ¬ num_lt b a → num_lt b c → num_lt a c.
Proof.
  destruct a, b, c; unfold_num; try tauto. intros H1 H2.
  apply Qnot_lt_le in H1. eapply Qle_lt_trans; eauto.
Qed.

Lemma num_lt_asym a b : num_lt a b → ¬ num_lt b a.
Proof. intros H1 H2. exact (num_lt_irrefl a (num_lt_trans _ _ _ H1 H2)). Qed.

Lemma num_lt_Inf a : ¬ num_lt Inf a.
Proof. destruct a; unfold_num; tauto. Qed.

Lemma capped_Inf : capped Inf.
Proof. by left. Qed.

(** ** Dictionaries *)

Section DictFacts.
Context {V : Type}.
Implicit Types (t : list (string * V)) (k : string) (v : V).

Lemma tbl_get_Some_elem k v t : tbl_get k t = Some v → (k, v) ∈ t.
Proof.
  induction t as [|[k' v'] t IH]; simpl; [done|].
  destruct (String.eqb_spec k k') as [->|Hne].
  - intros [= ->]. left.
  - intros H. right. auto.
Qed.

Lemma tbl_get_None k t : tbl_get k t = None ↔ k ∉ t.*1.
Proof.
  induction t as [|[k' v'] t IH]; simpl.
  - split; [intros _; apply not_elem_of_nil | done].
  - destruct (String.eqb_spec k k') as [->|Hne].
    + split; [done | intros H; exfalso; apply H; left].
    + rewrite IH, not_elem_of_cons. tauto.
Qed.

Lemma tbl_get_elem k v t : NoDup t.*1 → (k, v) ∈ t → tbl_get k t = Some v.
Proof.
  induction t as [|[k' v'] t IH]; simpl; intros Hnd Hin.
  - by apply elem_of_nil in Hin.
  - apply NoDup_cons in Hnd as [Hk Hnd].
    apply elem_of_cons in Hin as [[= -> ->]|Hin].
    + by rewrite String.eqb_refl.
    + destruct (String.eqb_spec k k') as [->|Hne]; [|auto].
      exfalso. apply Hk. apply (list_elem_of_fmap_2 fst) in Hin. done.
Qed.

Lemma tbl_get_app k t1 t2 :
  tbl_get k (t1 ++ t2) =
    match tbl_get k t1 with Some v => Some v | None => tbl_get k t2 end.
Proof.
  induction t1 as [|[k' v'] t1 IH]; simpl; [done|].
  by destruct (String.eqb k k').
Qed.

Lemma tbl_set_keys_in k v t :
  tbl_in k t = true → (tbl_set k v t).*1 = t.*1.
Proof.
  unfold tbl_in. induction t as [|[k' v'] t IH]; simpl; [done|].
  destruct (String.eqb k k'); [done|]. intros H. rewrite !fmap_cons. f_equal. auto.
Qed.

Lemma tbl_set_notin k v t :
  tbl_get k t = None → tbl_set k v t = t ++ [(k, v)].
Proof.
  induction t as [|[k' v'] t IH]; simpl; [done|].
  destruct (String.eqb k k'); simpl; [done|]. intros H. by rewrite IH.
Qed.

Lemma tbl_get_set k k' v t :
  tbl_get k' (tbl_set k v t) = if String.eqb k' k then Some v else tbl_get k' t.
Proof.
  induction t as [|[k0 v0] t IH]; simpl.
  - by destruct (String.eqb k' k).
  - destruct (String.eqb_spec k k0) as [->|Hne]; simpl.
    + by destruct (String.eqb k' k0).
    + rewrite IH. destruct (String.eqb_spec k' k0) as [->|Hne'];
        destruct (String.eqb_spec k0 k) as [->|Hne'']; done.
Qed.

Lemma tbl_del_elem k t e : e ∈ tbl_del k t → e ∈ t.
Proof.
  induction t as [|[k' v'] t IH]; simpl; [done|].
  destruct (String.eqb k k'); intros H; [by right|].
  apply elem_of_cons in H as [->|H]; [left | right; auto].
Qed.

Lemma tbl_del_keys k t x : x ∈ (tbl_del k t).*1 → x ∈ t.*1.
Proof.
  intros (e & -> & He)%list_elem_of_fmap.
  apply list_elem_of_fmap. exists e. split; [done|]. by eapply tbl_del_elem.
Qed.

Lemma tbl_del_NoDup k t : NoDup t.*1 → NoDup (tbl_del k t).*1.
Proof.
  induction t as [|[k' v'] t IH]; simpl; [done|].
  intros [Hk Hnd]%NoDup_cons. destruct (String.eqb k k'); [done|].
  simpl. apply NoDup_cons. split; [|auto].
  intros Hin. apply Hk. by apply tbl_del_keys in Hin.
Qed.

Lemma tbl_get_del k t : NoDup t.*1 → tbl_get k (tbl_del k t) = None.
Proof.
  induction t as [|[k' v'] t IH]; simpl; [done|].
  intros [Hk Hnd]%NoDup_cons.
  destruct (String.eqb_spec k k') as [->|Hne]; simpl.
  - by apply tbl_get_None.
  - destruct (String.eqb_spec k k'); [done|auto].
Qed.

Lemma tbl_get_del_ne k k' t : k' ≠ k → tbl_get k' (tbl_del k t) = tbl_get k' t.
Proof.
  intros Hne. induction t as [|[k0 v0] t IH]; simpl; [done|].
  destruct (String.eqb_spec k k0) as [->|Hne0]; simpl.
  - by destruct (String.eqb_spec k' k0).
  - by rewrite IH.
Qed.

Lemma tbl_set_NoDup k v t : NoDup t.*1 → NoDup (tbl_set k v t).*1.
Proof.
  intros Hnd. destruct (tbl_get k t) eqn:E.
  - rewrite tbl_set_keys_in; [done|]. unfold tbl_in. by rewrite E.
  - rewrite tbl_set_notin by done. rewrite fmap_app. simpl.
    apply NoDup_app. split; [done|]. split; [|apply NoDup_singleton].
    intros x Hx ->%list_elem_of_singleton. by apply tbl_get_None in E.
Qed.

Lemma tbl_set_elem k v t e : e ∈ tbl_set k v t → e = (k, v) ∨ e ∈ t.
Proof.
  induction t as [|[k' v'] t IH]; simpl.
  - intros ->%list_elem_of_singleton. by left.
  - destruct (String.eqb_spec k k') as [->|Hne]; intros H.
    + apply elem_of_cons in H as [->|H]; [by left | right; by right].
    + apply elem_of_cons in H as [->|H]; [right; left|].
      destruct (IH H) as [->|?]; [by left | right; by right].
Qed.
End DictFacts.

(** ** The recomputation *)

Section Estimate.
Variable me : string.

Lemma get_neighbors_cons d t :
  get_neighbors (d :: t) =
    if is_neighbor d.2 then d :: get_neighbors t else get_neighbors t.
Proof.
  unfold get_neighbors. rewrite filter_cons.
  destruct (is_neighbor d.2); by case_decide.
Qed.

Lemma scan_neighbors_view d t1 t2 c h :
  routing_view t1 = routing_view t2 →
  scan_neighbors d (get_neighbors t1) c h = scan_neighbors d (get_neighbors t2) c h.
Proof.
  revert t2 c h. induction t1 as [|[k1 n1] t1 IH]; intros [|[k2 n2] t2] c h; try done.
  unfold routing_view. rewrite !fmap_cons. simpl. intros [= -> Hn Hd Hc Hv].
  rewrite !get_neighbors_cons. simpl. rewrite Hn.
  destruct (is_neighbor n2); [|by apply IH].
  simpl. rewrite Hd, Hc.
  destruct (costs n2) as [cs|]; simpl; [|done].
  destruct (tbl_get d cs); [|by apply IH].
  destruct (direct n2); simpl; [|done].
  destruct (num_ltb _ _); by apply IH.
Qed.

Lemma routing_view_app t1 t2 :
  routing_view (t1 ++ t2) = routing_view t1 ++ routing_view t2.
Proof. unfold routing_view. apply fmap_app. Qed.

Lemma relaxed_view t1 t2 e :
  routing_view t1 = routing_view t2 →
  relaxed me (get_neighbors t1) e = relaxed me (get_neighbors t2) e.
Proof.
  intros Hv. unfold relaxed. destruct (negb _); [|done].
  by rewrite (scan_neighbors_view _ _ _ _ _ Hv).
Qed.

Lemma relaxed_inv N e e' :
  relaxed me N e = Ok e' →
  e'.1 = e.1 ∧ is_neighbor e'.2 = is_neighbor e.2 ∧ direct e'.2 = direct e.2 ∧
  costs e'.2 = costs e.2 ∧ saved e'.2 = saved e.2 ∧
  silence_monitor e'.2 = silence_monitor e.2.
Proof.
  unfold relaxed. destruct (negb _).
  - destruct (scan_neighbors _ _ _ _) as [best|]; simpl; [|done].
    by intros [= <-].
  - by intros [= <-].
Qed.

Lemma estimate_from_Ok done todo out :
  estimate_from me done todo = Ok out ↔
  ∃ todo', out = done ++ todo' ∧
           Forall2 (fun e e' => relaxed me (get_neighbors (done ++ todo)) e = Ok e')
                   todo todo'.
Proof.
  revert done. induction todo as [|[d nd] rest IH]; intros done; simpl.
  - split.
    + intros [= <-]. exists []. by rewrite app_nil_r.
    + intros (todo' & -> & ->%Forall2_nil_inv_l). by rewrite app_nil_r.
  - assert (Hstep : ∀ nd',
      is_neighbor nd' = is_neighbor nd → direct nd' = direct nd → costs nd' = costs nd →
      routing_view ((done ++ [(d, nd')]) ++ rest) = routing_view (done ++ (d, nd) :: rest)).
    { intros nd' H1 H2 H3. rewrite <- app_assoc. rewrite !routing_view_app. simpl.
      by rewrite H1, H2, H3. }
    set (N := get_neighbors (done ++ (d, nd) :: rest)).
    unfold relaxed at 1. simpl.
    destruct (negb (String.eqb d me)) eqn:Hme.
    + destruct (scan_neighbors d N Inf "") as [best|e] eqn:Hscan; simpl.
      * rewrite IH. split.
        -- intros (todo' & -> & HF). eexists (_ :: todo'). split.
           { by rewrite <- app_assoc. }
           constructor.
           { unfold relaxed. simpl. rewrite Hme. fold N. by rewrite Hscan. }
           eapply Forall2_impl; [exact HF|]. intros x y Hxy. simpl in Hxy.
           rewrite <- Hxy. symmetry. apply relaxed_view. by apply Hstep.
        -- intros (todo' & -> & HF). apply Forall2_cons_inv_l in HF as (e' & todo'' & He & HF & ->).
           unfold relaxed in He. simpl in He. rewrite Hme in He. fold N in He.
           rewrite Hscan in He. simpl in He. injection He as <-.
           exists todo''. split; [by rewrite <- app_assoc|].
           eapply Forall2_impl; [exact HF|]. intros x y Hxy. simpl in Hxy.
           rewrite <- Hxy. apply relaxed_view. by apply Hstep.
      * split; [done|]. intros (todo' & _ & HF).
        apply Forall2_cons_inv_l in HF as (e' & todo'' & He & _).
        unfold relaxed in He. simpl in He. rewrite Hme in He. fold N in He.
        by rewrite Hscan in He.
    + rewrite IH. split.
      * intros (todo' & -> & HF). exists ((d, nd) :: todo'). split.
        { by rewrite <- app_assoc. }
        constructor.
        { unfold relaxed. simpl. by rewrite Hme. }
        eapply Forall2_impl; [exact HF|]. intros x y Hxy. simpl in Hxy.
        rewrite <- Hxy. symmetry. apply relaxed_view. by apply Hstep.
      * intros (todo' & -> & HF). apply Forall2_cons_inv_l in HF as (e' & todo'' & He & HF & ->).
        unfold relaxed in He. simpl in He. rewrite Hme in He. injection He as <-.
        exists todo''. split; [by rewrite <- app_assoc|].
        eapply Forall2_impl; [exact HF|]. intros x y Hxy. simpl in Hxy.
        rewrite <- Hxy. apply relaxed_view. by apply Hstep.
Qed.

Lemma estimate_costs_Ok nodes out :
  estimate_costs me nodes = Ok out ↔
  Forall2 (fun e e' => relaxed me (get_neighbors nodes) e = Ok e') nodes out.
Proof.
  unfold estimate_costs. rewrite estimate_from_Ok. simpl. split.
  - by intros (todo' & -> & HF).
  - intros HF. by exists out.
Qed.
End Estimate.

Lemma capped_cap c :
  capped (if num_ltb (Fin 15) c then Inf else c).
Proof.
  destruct (num_ltb (Fin 15) c) eqn:E; [by left|].
  right. by apply num_ltb_nlt.
Qed.

Lemma capped_Fin_lt c x : capped c → num_lt (Fin 15) x → c = Inf ∨ num_lt c x.
Proof.
  intros [->|Hc] Hx; [by left|]. right. eapply num_le_lt_trans; eauto.
Qed.

(** The inner loop never raises on complete neighbours. *)
Lemma scan_neighbors_total d nbrs c h :
  Forall (fun e => is_Some (direct e.2) ∧ is_Some (costs e.2)) nbrs →
  ∃ best, scan_neighbors d nbrs c h = Ok best.
Proof.
  revert c h. induction nbrs as [|[k n] nbrs IH]; intros c h Hall; simpl.
  - by eexists.
  - apply Forall_cons in Hall as [[[dir Hd] [cs Hc]] Hall]. simpl in *.
    rewrite Hc, Hd. simpl. destruct (tbl_get d cs); [|by apply IH].
    simpl. destruct (num_ltb _ _); by apply IH.
Qed.

(** What the inner loop returns, from a running cost [c0] that is capped. *)
Lemma scan_neighbors_spec d nbrs c0 h0 c h :
  scan_neighbors d nbrs c0 h0 = Ok (c, h) →
  capped c0 →
  capped c ∧ ¬ num_lt c0 c ∧
  (∀ e, e ∈ nbrs → num_lt (Fin 15) (offer d e.2) ∨ ¬ num_lt (offer d e.2) c) ∧
  (∀ q, c = Fin q →
     (c = c0 ∧ h = h0 ∧ ∀ e, e ∈ nbrs → ¬ num_lt (offer d e.2) c) ∨
     (num_lt c c0 ∧ ∃ l1 nb l2,
        nbrs = l1 ++ (h, nb) :: l2 ∧ offer d nb = c ∧
        (∀ e, e ∈ l1 → num_lt c (offer d e.2)) ∧
        (∀ e, e ∈ l2 → ¬ num_lt (offer d e.2) c))).
Proof.
  revert c0 h0. induction nbrs as [|[k n] nbrs IH]; intros c0 h0; simpl.
  - intros [= <- <-] Hc0. split; [done|]. split; [apply num_lt_irrefl|].
    split; [by intros e ?%elem_of_nil|].
    intros q _. left. repeat split. by intros e ?%elem_of_nil.
  - destruct (costs n) as [cs|] eqn:Hcs; simpl; [|done].
    destruct (tbl_get d cs) as [adv|] eqn:Hadv.
    + destruct (direct n) as [dir|] eqn:Hdir; simpl; [|done].
      assert (Hoff : offer d n = num_add dir adv).
      { unfold offer. by rewrite Hcs, Hdir, Hadv. }
      rewrite <- Hoff. set (x := offer d n) in *.
      destruct (num_ltb x c0) eqn:Hlt.
      * apply num_ltb_lt in Hlt. intros Hscan Hc0.
        destruct (IH _ _ Hscan (capped_cap x)) as (Hc & Hle & Hall & Hfin).
        split; [done|].
        destruct (num_ltb (Fin 15) x) eqn:H15.
        -- apply num_ltb_lt in H15.
           assert (c0 = Inf) as ->.
           { destruct Hc0 as [->|Hc0]; [done|]. exfalso. apply Hc0.
             eapply num_lt_trans; eauto. }
           split; [apply num_lt_Inf|].
           split. { intros e [->|He]%elem_of_cons; [left; exact H15 | auto]. }
           intros q Hq. destruct (Hfin q Hq) as [(Heq & _)|(Hlt1 & l1 & nb & l2 & -> & Ho & H1 & H2)].
           { congruence. }
           right. split; [done|].
           exists ((k, n) :: l1), nb, l2. repeat split; [done| |done].
           intros e [->|He]%elem_of_cons; [|auto]. simpl. fold x.
           destruct Hc as [Hc|Hc]; [congruence|]. exact (num_le_lt_trans _ _ _ Hc H15).
        -- apply num_ltb_nlt in H15.
           split. { intros Hcc. apply Hle. eapply num_lt_trans; eauto. }
           split. { intros e [->|He]%elem_of_cons; [by right | auto]. }
           intros q Hq. destruct (Hfin q Hq) as [(Heq & Hh & Hrest)|(Hlt1 & l1 & nb & l2 & -> & Ho & H1 & H2)].
           ++ right. split; [by rewrite Heq|].
              exists [], n, nbrs. subst h. repeat split; [by rewrite Heq| |done].
              by intros e ?%elem_of_nil.
           ++ right. split; [eapply num_lt_trans; eauto|].
              exists ((k, n) :: l1), nb, l2. repeat split; [done| |done].
              intros e [->|He]%elem_of_cons; [done|auto].
      * apply num_ltb_nlt in Hlt. intros Hscan Hc0.
        destruct (IH _ _ Hscan Hc0) as (Hc & Hle & Hall & Hfin).
        split; [done|]. split; [done|].
        assert (Hx : ¬ num_lt x c).
        { intros Hxc. apply Hlt. eapply num_lt_le_trans; eauto. }
        split. { intros e [->|He]%elem_of_cons; [by right | auto]. }
        intros q Hq. destruct (Hfin q Hq) as [(Heq & Hh & Hrest)|(Hlt1 & l1 & nb & l2 & -> & Ho & H1 & H2)].
        -- left. repeat split; [done..|].
           intros e [->|He]%elem_of_cons; [done|auto].
        -- right. split; [done|].
           exists ((k, n) :: l1), nb, l2. repeat split; [done| |done].
           intros e [->|He]%elem_of_cons; [|auto]. simpl. fold x.
           eapply num_lt_le_trans; eauto.
    + assert (Hoff : offer d n = Inf).
      { unfold offer. rewrite Hcs, Hadv. by destruct (direct n). }
      intros Hscan Hc0.
      destruct (IH _ _ Hscan Hc0) as (Hc & Hle & Hall & Hfin).
      split; [done|]. split; [done|].
      split. { intros e [->|He]%elem_of_cons; [left; simpl; by rewrite Hoff | auto]. }
      intros q Hq. destruct (Hfin q Hq) as [(Heq & Hh & Hrest)|(Hlt1 & l1 & nb & l2 & -> & Ho & H1 & H2)].
      * left. repeat split; [done..|].
        intros e [->|He]%elem_of_cons; [|auto]. simpl. rewrite Hoff. apply num_lt_Inf.
      * right. split; [done|].
        exists ((k, n) :: l1), nb, l2. repeat split; [done| |done].
        intros e [->|He]%elem_of_cons; [|auto]. simpl. rewrite Hoff, Hq. done.
Qed.

Lemma same_links_offer d e e' : same_links e e' → offer d e'.2 = offer d e.2.
Proof. intros (_ & _ & Hd & Hc & _). unfold offer. by rewrite Hd, Hc. Qed.

Lemma same_links_keys t t' : Forall2 same_links t t' → t'.*1 = t.*1.
Proof.
  induction 1 as [|e e' t t' He _ IH]; [done|].
  rewrite !fmap_cons. f_equal; [apply He | done].
Qed.

Lemma same_links_view t t' : Forall2 same_links t t' → routing_view t' = routing_view t.
Proof.
  unfold routing_view. induction 1 as [|e e' t t' He _ IH]; [done|].
  rewrite !fmap_cons. f_equal; [|done].
  destruct He as (-> & -> & -> & -> & _). done.
Qed.

Lemma same_links_neighbors t t' :
  Forall2 same_links t t' → Forall2 same_links (get_neighbors t) (get_neighbors t').
Proof.
  induction 1 as [|e e' t t' He _ IH]; [constructor|].
  rewrite !get_neighbors_cons. pose proof He as (_ & Hn & _). rewrite Hn.
  destruct (is_neighbor e.2); [|done]. by constructor.
Qed.

Lemma same_links_ok t t' : Forall2 same_links t t' → table_ok t → table_ok t'.
Proof.
  intros HF [Hnd Hok]. split.
  - by rewrite (same_links_keys _ _ HF).
  - clear Hnd. induction HF as [|e e' t t' He _ IH]; [constructor|].
    apply Forall_cons in Hok as [Hn Hok]. constructor; [|auto].
    destruct He as (_ & Hn' & Hd & Hc & Hs & Hm). unfold neighbor_ok in *.
    rewrite Hn', Hd, Hc, Hs, Hm. done.
Qed.

Lemma Forall2_from_total {A B} (R : A → B → Prop) (l : list A) :
  Forall (fun x => ∃ y, R x y) l → ∃ k, Forall2 R l k.
Proof.
  induction 1 as [|x l [y Hy] _ [k IH]]; [by exists []|].
  exists (y :: k). by constructor.
Qed.

Section Recompute.
Variable me : string.

Lemma neighbors_complete t :
  table_ok t →
  Forall (fun e => is_Some (direct e.2) ∧ is_Some (costs e.2)) (get_neighbors t).
Proof.
  intros [_ Hok]. apply Forall_forall. intros e He.
  apply list_elem_of_filter in He as [Hn He].
  rewrite Forall_forall in Hok. destruct (Hok e He (or_introl Hn)) as (? & ? & _). done.
Qed.

(** On a well-formed table the recomputation returns. *)
Lemma estimate_costs_total nodes :
  table_ok nodes → ∃ out, estimate_costs me nodes = Ok out.
Proof.
  intros Hok.
  destruct (Forall2_from_total
    (fun e e' => relaxed me (get_neighbors nodes) e = Ok e') nodes) as [out HF].
  - apply Forall_forall. intros e _. unfold relaxed.
    destruct (negb _); [|by eexists].
    destruct (scan_neighbors_total e.1 (get_neighbors nodes) Inf ""
                (neighbors_complete _ Hok)) as [best ->].
    by eexists.
  - exists out. by apply estimate_costs_Ok.
Qed.

(** It rewrites nothing but costs and routes. *)
Lemma estimate_costs_same_links nodes out :
  estimate_costs me nodes = Ok out → Forall2 same_links nodes out.
Proof.
  intros HF%estimate_costs_Ok. eapply Forall2_impl; [exact HF|].
  intros e e' He. by apply relaxed_inv in He.
Qed.

(** What it stores for a destination other than [me]. *)
Lemma estimate_costs_lookup nodes out d nd' :
  estimate_costs me nodes = Ok out →
  (d, nd') ∈ out → d ≠ me →
  ∃ nd best, (d, nd) ∈ nodes ∧
    scan_neighbors d (get_neighbors nodes) Inf "" = Ok best ∧
    nd' = set_route best.2 (set_cost best.1 nd).
Proof.
  intros HF%estimate_costs_Ok Hin Hme.
  apply list_elem_of_lookup in Hin as [i Hi].
  destruct (Forall2_lookup_r _ _ _ _ _ HF Hi) as ([k nd] & Hk & Hrel).
  unfold relaxed in Hrel. simpl in Hrel.
  destruct (String.eqb_spec k me) as [->|Hne]; simpl in Hrel.
  - injection Hrel as -> ->. done.
  - destruct (scan_neighbors k _ _ _) as [best|] eqn:Hscan; simpl in Hrel; [|done].
    injection Hrel as -> <-. exists nd, best. split; [|done].
    apply list_elem_of_lookup. eauto.
Qed.

End Recompute.

Lemma offer_Fin d nb q :
  offer d nb = Fin q →
  ∃ ndirect ncosts advertised,
    direct nb = Some ndirect ∧ costs nb = Some ncosts ∧
    tbl_get d ncosts = Some advertised ∧ Fin q = num_add ndirect advertised.
Proof.
  unfold offer. destruct (costs nb) as [cs|]; [|done].
  destruct (direct nb) as [dir|]; [|done].
  destruct (tbl_get d cs) as [adv|] eqn:Ha; [|done].
  intros H. exists dir, cs, adv. by rewrite H.
Qed.

Section Triangle.
Variable me : string.

(** C1. After [estimate_costs] has run on a well-formed table, every
    destination other than [me] whose stored cost is finite is routed
    through a current neighbour; the stored cost is that neighbour's direct
    cost plus the cost it advertised for the destination; no current
    neighbour offers strictly less (one whose vector lacks the destination
    offers [+inf]); and every neighbour scanned before the stored one
    offers strictly more, so the first minimum wins. *)
Theorem estimate_costs_triangle nodes :
  table_ok nodes →
  ∃ nodes', estimate_costs me nodes = Ok nodes' ∧
    ∀ d nd q, tbl_get d nodes' = Some nd → d ≠ me → cost nd = Fin q →
      ∃ nb ndirect ncosts advertised l1 l2,
        get_neighbors nodes' = l1 ++ (route nd, nb) :: l2 ∧
        tbl_get (route nd) nodes' = Some nb ∧
        direct nb = Some ndirect ∧ costs nb = Some ncosts ∧
        tbl_get d ncosts = Some advertised ∧
        cost nd = num_add ndirect advertised ∧
        (∀ m mb, (m, mb) ∈ get_neighbors nodes' → ¬ num_lt (offer d mb) (cost nd)) ∧
        (∀ m mb, (m, mb) ∈ l1 → num_lt (cost nd) (offer d mb)).
Proof.
  intros Hok. destruct (estimate_costs_total me nodes Hok) as [out Hout].
  exists out. split; [done|]. intros d nd q Hget Hme Hq.
  pose proof (estimate_costs_same_links _ _ _ Hout) as Hsame.
  pose proof (same_links_ok _ _ Hsame Hok) as [Hnd' _].
  apply tbl_get_Some_elem in Hget.
  destruct (estimate_costs_lookup _ _ _ _ _ Hout Hget Hme) as (nd0 & [c h] & _ & Hscan & ->).
  simpl in *. subst c.
  destruct (scan_neighbors_spec _ _ _ _ _ _ Hscan capped_Inf) as (_ & _ & _ & Hfin).
  destruct (Hfin q eq_refl) as [(Habs & _)|(_ & l1 & nb & l2 & Hsplit & Hoff & H1 & H2)];
    [done|].
  pose proof (same_links_neighbors _ _ Hsame) as HN. rewrite Hsplit in HN.
  apply Forall2_app_inv_l in HN as (l1' & r' & HF1 & HFr & HN).
  apply Forall2_cons_inv_l in HFr as ([k' nb'] & l2' & Hnb & HF2 & ->).
  pose proof Hnb as (Hk & _). simpl in Hk. subst k'.
  assert (Hoff' : offer d nb' = Fin q).
  { rewrite <- Hoff. exact (same_links_offer d _ _ Hnb). }
  destruct (offer_Fin _ _ _ Hoff') as (ndirect & ncosts & advertised & Hd & Hc & Ha & Hsum).
  exists nb', ndirect, ncosts, advertised, l1', l2'.
  split; [done|]. split.
  { apply tbl_get_elem; [done|].
    assert (Hin : (h, nb') ∈ get_neighbors out).
    { rewrite HN. apply elem_of_app. right. left. }
    by apply list_elem_of_filter in Hin as [_ Hin]. }
  do 4 (split; [done|]). split.
  - intros m mb Hin. rewrite HN in Hin.
    assert (Hall : ∀ e, e ∈ l1 ++ (h, nb) :: l2 → ¬ num_lt (offer d e.2) (Fin q)).
    { intros e [He|[->|He]%elem_of_cons]%elem_of_app.
      - apply num_lt_asym. auto.
      - simpl. rewrite Hoff. apply num_lt_irrefl.
      - auto. }
    assert (HF : Forall2 same_links (l1 ++ (h, nb) :: l2) (l1' ++ (h, nb') :: l2')).
    { apply Forall2_app; [done|]. by constructor. }
    apply list_elem_of_lookup in Hin as [i Hi].
    destruct (Forall2_lookup_r _ _ _ _ _ HF Hi) as (e & He & Hrel).
    rewrite (same_links_offer d _ _ Hrel : offer d mb = offer d e.2).
    apply Hall. apply list_elem_of_lookup. eauto.
  - intros m mb Hin. apply list_elem_of_lookup in Hin as [i Hi].
    destruct (Forall2_lookup_r _ _ _ _ _ HF1 Hi) as (e & He & Hrel).
    rewrite (same_links_offer d _ _ Hrel : offer d mb = offer d e.2).
    apply H1. apply list_elem_of_lookup. eauto.
Qed.
End Triangle.

(** The inner loop when every offer is above the ceiling: the cost stays
    [+inf], and the next hop is the last neighbour whose offer is finite, if
    there is one. *)
Lemma scan_neighbors_over_ceiling d nbrs h0 c h :
  scan_neighbors d nbrs Inf h0 = Ok (c, h) →
  (∀ e, e ∈ nbrs → num_lt (Fin 15) (offer d e.2)) →
  c = Inf ∧
  ((h = h0 ∧ ∀ e, e ∈ nbrs → offer d e.2 = Inf) ∨
   (∃ l1 nb l2, nbrs = l1 ++ (h, nb) :: l2 ∧ offer d nb ≠ Inf ∧
                ∀ e, e ∈ l2 → offer d e.2 = Inf)).
Proof.
  revert h0. induction nbrs as [|[k n] nbrs IH]; intros h0; simpl.
  - intros [= <- <-] _. split; [done|]. left. split; [done|]. by intros e ?%elem_of_nil.
  - intros Hscan Hbig.
    assert (Hrest : ∀ e, e ∈ nbrs → num_lt (Fin 15) (offer d e.2)).
    { intros e He. apply Hbig. by right. }
    assert (Hhead : num_lt (Fin 15) (offer d n)).
    { apply (Hbig (k, n)). left. }
    destruct (costs n) as [cs|] eqn:Hcs; simpl in Hscan; [|done].
    destruct (tbl_get d cs) as [adv|] eqn:Hadv.
    + destruct (direct n) as [dir|] eqn:Hdir; simpl in Hscan; [|done].
      assert (Hoff : offer d n = num_add dir adv).
      { unfold offer. by rewrite Hcs, Hdir, Hadv. }
      rewrite <- Hoff in Hscan.
      destruct (num_ltb (offer d n) Inf) eqn:Hlt.
      * apply num_ltb_lt in Hhead. rewrite Hhead in Hscan.
        destruct (IH _ Hscan Hrest) as [-> [[-> Hall]|(l1 & nb & l2 & -> & Hnb & Hall)]].
        -- split; [done|]. right. exists [], n, nbrs. split; [done|]. split; [|done].
           intros Heq. rewrite Heq in Hlt. discriminate Hlt.
        -- split; [done|]. right. by exists ((k, n) :: l1), nb, l2.
      * assert (Hinf : offer d n = Inf).
        { destruct (offer d n); [discriminate Hlt | done]. }
        destruct (IH _ Hscan Hrest) as [-> [[-> Hall]|(l1 & nb & l2 & -> & Hnb & Hall)]].
        -- split; [done|]. left. split; [done|].
           intros e [->|He]%elem_of_cons; [done | auto].
        -- split; [done|]. right. by exists ((k, n) :: l1), nb, l2.
    + assert (Hinf : offer d n = Inf).
      { unfold offer. rewrite Hcs, Hadv. by destruct (direct n). }
      destruct (IH _ Hscan Hrest) as [-> [[-> Hall]|(l1 & nb & l2 & -> & Hnb & Hall)]].
      * split; [done|]. left. split; [done|].
        intros e [->|He]%elem_of_cons; [done | auto].
      * split; [done|]. right. by exists ((k, n) :: l1), nb, l2.
Qed.

Section Unreachable.
Variable me : string.

(** The route the recomputation stores with an infinite cost: it is empty
    when no neighbour offers a finite candidate; when some neighbour offers a
    finite candidate above the ceiling, it is such a neighbour. *)
Lemma estimate_costs_infinite_cost_route nodes nodes' d nd :
  estimate_costs me nodes = Ok nodes' →
  tbl_get d nodes' = Some nd → d ≠ me → cost nd = Inf →
  (route nd = "" ∧ ∀ e, e ∈ get_neighbors nodes' → offer d e.2 = Inf) ∨
  (∃ nb, (route nd, nb) ∈ get_neighbors nodes' ∧
         num_lt (Fin 15) (offer d nb) ∧ offer d nb ≠ Inf).
Proof.
  intros Hout Hget Hme Hinf.
  pose proof (estimate_costs_same_links _ _ _ Hout) as Hsame.
  pose proof (same_links_neighbors _ _ Hsame) as HN.
  apply tbl_get_Some_elem in Hget.
  destruct (estimate_costs_lookup _ _ _ _ _ Hout Hget Hme) as (nd0 & [c h] & _ & Hscan & ->).
  simpl in *. subst c.
  destruct (scan_neighbors_spec _ _ _ _ _ _ Hscan capped_Inf) as (_ & _ & Hall & _).
  assert (Hbig : ∀ e, e ∈ get_neighbors nodes → num_lt (Fin 15) (offer d e.2)).
  { intros e He. destruct (Hall e He) as [?|Hge]; [done|].
    destruct (offer d e.2); [by exfalso; apply Hge | done]. }
  destruct (scan_neighbors_over_ceiling _ _ _ _ _ Hscan Hbig)
    as [_ [[-> Hno]|(l1 & nb & l2 & Hsplit & Hnb & _)]].
  - left. split; [done|]. intros e He.
    apply list_elem_of_lookup in He as [i Hi].
    destruct (Forall2_lookup_r _ _ _ _ _ HN Hi) as (e0 & He0 & Hrel).
    rewrite (same_links_offer d _ _ Hrel). apply Hno.
    apply list_elem_of_lookup. eauto.
  - right.
    assert (Hin : (h, nb) ∈ get_neighbors nodes).
    { rewrite Hsplit. apply elem_of_app. right. left. }
    pose proof (Hbig _ Hin) as Hbig'. simpl in Hbig'.
    apply list_elem_of_lookup in Hin as [i Hi].
    destruct (Forall2_lookup_l _ _ _ _ _ HN Hi) as ([k nb'] & He' & Hrel).
    pose proof Hrel as (Hk & _). simpl in Hk. subst k.
    exists nb'. rewrite (same_links_offer d _ _ Hrel : offer d nb' = offer d nb).
    split; [apply list_elem_of_lookup; eauto | done].
Qed.
End Unreachable.

(** ** The metric ceiling *)

Lemma ceiling_table_ok : table_ok ceiling_table.
Proof. apply (bool_decide_unpack _). vm_compute. reflexivity. Qed.

Lemma tie_table_ok : table_ok tie_table.
Proof. apply (bool_decide_unpack _). vm_compute. reflexivity. Qed.

Section Ceiling.
Variable me : string.

(** C2, amended.  The ceiling of the recomputation is [15]: for every
    destination other than [me] the stored cost is [+inf] or at most [15];
    it is [+inf] when every neighbour offers more than [15]; and when the
    winning offer is at most [15] the stored cost is that offer. *)
Theorem estimate_costs_ceiling nodes :
  table_ok nodes →
  ∃ nodes', estimate_costs me nodes = Ok nodes' ∧
    ∀ d nd, tbl_get d nodes' = Some nd → d ≠ me →
      metric_ceiling 15 (get_neighbors nodes') d (cost nd).
Proof.
  intros Hok. destruct (estimate_costs_total me nodes Hok) as [out Hout].
  exists out. split; [done|]. intros d nd Hget Hme.
  pose proof (estimate_costs_same_links _ _ _ Hout) as Hsame.
  apply tbl_get_Some_elem in Hget.
  destruct (estimate_costs_lookup _ _ _ _ _ Hout Hget Hme) as (nd0 & [c h] & _ & Hscan & ->).
  simpl.
  destruct (scan_neighbors_spec _ _ _ _ _ _ Hscan capped_Inf) as (Hc & _ & Hall & Hfin).
  assert (Hall' : ∀ m mb, (m, mb) ∈ get_neighbors out →
            num_lt (Fin 15) (offer d mb) ∨ ¬ num_lt (offer d mb) c).
  { intros m mb Hin. apply list_elem_of_lookup in Hin as [i Hi].
    destruct (Forall2_lookup_r _ _ _ _ _ (same_links_neighbors _ _ Hsame) Hi)
      as (e & He & Hrel).
    rewrite (same_links_offer d _ _ Hrel : offer d mb = offer d e.2).
    apply Hall. apply list_elem_of_lookup. eauto. }
  assert (Hwin : ∀ q, c = Fin q → ∃ m mb, (m, mb) ∈ get_neighbors out ∧ offer d mb = c).
  { intros q Hq.
    destruct (Hfin q Hq) as [(Habs & _)|(_ & l1 & nb & l2 & Hsplit & Hoff & _)];
      [congruence|].
    assert (Hin : (h, nb) ∈ get_neighbors nodes).
    { rewrite Hsplit. apply elem_of_app. right. left. }
    apply list_elem_of_lookup in Hin as [i Hi].
    destruct (Forall2_lookup_l _ _ _ _ _ (same_links_neighbors _ _ Hsame) Hi)
      as ([m mb] & He & Hrel).
    exists m, mb. split; [apply list_elem_of_lookup; eauto|].
    rewrite <- Hoff. exact (same_links_offer d _ _ Hrel). }
  split; [exact Hc|]. split.
  - intros Hbig. destruct c as [q|]; [|done].
    destruct (Hwin q eq_refl) as (m & mb & Hin & Hoff).
    destruct Hc as [?|Hc]; [done|]. exfalso. apply Hc. rewrite <- Hoff. eauto.
  - intros m mb Hin Hsmall Hmin.
    destruct (Hall' m mb Hin) as [?|Hge]; [done|].
    split; [|done].
    destruct c as [q|].
    + destruct (Hwin q eq_refl) as (m' & mb' & Hin' & <-). eauto.
    + exfalso. apply Hge. destruct (offer d mb); [done|].
      apply Hsmall. done.
Qed.
End Ceiling.

(** C2 as the specification states it, with a ceiling of [16], fails: the
    only offer for [addrD] in [ceiling_table] is [1 + 15 = 16], which is not more
    than [16], and [+inf] is stored. *)
Lemma estimate_costs_ceiling_16_fails :
  ¬ (∀ nodes, table_ok nodes →
       ∃ nodes', estimate_costs addrA nodes = Ok nodes' ∧
         ∀ d nd, tbl_get d nodes' = Some nd → d ≠ addrA →
           metric_ceiling 16 (get_neighbors nodes') d (cost nd)).
Proof.
  intros H. destruct (H ceiling_table ceiling_table_ok) as (nodes' & Hrun & Hall).
  vm_compute in Hrun. injection Hrun as <-.
  destruct (Hall addrD _ eq_refl ltac:(done)) as (_ & _ & Hwin).
  destruct (Hwin addrB (neighbor_node addrB (Fin 1) [(addrB, Fin 0); (addrD, Fin 15)])) as [_ Hlt].
  - left.
  - vm_compute. intros Hlt. discriminate Hlt.
  - intros m' mb' [[= -> ->]|Hin]%elem_of_cons.
    + apply num_lt_irrefl.
    + by apply elem_of_nil in Hin.
  - apply Hlt. vm_compute. exact I.
Qed.

(** C2 at the table where the only offer for [addrD] is [16]. *)
Lemma estimate_costs_ceiling_witness :
  ∃ nodes', estimate_costs addrA ceiling_table = Ok nodes' ∧
    ∀ d nd, tbl_get d nodes' = Some nd → d ≠ addrA →
      metric_ceiling 15 (get_neighbors nodes') d (cost nd).
Proof.
  apply (estimate_costs_ceiling addrA ceiling_table).
  apply (bool_decide_unpack _). vm_compute. reflexivity.
Defined.

(** C1 at a concrete table where two neighbours tie. *)
Lemma estimate_costs_triangle_witness :
  ∃ nodes', estimate_costs addrA tie_table = Ok nodes' ∧
    ∀ d nd q, tbl_get d nodes' = Some nd → d ≠ addrA → cost nd = Fin q →
      ∃ nb ndirect ncosts advertised l1 l2,
        get_neighbors nodes' = l1 ++ (route nd, nb) :: l2 ∧
        tbl_get (route nd) nodes' = Some nb ∧
        direct nb = Some ndirect ∧ costs nb = Some ncosts ∧
        tbl_get d ncosts = Some advertised ∧
        cost nd = num_add ndirect advertised ∧
        (∀ m mb, (m, mb) ∈ get_neighbors nodes' → ¬ num_lt (offer d mb) (cost nd)) ∧
        (∀ m mb, (m, mb) ∈ l1 → num_lt (cost nd) (offer d mb)).
Proof.
  apply (estimate_costs_triangle addrA tie_table).
  apply (bool_decide_unpack _). vm_compute. reflexivity.
Defined.

(** ** Advertisements *)

Lemma tbl_set_app_mid {V} k (v v0 : V) l1 l2 :
  tbl_get k l1 = None → tbl_set k v (l1 ++ (k, v0) :: l2) = l1 ++ (k, v) :: l2.
Proof.
  induction l1 as [|[k' v'] l1 IH]; simpl.
  - by rewrite String.eqb_refl.
  - destruct (String.eqb k k'); [done|]. intros H. by rewrite IH.
Qed.

Lemma dd_getitem_known k n (t : table) :
  tbl_get k t = Some n → dd_getitem k t = (n, t).
Proof. unfold dd_getitem. by intros ->. Qed.

Lemma dd_getitem_unknown k (t : table) :
  tbl_get k t = None → dd_getitem k t = (default_node, t ++ [(k, default_node)]).
Proof. unfold dd_getitem. by intros ->. Qed.

Section Broadcast.
Variable me : string.

Lemma poison_reverse_spec N pre suf :
  NoDup (pre ++ suf).*1 →
  poison_reverse me N (stored_costs suf) (poisoned_vector me pre N ++ stored_costs suf) (pre ++ suf)
  = (poisoned_vector me (pre ++ suf) N, pre ++ suf).
Proof.
  revert pre. induction suf as [|[k n] suf IH]; intros pre Hnd; simpl.
  - by rewrite !app_nil_r.
  - assert (Hget : tbl_get k (pre ++ (k, n) :: suf) = Some n).
    { apply tbl_get_elem; [done|]. apply elem_of_app. right. left. }
    assert (Hpre : tbl_get k (poisoned_vector me pre N) = None).
    { apply tbl_get_None. unfold poisoned_vector. rewrite <- list_fmap_compose.
      rewrite fmap_app in Hnd. apply NoDup_app in Hnd as (_ & Hdisj & _).
      intros Hin. apply (Hdisj k); [exact Hin | left]. }
    assert (Hnext : ∀ v,
      poison_reverse me N (stored_costs suf)
        (poisoned_vector me pre N ++ (k, v) :: stored_costs suf) (pre ++ (k, n) :: suf)
      = (poisoned_vector me pre N ++ (k, v) :: poisoned_vector me suf N,
         pre ++ (k, n) :: suf) →
      v = (if negb (String.eqb k me || String.eqb k N) && String.eqb (route n) N
           then Inf else cost n) →
      poison_reverse me N (stored_costs suf)
        (poisoned_vector me pre N ++ (k, v) :: stored_costs suf) (pre ++ (k, n) :: suf)
      = (poisoned_vector me (pre ++ (k, n) :: suf) N, pre ++ (k, n) :: suf)).
    { intros v -> ->. unfold poisoned_vector. by rewrite !fmap_app. }
    assert (HIH : ∀ v,
      v = (if negb (String.eqb k me || String.eqb k N) && String.eqb (route n) N
           then Inf else cost n) →
      poison_reverse me N (stored_costs suf)
        (poisoned_vector me pre N ++ (k, v) :: stored_costs suf) (pre ++ (k, n) :: suf)
      = (poisoned_vector me pre N ++ (k, v) :: poisoned_vector me suf N,
         pre ++ (k, n) :: suf)).
    { intros v Hv.
      assert (Hnd' : NoDup ((pre ++ [(k, n)]) ++ suf).*1).
      { by rewrite <- app_assoc. }
      specialize (IH (pre ++ [(k, n)]) Hnd').
      rewrite <- !app_assoc in IH. simpl in IH.
      unfold poisoned_vector in IH. rewrite !fmap_app in IH. simpl in IH.
      rewrite <- !app_assoc in IH. simpl in IH. rewrite <- Hv in IH.
      exact IH. }
    destruct (negb (String.eqb k me || String.eqb k N)) eqn:Hk; simpl.
    + rewrite (dd_getitem_known _ _ _ Hget).
      destruct (String.eqb (route n) N) eqn:Hr.
      * rewrite (tbl_set_app_mid _ _ _ _ _ Hpre).
        apply Hnext; [apply HIH|]; done.
      * apply Hnext; [apply HIH|]; done.
    + apply Hnext; [apply HIH|]; done.
Qed.

Lemma broadcast_loop_spec nodes nbrs sent :
  NoDup nodes.*1 →
  Forall (fun e => is_Some (direct e.2)) nbrs →
  broadcast_loop me (stored_costs nodes) nbrs nodes sent
  = Ok (sent ++ map (advertisement me nodes) nbrs, nodes).
Proof.
  intros Hnd. revert sent. induction nbrs as [|[N nb] nbrs IH]; intros sent Hall; simpl.
  - by rewrite app_nil_r.
  - apply Forall_cons in Hall as [[d Hd] Hall]. simpl in Hd.
    pose proof (poison_reverse_spec N [] nodes Hnd) as Hp. simpl in Hp.
    rewrite Hp. rewrite Hd. simpl. rewrite IH by done.
    rewrite <- app_assoc. simpl. unfold advertisement at 2. simpl. by rewrite Hd.
Qed.
End Broadcast.

Lemma tbl_get_map {V W} (g : string → V → W) d v (t : list (string * V)) :
  tbl_get d t = Some v →
  tbl_get d (map (fun e => (e.1, g e.1 e.2)) t) = Some (g d v).
Proof.
  induction t as [|[k v'] t IH]; simpl; [done|].
  destruct (String.eqb_spec d k) as [->|Hne]; [by intros [= ->] | done].
Qed.

Section Advertise.
Variable me : string.

(** C4. On a well-formed table [broadcast_costs] sends one cost update to
    each neighbour and hands the table back unchanged.  The vector sent to
    the neighbour [N] names every known destination; it advertises [+inf]
    for each destination, other than [me] and [N], that is routed through
    [N], and the stored cost for every other destination (so a destination
    not routed through the receiving neighbour is advertised at its stored
    cost); and the update carries the direct cost of [N] as stored. *)
Theorem broadcast_costs_poison_reverse nodes :
  table_ok nodes →
  ∃ sent, broadcast_costs me nodes = Ok (sent, nodes) ∧
    sent.*1 = (get_neighbors nodes).*1 ∧
    ∀ N msg, (N, msg) ∈ sent →
      ∃ nb vec ndirect,
        tbl_get N nodes = Some nb ∧ is_neighbor nb = true ∧
        direct nb = Some ndirect ∧
        msg = {| msg_type := Some COSTSUPDATE;
                 msg_payload := Some {| kw_costs := Some vec;
                                        kw_neighbor := Some (Some ndirect);
                                        kw_direct := None |} |} ∧
        vec.*1 = nodes.*1 ∧
        ∀ d nd, tbl_get d nodes = Some nd →
          (d ≠ me → d ≠ N → route nd = N → tbl_get d vec = Some Inf) ∧
          (d = me ∨ d = N ∨ route nd ≠ N → tbl_get d vec = Some (cost nd)).
Proof.
  intros Hok. pose proof Hok as [Hnd _].
  exists (map (advertisement me nodes) (get_neighbors nodes)). split.
  { unfold broadcast_costs. rewrite broadcast_loop_spec; [done..|].
    eapply Forall_impl; [exact (neighbors_complete _ Hok)|]. by intros e [? _]. }
  split. { rewrite <- list_fmap_compose. done. }
  intros N msg Hin. apply list_elem_of_fmap in Hin as ([N' nb] & Heq & Hin).
  injection Heq as -> ->. simpl.
  pose proof Hin as [Hn Hin']%list_elem_of_filter. simpl in Hn.
  pose proof (neighbors_complete _ Hok) as Hc. rewrite Forall_forall in Hc.
  destruct (Hc _ Hin) as [[ndirect Hd] _]. simpl in Hd.
  exists nb, (poisoned_vector me nodes N'), ndirect.
  split; [by apply tbl_get_elem|]. split; [done|]. split; [done|].
  split; [by rewrite Hd|]. split.
  { unfold poisoned_vector. by rewrite <- list_fmap_compose. }
  intros d nd Hget.
  assert (Hv : tbl_get d (poisoned_vector me nodes N') =
               Some (if negb (String.eqb d me || String.eqb d N')
                        && String.eqb (route nd) N' then Inf else cost nd)).
  { exact (tbl_get_map
      (fun k n => if negb (String.eqb k me || String.eqb k N')
                     && String.eqb (route n) N' then Inf else cost n) d nd nodes Hget). }
  rewrite Hv. split.
  - intros H1 H2 H3.
    destruct (String.eqb_spec d me); [done|]. destruct (String.eqb_spec d N'); [done|].
    destruct (String.eqb_spec (route nd) N'); [done|done].
  - intros H. f_equal.
    destruct (String.eqb_spec d me); [done|]. destruct (String.eqb_spec d N'); [done|].
    destruct (String.eqb_spec (route nd) N'); [|done]. simpl. destruct H as [?|[?|?]]; done.
Qed.
End Advertise.

(** C4 at the sample table. *)
Lemma broadcast_costs_poison_reverse_witness :
  ∃ sent, broadcast_costs addrA tie_table = Ok (sent, tie_table) ∧
    sent.*1 = (get_neighbors tie_table).*1 ∧
    ∀ N msg, (N, msg) ∈ sent →
      ∃ nb vec ndirect,
        tbl_get N tie_table = Some nb ∧ is_neighbor nb = true ∧
        direct nb = Some ndirect ∧
        msg = {| msg_type := Some COSTSUPDATE;
                 msg_payload := Some {| kw_costs := Some vec;
                                        kw_neighbor := Some (Some ndirect);
                                        kw_direct := None |} |} ∧
        vec.*1 = tie_table.*1 ∧
        ∀ d nd, tbl_get d tie_table = Some nd →
          (d ≠ addrA → d ≠ N → route nd = N → tbl_get d vec = Some Inf) ∧
          (d = addrA ∨ d = N ∨ route nd ≠ N → tbl_get d vec = Some (cost nd)).
Proof.
  apply (broadcast_costs_poison_reverse addrA tie_table).
  apply (bool_decide_unpack _). vm_compute. reflexivity.
Defined.

(** ** Link operations *)

Lemma same_links_get t t' k n :
  Forall2 same_links t t' → tbl_get k t = Some n →
  ∃ n', tbl_get k t' = Some n' ∧ same_links (k, n) (k, n').
Proof.
  induction 1 as [|[k1 n1] [k2 n2] t t' He _ IH]; simpl; [done|].
  pose proof He as (Hk & _). simpl in Hk. subst k2.
  destruct (String.eqb_spec k k1) as [->|Hne]; [|done].
  intros [= ->]. by exists n2.
Qed.

Lemma same_links_get_None t t' k :
  Forall2 same_links t t' → tbl_get k t = None → tbl_get k t' = None.
Proof.
  intros HF. rewrite !tbl_get_None. by rewrite (same_links_keys _ _ HF).
Qed.

Lemma with_nodes_id w : with_nodes (nodes w) w = w.
Proof. by destruct w. Qed.

Lemma neighbor_ok_default : neighbor_ok default_node.
Proof. intros [H|[? H]]; discriminate H. Qed.

Lemma table_ok_set k n t : table_ok t → neighbor_ok n → table_ok (tbl_set k n t).
Proof.
  intros [Hnd Hok] Hn. split; [by apply tbl_set_NoDup|].
  apply Forall_forall. intros e He. rewrite Forall_forall in Hok.
  apply tbl_set_elem in He as [->|He]; [done | auto].
Qed.

Lemma table_ok_del k t : table_ok t → table_ok (tbl_del k t).
Proof.
  intros [Hnd Hok]. split; [by apply tbl_del_NoDup|].
  apply Forall_forall. intros e He. rewrite Forall_forall in Hok.
  apply Hok. by eapply tbl_del_elem.
Qed.

Lemma dd_getitem_set k (t : table) :
  dd_getitem k t =
    match tbl_get k t with
    | Some n => (n, t)
    | None => (default_node, tbl_set k default_node t)
    end.
Proof.
  unfold dd_getitem. destruct (tbl_get k t) eqn:E; [done|]. by rewrite tbl_set_notin.
Qed.

Lemma table_ok_dd k t : table_ok t → table_ok (dd_getitem k t).2.
Proof.
  intros Hok. rewrite dd_getitem_set. destruct (tbl_get k t); [done|].
  simpl. apply table_ok_set; [done | apply neighbor_ok_default].
Qed.

Lemma tbl_get_dd k t : tbl_get k (dd_getitem k t).2 = Some (dd_getitem k t).1.
Proof.
  rewrite dd_getitem_set. destruct (tbl_get k t) eqn:E; simpl; [done|].
  by rewrite tbl_get_set, String.eqb_refl.
Qed.

Lemma table_ok_neighbor t k n :
  table_ok t → tbl_get k t = Some n → neighbor_ok n.
Proof.
  intros [_ Hok] Hget%tbl_get_Some_elem. rewrite Forall_forall in Hok.
  exact (Hok _ Hget).
Qed.

Section Handlers.
Variables (me localhost : string) (timeout : Q).

Lemma run_estimate_costs_total w :
  table_ok (nodes w) →
  ∃ t, estimate_costs me (nodes w) = Ok t ∧
       run_estimate_costs me w = Ok {| nodes := t; stdout := stdout w |}.
Proof.
  intros Hok. destruct (estimate_costs_total me _ Hok) as [t Ht].
  exists t. split; [done|]. unfold run_estimate_costs. by rewrite Ht.
Qed.

Lemma get_node_known host port w n :
  tbl_get (addr2key (get_host localhost host) port) (nodes w) = Some n →
  get_node localhost host port w
  = ((n, addr2key (get_host localhost host) port, false), w).
Proof.
  intros Hget. unfold get_node, in_network, tbl_in. rewrite Hget. simpl.
  rewrite (dd_getitem_known _ _ _ Hget). by rewrite with_nodes_id.
Qed.

Lemma get_node_unknown host port w :
  tbl_get (addr2key (get_host localhost host) port) (nodes w) = None →
  get_node localhost host port w
  = ((default_node, addr2key (get_host localhost host) port, true),
     {| nodes := nodes w ++ [(addr2key (get_host localhost host) port, default_node)];
        stdout := stdout w ++ [NotInNetwork (addr2key (get_host localhost host) port)] |}).
Proof.
  intros Hget. unfold get_node, in_network, tbl_in. rewrite Hget. simpl.
  by rewrite (dd_getitem_unknown _ _ Hget).
Qed.

(** Taking a link down and up again: the direct cost comes back, the saved
    cost is gone and the node is a neighbour again, but its monitor stays
    cancelled. *)
Lemma linkdown_linkup host port kw kw' w n c :
  table_ok (nodes w) →
  tbl_get (addr2key (get_host localhost host) port) (nodes w) = Some n →
  is_neighbor n = true → direct n = Some c →
  ∃ w1 w2 n2 m,
    linkdown me localhost host port kw w = Ok w1 ∧
    linkup me localhost host port kw' w1 = Ok w2 ∧
    tbl_get (addr2key (get_host localhost host) port) (nodes w2) = Some n2 ∧
    direct n2 = Some c ∧ saved n2 = None ∧ is_neighbor n2 = true ∧
    silence_monitor n = Some m ∧ silence_monitor n2 = Some (cancel m).
Proof.
  intros Hok Hget Hn Hd. set (addr := addr2key (get_host localhost host) port) in *.
  destruct (table_ok_neighbor _ _ _ Hok Hget (or_introl Hn)) as (_ & [cs Hcs] & [m Hm]).
  set (n1 := set_silence_monitor (Some (cancel m))
               (set_is_neighbor false (set_direct (Some Inf) (set_saved (Some c) n)))).
  assert (Hok1 : table_ok (tbl_set addr n1 (nodes w))).
  { apply table_ok_set; [done|]. intros _. subst n1. simpl. rewrite Hcs. eauto. }
  destruct (run_estimate_costs_total (with_nodes (tbl_set addr n1 (nodes w)) w) Hok1)
    as (t1 & Ht1 & Hrun1).
  simpl in Ht1.
  assert (Hdown : linkdown me localhost host port kw w
                  = Ok {| nodes := t1; stdout := stdout w |}).
  { unfold linkdown. rewrite (get_node_known _ _ _ _ Hget). fold addr.
    rewrite Hn, Hd. simpl. rewrite Hm. simpl. exact Hrun1. }
  pose proof (estimate_costs_same_links _ _ _ Ht1) as Hs1.
  destruct (same_links_get _ _ addr n1 Hs1) as (n1' & Hget1 & Hrel1).
  { by rewrite tbl_get_set, String.eqb_refl. }
  destruct Hrel1 as (_ & Hn1 & Hd1 & Hc1 & Hsv1 & Hm1). simpl in *.
  set (w1 := {| nodes := t1; stdout := stdout w |}) in *.
  set (n2 := set_is_neighbor true (set_saved None (set_direct (Some c) n1'))).
  assert (Hok2 : table_ok (tbl_set addr n2 t1)).
  { apply table_ok_set.
    - eapply same_links_ok; [exact Hs1 | exact Hok1].
    - intros _. subst n2. simpl. rewrite Hc1, Hm1, Hcs. by eauto. }
  destruct (run_estimate_costs_total (with_nodes (tbl_set addr n2 t1) w1) Hok2)
    as (t2 & Ht2 & Hrun2).
  simpl in Ht2.
  assert (Hup : linkup me localhost host port kw' w1
                = Ok {| nodes := t2; stdout := stdout w |}).
  { unfold linkup. rewrite (get_node_known host port w1 n1' Hget1). fold addr.
    rewrite Hsv1. exact Hrun2. }
  pose proof (estimate_costs_same_links _ _ _ Ht2) as Hs2.
  destruct (same_links_get _ _ addr n2 Hs2) as (n2' & Hget2 & Hrel2).
  { by rewrite tbl_get_set, String.eqb_refl. }
  destruct Hrel2 as (_ & Hn2 & Hd2 & Hc2 & Hsv2 & Hm2). simpl in *.
  exists w1, {| nodes := t2; stdout := stdout w |}, n2', m.
  split; [exact Hdown|]. split; [exact Hup|]. split; [exact Hget2|].
  rewrite Hd2, Hsv2, Hn2, Hm2, Hm1. done.
Qed.
End Handlers.

Section LinkErrors.
Variables (me localhost : string).

(** C8, amended.  A link operation whose precondition is violated reports
    the error and returns.  When the address is known the table is left
    exactly as it was; when the address is unknown the lookup has created a
    default entry for it, last in the table, and nothing else changes. *)
Theorem link_violation_reported op host port kw w r :
  link_violation (nodes w) (addr2key (get_host localhost host) port) kw op r →
  ∃ w', run_link me localhost op host port kw w = Ok w' ∧
    stdout w' = stdout w ++ [r] ∧
    (is_Some (tbl_get (addr2key (get_host localhost host) port) (nodes w)) →
     nodes w' = nodes w) ∧
    (tbl_get (addr2key (get_host localhost host) port) (nodes w) = None →
     nodes w' = nodes w ++ [(addr2key (get_host localhost host) port, default_node)]).
Proof.
  set (addr := addr2key (get_host localhost host) port).
  intros Hv. destruct Hv as [op Hget|n Hget Hn|n Hget Hs|n Hget Hn|n d Hget Hn Hd Hlt
                            |n d s Hget Hn Hd Hlt Hs].
  - eexists. split.
    + destruct op; simpl; unfold linkdown, linkup, linkchange;
        rewrite (get_node_unknown _ _ _ _ Hget); reflexivity.
    + simpl. fold addr. split; [done|]. split; [|done].
      rewrite Hget. by intros [? ?].
  - exists (print (NotNeighborCannotTakeDown addr) w). split.
    + simpl. unfold linkdown. rewrite (get_node_known _ _ _ _ _ Hget). fold addr.
      by rewrite Hn.
    + split; [done|]. split; [done|]. rewrite Hget. done.
  - exists (print (NotPreviousNeighbor addr) w). split.
    + simpl. unfold linkup. rewrite (get_node_known _ _ _ _ _ Hget). fold addr.
      by rewrite Hs.
    + split; [done|]. split; [done|]. rewrite Hget. done.
  - exists (print (NotNeighborCannotChange addr) w). split.
    + simpl. unfold linkchange. rewrite (get_node_known _ _ _ _ _ Hget). fold addr.
      by rewrite Hn.
    + split; [done|]. split; [done|]. rewrite Hget. done.
  - exists (print MinimumLinkCost w). split.
    + simpl. unfold linkchange. rewrite (get_node_known _ _ _ _ _ Hget). fold addr.
      rewrite Hn, Hd. simpl. apply num_ltb_lt in Hlt. by rewrite Hlt.
    + split; [done|]. split; [done|]. rewrite Hget. done.
  - exists (print LinkCurrentlyDown w). split.
    + simpl. unfold linkchange. rewrite (get_node_known _ _ _ _ _ Hget). fold addr.
      rewrite Hn, Hd. simpl. apply num_ltb_nlt in Hlt. by rewrite Hlt, Hs.
    + split; [done|]. split; [done|]. rewrite Hget. done.
Qed.
End LinkErrors.

(** C8 on the sample table: changing the cost of the link to [addrB] to [1/2]. *)
Lemma link_violation_reported_witness :
  ∃ w', run_link addrA "10.0.0.1" LinkChange "10.0.0.1" 20001
          {| kw_costs := None; kw_neighbor := None; kw_direct := Some (Fin (1 # 2)) |}
          sample_world = Ok w' ∧
    stdout w' = stdout sample_world ++ [MinimumLinkCost] ∧
    (is_Some (tbl_get (addr2key (get_host "10.0.0.1" "10.0.0.1") 20001) (nodes sample_world)) →
     nodes w' = nodes sample_world) ∧
    (tbl_get (addr2key (get_host "10.0.0.1" "10.0.0.1") 20001) (nodes sample_world) = None →
     nodes w' = nodes sample_world
                ++ [(addr2key (get_host "10.0.0.1" "10.0.0.1") 20001, default_node)]).
Proof.
  apply (link_violation_reported addrA "10.0.0.1" LinkChange "10.0.0.1" 20001).
  eapply (change_below_minimum _ _ _ _ (Fin (1 # 2))).
  - vm_compute. reflexivity.
  - reflexivity.
  - reflexivity.
  - vm_compute. reflexivity.
Defined.

(** C8 as the specification states it fails for an unknown address: the
    operation reports the error, but the table has one more entry. *)
Lemma linkdown_unknown_address_creates_entry :
  tbl_get "10.0.0.9:20009" (nodes sample_world) = None ∧
  ∃ w', linkdown addrA "10.0.0.1" "10.0.0.9" 20009 no_kwargs sample_world = Ok w' ∧
    stdout w' = [NotInNetwork "10.0.0.9:20009"] ∧
    tbl_get "10.0.0.9:20009" (nodes w') = Some default_node ∧
    nodes w' ≠ nodes sample_world.
Proof.
  split; [reflexivity|]. eexists. split; [vm_compute; reflexivity|].
  split; [reflexivity|]. split; [reflexivity|]. intros H. discriminate H.
Qed.

(** ** Cost updates *)

Lemma tbl_del_notin {V} k (t : list (string * V)) :
  tbl_get k t = None → tbl_del k t = t.
Proof.
  induction t as [|[k' v'] t IH]; simpl; [done|].
  destruct (String.eqb k k'); [done|]. intros H. by rewrite IH.
Qed.

Lemma tbl_del_app_last {V} k (v : V) (t : list (string * V)) :
  tbl_get k t = None → tbl_del k (t ++ [(k, v)]) = t.
Proof.
  induction t as [|[k' v'] t IH]; simpl.
  - by rewrite String.eqb_refl.
  - destruct (String.eqb k k'); [done|]. intros H. by rewrite IH.
Qed.

Lemma tbl_set_app_last {V} k (v v0 : V) (t : list (string * V)) :
  tbl_get k t = None → tbl_set k v (t ++ [(k, v0)]) = t ++ [(k, v)].
Proof. intros H. by apply tbl_set_app_mid. Qed.

Lemma add_default_known t k k' n :
  tbl_get k t = Some n → tbl_get k (add_default t k') = Some n.
Proof.
  intros Hget. unfold add_default, tbl_in.
  destruct (tbl_get k' t) eqn:E; simpl; [done|].
  rewrite tbl_get_set. destruct (String.eqb_spec k k') as [->|]; [congruence|done].
Qed.

Lemma create_missing_known cs t k n :
  tbl_get k t = Some n → tbl_get k (create_missing cs t) = Some n.
Proof.
  unfold create_missing. generalize (map fst cs). intros ks.
  revert t. induction ks as [|k' ks IH]; intros t Hget; simpl; [done|].
  apply IH. by apply add_default_known.
Qed.

Lemma create_missing_new cs t k :
  tbl_get k t = None → k ∈ cs.*1 → tbl_get k (create_missing cs t) = Some default_node.
Proof.
  unfold create_missing. change (map fst cs) with (cs.*1). generalize (cs.*1). intros ks.
  revert t. induction ks as [|k' ks IH]; intros t Hget Hin; simpl.
  - by apply elem_of_nil in Hin.
  - destruct (String.eqb_spec k k') as [<-|Hne].
    + assert (Hk : tbl_get k (add_default t k) = Some default_node).
      { unfold add_default, tbl_in. rewrite Hget. simpl.
        by rewrite tbl_get_set, String.eqb_refl. }
      revert Hk. generalize (add_default t k). clear. intros t Hget.
      revert t Hget. induction ks as [|k' ks IH]; intros t Hget; simpl; [done|].
      apply IH. by apply add_default_known.
    + apply elem_of_cons in Hin as [?|Hin]; [done|].
      apply IH; [|done]. unfold add_default, tbl_in.
      destruct (tbl_get k' t); simpl; [done|].
      rewrite tbl_get_set. by destruct (String.eqb_spec k k').
Qed.

Lemma create_missing_other cs t k :
  tbl_get k t = None → k ∉ cs.*1 → tbl_get k (create_missing cs t) = None.
Proof.
  unfold create_missing. change (map fst cs) with (cs.*1). generalize (cs.*1). intros ks.
  revert t. induction ks as [|k' ks IH]; intros t Hget Hin; simpl; [done|].
  apply not_elem_of_cons in Hin as [Hne Hin].
  apply IH; [|done]. unfold add_default, tbl_in.
  destruct (tbl_get k' t); simpl; [done|].
  rewrite tbl_get_set. by destruct (String.eqb_spec k k').
Qed.

Lemma create_missing_ok cs t : table_ok t → table_ok (create_missing cs t).
Proof.
  unfold create_missing. generalize (map fst cs). intros ks. revert t.
  induction ks as [|k ks IH]; intros t Hok; simpl; [done|].
  apply IH. unfold add_default. destruct (negb (tbl_in k t)); [|done].
  apply table_ok_set; [done | apply neighbor_ok_default].
Qed.

Section UpdateCosts.
Variables (me localhost : string) (timeout : Q).

(** A cost update from a sender that is not a neighbour: its entry is
    dropped and a fresh neighbour entry is put last. *)
Lemma update_costs_promote host port kw w cs d :
  table_ok (nodes w) →
  kw_costs kw = Some cs → kw_neighbor kw = Some (Some d) →
  (∀ n, tbl_get (addr2key host port) (nodes w) = Some n → is_neighbor n = false) →
  table_ok (tbl_del (addr2key host port) (create_missing cs (nodes w))
            ++ [(addr2key host port,
                 create_node timeout Inf true (Some d) (Some cs) (addr2key host port))]) ∧
  update_costs me timeout host port kw w
  = run_estimate_costs me
      {| nodes := tbl_del (addr2key host port) (create_missing cs (nodes w))
                  ++ [(addr2key host port,
                       create_node timeout Inf true (Some d) (Some cs)
                         (addr2key host port))];
         stdout := stdout w ++ [MakingNewNeighbor (addr2key host port)] |}.
Proof.
  set (addr := addr2key host port). intros Hok Hcs Hnb Hnot.
  set (t1 := create_missing cs (nodes w)).
  assert (Hok1 : table_ok t1) by (by apply create_missing_ok).
  assert (Hdel : tbl_get addr (tbl_del addr t1) = None).
  { apply tbl_get_del. apply Hok1. }
  set (new := create_node timeout Inf true (Some d) (Some cs) addr).
  assert (Hnew : tbl_set addr new (tbl_del addr t1 ++ [(addr, default_node)])
                 = tbl_del addr t1 ++ [(addr, new)]).
  { by apply tbl_set_app_last. }
  split.
  { rewrite <- Hnew. apply table_ok_set.
    - rewrite <- (tbl_set_notin _ _ _ Hdel). apply table_ok_set.
      + by apply table_ok_del.
      + apply neighbor_ok_default.
    - intros _. simpl. eauto. }
  unfold update_costs. rewrite Hcs, Hnb. simpl. fold addr t1.
  assert (Hsender : ∃ sender t2, dd_getitem addr t1 = (sender, t2) ∧
            is_neighbor sender = false ∧ tbl_del addr t2 = tbl_del addr t1).
  { unfold dd_getitem. destruct (tbl_get addr t1) as [n|] eqn:E.
    - exists n, t1. split; [done|]. split; [|done].
      destruct (tbl_get addr (nodes w)) as [n0|] eqn:E0.
      + pose proof (create_missing_known cs _ _ _ E0) as E1. fold t1 in E1.
        rewrite E in E1. injection E1 as ->. by apply Hnot.
      + destruct (decide (addr ∈ cs.*1)) as [Hin|Hin].
        * pose proof (create_missing_new cs _ _ E0 Hin) as E1. fold t1 in E1.
          rewrite E in E1. by injection E1 as ->.
        * pose proof (create_missing_other cs _ _ E0 Hin) as E1. fold t1 in E1.
          congruence.
    - eexists _, _. split; [done|]. split; [done|].
      rewrite tbl_del_app_last by done. by rewrite tbl_del_notin. }
  destruct Hsender as (sender & t2 & -> & -> & ->). simpl.
  rewrite (dd_getitem_unknown _ _ Hdel). rewrite <- Hnew. reflexivity.
Qed.

(** A cost update from a neighbour: its vector is replaced and its monitor
    reset, in place. *)
Lemma update_costs_refresh host port kw w cs n m :
  kw_costs kw = Some cs →
  tbl_get (addr2key host port) (nodes w) = Some n →
  is_neighbor n = true → silence_monitor n = Some m →
  update_costs me timeout host port kw w
  = run_estimate_costs me
      {| nodes := tbl_set (addr2key host port)
                    (set_silence_monitor (Some (reset m)) (set_costs (Some cs) n))
                    (create_missing cs (nodes w));
         stdout := stdout w |}.
Proof.
  set (addr := addr2key host port). intros Hcs Hget Hn Hm.
  unfold update_costs. rewrite Hcs. simpl. fold addr.
  rewrite (dd_getitem_known _ _ _ (create_missing_known cs _ _ _ Hget)).
  rewrite Hn. simpl. rewrite Hm. done.
Qed.
End UpdateCosts.

Lemma tbl_in_keys {V} k (t : list (string * V)) : k ∈ t.*1 ↔ is_Some (tbl_get k t).
Proof.
  destruct (tbl_get k t) eqn:E.
  - split; [by eauto|]. intros _. apply tbl_get_Some_elem in E.
    apply list_elem_of_fmap. by exists (k, v).
  - apply tbl_get_None in E. split; [done|]. by intros [? ?].
Qed.

Section UpdateCostsShape.
Variables (me localhost : string) (timeout : Q).

Lemma run_estimate_costs_eq t log out :
  estimate_costs me t = Ok out →
  run_estimate_costs me {| nodes := t; stdout := log |}
  = Ok {| nodes := out; stdout := log |}.
Proof. intros H. unfold run_estimate_costs. simpl. by rewrite H. Qed.

(** The two ways a well-formed cost update goes: the table handed to the
    recomputation is the table with the missing destinations added and the
    sender's entry replaced by [ns]. *)
Lemma update_costs_shape host port kw w cs d :
  table_ok (nodes w) →
  kw_costs kw = Some cs → kw_neighbor kw = Some (Some d) →
  ∃ t ns out log,
    update_costs me timeout host port kw w = Ok {| nodes := out; stdout := log |} ∧
    table_ok t ∧ estimate_costs me t = Ok out ∧
    (∀ k, tbl_get k t =
          if String.eqb k (addr2key host port) then Some ns
          else tbl_get k (create_missing cs (nodes w))) ∧
    (((∀ n, tbl_get (addr2key host port) (nodes w) = Some n → is_neighbor n = false) ∧
      ns = create_node timeout Inf true (Some d) (Some cs) (addr2key host port) ∧
      log = stdout w ++ [MakingNewNeighbor (addr2key host port)])
     ∨ (∃ n m, tbl_get (addr2key host port) (nodes w) = Some n ∧
               is_neighbor n = true ∧ silence_monitor n = Some m ∧
               ns = set_silence_monitor (Some (reset m)) (set_costs (Some cs) n) ∧
               log = stdout w)).
Proof.
  set (addr := addr2key host port). intros Hok Hcs Hnb.
  destruct (tbl_get addr (nodes w)) as [n|] eqn:Hget;
    [destruct (is_neighbor n) eqn:Hn|].
  - (* the sender is a neighbour *)
    destruct (table_ok_neighbor _ _ _ Hok Hget (or_introl Hn)) as ([dir Hdir] & _ & [m Hm]).
    set (ns := set_silence_monitor (Some (reset m)) (set_costs (Some cs) n)).
    assert (Hokt : table_ok (tbl_set addr ns (create_missing cs (nodes w)))).
    { apply table_ok_set; [by apply create_missing_ok|].
      intros _. subst ns. simpl. rewrite Hdir. eauto. }
    destruct (estimate_costs_total me _ Hokt) as [out Hout].
    exists (tbl_set addr ns (create_missing cs (nodes w))), ns, out, (stdout w).
    split. { rewrite (update_costs_refresh me timeout host port kw w cs n m); try done.
             exact (run_estimate_costs_eq _ _ _ Hout). }
    split; [done|]. split; [done|]. split; [intros k; apply tbl_get_set|].
    right. by exists n, m.
  - (* the sender is known but not a neighbour *)
    assert (Hnot : ∀ n0, tbl_get addr (nodes w) = Some n0 → is_neighbor n0 = false).
    { intros n0 Hn0. congruence. }
    destruct (update_costs_promote me timeout host port kw w cs d Hok Hcs Hnb Hnot)
      as [Hokt Hrun].
    fold addr in Hokt, Hrun.
    destruct (estimate_costs_total me _ Hokt) as [out Hout].
    eexists _, _, out, _. split.
    { rewrite Hrun. exact (run_estimate_costs_eq _ _ _ Hout). }
    split; [exact Hokt|]. split; [exact Hout|]. split.
    { intros k. rewrite tbl_get_app.
      destruct (String.eqb_spec k addr) as [->|Hne].
      - rewrite tbl_get_del by (apply create_missing_ok, Hok; done || apply Hok).
        simpl. by rewrite String.eqb_refl.
      - rewrite tbl_get_del_ne by done. simpl.
        destruct (String.eqb_spec k addr); [done|].
        by destruct (tbl_get k (create_missing cs (nodes w))). }
    left. split; [intros n0 H0; congruence|]. split; reflexivity.
  - (* the sender is unknown *)
    assert (Hnot : ∀ n0, tbl_get addr (nodes w) = Some n0 → is_neighbor n0 = false).
    { intros n0 Hn0. congruence. }
    destruct (update_costs_promote me timeout host port kw w cs d Hok Hcs Hnb Hnot)
      as [Hokt Hrun].
    fold addr in Hokt, Hrun.
    destruct (estimate_costs_total me _ Hokt) as [out Hout].
    eexists _, _, out, _. split.
    { rewrite Hrun. exact (run_estimate_costs_eq _ _ _ Hout). }
    split; [exact Hokt|]. split; [exact Hout|]. split.
    { intros k. rewrite tbl_get_app.
      destruct (String.eqb_spec k addr) as [->|Hne].
      - rewrite tbl_get_del by (apply create_missing_ok, Hok; done || apply Hok).
        simpl. by rewrite String.eqb_refl.
      - rewrite tbl_get_del_ne by done. simpl.
        destruct (String.eqb_spec k addr); [done|].
        by destruct (tbl_get k (create_missing cs (nodes w))). }
    left. split; [intros n0 H0; congruence|]. split; reflexivity.
Qed.
End UpdateCostsShape.

Section CostUpdate.
Variables (me localhost : string) (timeout : Q).

(** C6. A cost update carrying a vector [cs] and a direct cost [d], applied
    to a well-formed table, returns; the table it leaves is the result of a
    recomputation (on a table [t] in which the sender already holds the
    vector); it has an entry for the sender, for every destination named in
    [cs] and for every key known before, and for no other key; entries
    other than the sender's keep all their link fields, the new ones being
    default nodes; a sender that was not a neighbour is a neighbour now,
    with the direct cost [d], the vector [cs] and a monitor just started;
    a sender that was a neighbour keeps its direct cost, holds the vector
    [cs] and has its monitor reset. *)
Theorem update_costs_applies host port kw w cs d :
  table_ok (nodes w) →
  kw_costs kw = Some cs → kw_neighbor kw = Some (Some d) →
  ∃ w' t ns,
    update_costs me timeout host port kw w = Ok w' ∧
    estimate_costs me t = Ok (nodes w') ∧
    tbl_get (addr2key host port) t = Some ns ∧
    is_neighbor ns = true ∧ costs ns = Some cs ∧
    (∀ k, k ∈ (nodes w').*1 ↔
          k = addr2key host port ∨ k ∈ cs.*1 ∨ k ∈ (nodes w).*1) ∧
    (∀ k n, k ≠ addr2key host port → tbl_get k (nodes w) = Some n →
            ∃ n', tbl_get k (nodes w') = Some n' ∧ same_links (k, n) (k, n')) ∧
    (∀ k, k ≠ addr2key host port → tbl_get k (nodes w) = None → k ∈ cs.*1 →
          ∃ n', tbl_get k (nodes w') = Some n' ∧ same_links (k, default_node) (k, n')) ∧
    ((∀ n, tbl_get (addr2key host port) (nodes w) = Some n → is_neighbor n = false) →
     ∃ n', tbl_get (addr2key host port) (nodes w') = Some n' ∧
           is_neighbor n' = true ∧ direct n' = Some d ∧ costs n' = Some cs ∧
           silence_monitor n'
           = Some (start (ResettableTimer_init (3 * timeout) (addr2key host port))) ∧
           countdown <$> silence_monitor n' = Some Started) ∧
    (∀ n, tbl_get (addr2key host port) (nodes w) = Some n → is_neighbor n = true →
          ∃ n' m, silence_monitor n = Some m ∧
                  tbl_get (addr2key host port) (nodes w') = Some n' ∧
                  is_neighbor n' = true ∧ direct n' = direct n ∧
                  costs n' = Some cs ∧
                  silence_monitor n' = Some (reset m) ∧
                  countdown <$> silence_monitor n' = Some Started).
Proof.
  set (addr := addr2key host port). intros Hok Hcs Hnb.
  destruct (update_costs_shape me timeout host port kw w cs d Hok Hcs Hnb)
    as (t & ns & out & log & Hrun & Hokt & Hout & Hlook & Hcase).
  fold addr in Hrun, Hlook, Hcase.
  pose proof (estimate_costs_same_links _ _ _ Hout) as Hsame.
  assert (Hns : tbl_get addr t = Some ns).
  { rewrite Hlook. by rewrite String.eqb_refl. }
  destruct (same_links_get _ _ _ _ Hsame Hns) as (ns' & Hns' & _ & Hn' & Hd' & Hc' & Hs' & Hm').
  simpl in Hn', Hd', Hc', Hs', Hm'.
  assert (Hother : ∀ k, k ≠ addr →
            tbl_get k t = tbl_get k (create_missing cs (nodes w))).
  { intros k Hk. rewrite Hlook. by destruct (String.eqb_spec k addr). }
  assert (Hnsc : is_neighbor ns = true ∧ costs ns = Some cs).
  { destruct Hcase as [(_ & -> & _)|(n & m & _ & Hn & _ & -> & _)];
      [split; reflexivity | split; [exact Hn | reflexivity]]. }
  exists {| nodes := out; stdout := log |}, t, ns. simpl.
  split; [exact Hrun|]. split; [exact Hout|]. split; [exact Hns|].
  split; [apply Hnsc|]. split; [apply Hnsc|]. split; [|split; [|split; [|split]]].
  - intros k. rewrite (same_links_keys _ _ Hsame).
    rewrite (tbl_in_keys k t), (tbl_in_keys k (nodes w)).
    destruct (String.eqb_spec k addr) as [->|Hne].
    { rewrite Hns. split; [by left | by eauto]. }
    rewrite (Hother k Hne).
    destruct (tbl_get k (nodes w)) as [n|] eqn:E.
    + rewrite (create_missing_known cs _ _ _ E). split; [intros _; right; right|]; eauto.
    + destruct (decide (k ∈ cs.*1)) as [Hin|Hin].
      * rewrite (create_missing_new cs _ _ E Hin).
        split; [intros _; right; by left | by eauto].
      * rewrite (create_missing_other cs _ _ E Hin).
        split; [by intros [? ?]|]. intros [?|[?|[? ?]]]; done.
  - intros k n Hk Hget. eapply same_links_get; [exact Hsame|].
    rewrite (Hother k Hk). by apply create_missing_known.
  - intros k Hk Hget Hin. eapply same_links_get; [exact Hsame|].
    rewrite (Hother k Hk). by apply create_missing_new.
  - intros Hnot. exists ns'. split; [exact Hns'|].
    destruct Hcase as [(_ & -> & _)|(n & m & Hget & Hn & _)].
    + rewrite Hn', Hd', Hc', Hm'. simpl. done.
    + rewrite (Hnot n Hget) in Hn. discriminate Hn.
  - intros n Hget Hn.
    destruct Hcase as [(Hnot & _)|(n0 & m & Hget0 & _ & Hm & -> & _)].
    + rewrite (Hnot n Hget) in Hn. discriminate Hn.
    + rewrite Hget in Hget0. injection Hget0 as <-.
      exists ns', m. split; [exact Hm|]. split; [exact Hns'|].
      rewrite Hn', Hd', Hc', Hm'. simpl. done.
Qed.

(** C10. When a link that was taken down (its node holds a saved cost and is
    no neighbour) receives a cost update, the node becomes a neighbour again
    with the direct cost the sender claims, the saved cost is gone, and a
    later link-up on that address only reports that the node was no
    previous neighbour, changing nothing. *)
Theorem update_costs_discards_saved host port kw kw' w n s cs d :
  table_ok (nodes w) →
  get_host localhost host = host →
  tbl_get (addr2key host port) (nodes w) = Some n →
  is_neighbor n = false → saved n = Some s →
  kw_costs kw = Some cs → kw_neighbor kw = Some (Some d) →
  ∃ w1 n1,
    update_costs me timeout host port kw w = Ok w1 ∧
    tbl_get (addr2key host port) (nodes w1) = Some n1 ∧
    is_neighbor n1 = true ∧ direct n1 = Some d ∧ saved n1 = None ∧
    linkup me localhost host port kw' w1
    = Ok {| nodes := nodes w1;
            stdout := stdout w1 ++ [NotPreviousNeighbor (addr2key host port)] |}.
Proof.
  set (addr := addr2key host port). intros Hok Hhost Hget Hn Hs Hcs Hnb.
  destruct (update_costs_shape me timeout host port kw w cs d Hok Hcs Hnb)
    as (t & ns & out & log & Hrun & Hokt & Hout & Hlook & Hcase).
  fold addr in Hrun, Hlook, Hcase.
  destruct Hcase as [(_ & -> & _)|(n0 & m & Hget0 & Hn0 & _)]; [|congruence].
  pose proof (estimate_costs_same_links _ _ _ Hout) as Hsame.
  destruct (same_links_get _ _ addr
              (create_node timeout Inf true (Some d) (Some cs) addr) Hsame)
    as (n1 & Hn1 & _ & Hnb1 & Hd1 & _ & Hs1 & _).
  { rewrite Hlook. by rewrite String.eqb_refl. }
  simpl in Hnb1, Hd1, Hs1.
  exists {| nodes := out; stdout := log |}, n1. simpl.
  split; [exact Hrun|]. split; [exact Hn1|]. do 3 (split; [done|]).
  unfold linkup. rewrite get_node_known with (n := n1).
  - rewrite Hhost. fold addr. by rewrite Hs1.
  - rewrite Hhost. exact Hn1.
Qed.
End CostUpdate.

(** C6 at the sample table: [addrC], a neighbour, advertises a new destination. *)
Lemma update_costs_applies_witness :
  ∃ w' t ns,
    update_costs addrA 1 "10.0.0.1" 20002 sample_update sample_world = Ok w' ∧
    estimate_costs addrA t = Ok (nodes w') ∧
    tbl_get (addr2key "10.0.0.1" 20002) t = Some ns ∧
    is_neighbor ns = true ∧
    costs ns = Some [(addrC, Fin 0); (addrA, Fin 2); (addrD, Fin 1); ("10.0.0.1:20004", Fin 3)] ∧
    (∀ k, k ∈ (nodes w').*1 ↔
          k = addr2key "10.0.0.1" 20002 ∨
          k ∈ [(addrC, Fin 0); (addrA, Fin 2); (addrD, Fin 1); ("10.0.0.1:20004", Fin 3)].*1 ∨
          k ∈ (nodes sample_world).*1) ∧
    (∀ k n, k ≠ addr2key "10.0.0.1" 20002 → tbl_get k (nodes sample_world) = Some n →
            ∃ n', tbl_get k (nodes w') = Some n' ∧ same_links (k, n) (k, n')) ∧
    (∀ k, k ≠ addr2key "10.0.0.1" 20002 → tbl_get k (nodes sample_world) = None →
          k ∈ [(addrC, Fin 0); (addrA, Fin 2); (addrD, Fin 1); ("10.0.0.1:20004", Fin 3)].*1 →
          ∃ n', tbl_get k (nodes w') = Some n' ∧ same_links (k, default_node) (k, n')) ∧
    ((∀ n, tbl_get (addr2key "10.0.0.1" 20002) (nodes sample_world) = Some n →
           is_neighbor n = false) →
     ∃ n', tbl_get (addr2key "10.0.0.1" 20002) (nodes w') = Some n' ∧
           is_neighbor n' = true ∧ direct n' = Some (Fin 2) ∧
           costs n' = Some [(addrC, Fin 0); (addrA, Fin 2); (addrD, Fin 1); ("10.0.0.1:20004", Fin 3)] ∧
           silence_monitor n'
           = Some (start (ResettableTimer_init (3 * 1) (addr2key "10.0.0.1" 20002))) ∧
           countdown <$> silence_monitor n' = Some Started) ∧
    (∀ n, tbl_get (addr2key "10.0.0.1" 20002) (nodes sample_world) = Some n →
          is_neighbor n = true →
          ∃ n' m, silence_monitor n = Some m ∧
                  tbl_get (addr2key "10.0.0.1" 20002) (nodes w') = Some n' ∧
                  is_neighbor n' = true ∧ direct n' = direct n ∧
                  costs n' = Some [(addrC, Fin 0); (addrA, Fin 2); (addrD, Fin 1); ("10.0.0.1:20004", Fin 3)] ∧
                  silence_monitor n' = Some (reset m) ∧
                  countdown <$> silence_monitor n' = Some Started).
Proof.
  apply (update_costs_applies addrA 1 "10.0.0.1" 20002 sample_update sample_world).
  - apply (bool_decide_unpack _). vm_compute. reflexivity.
  - reflexivity.
  - reflexivity.
Defined.

(** C10 at the sample node whose link to [addrC] is down. *)
Lemma update_costs_discards_saved_witness :
  ∃ w1 n1,
    update_costs addrA 1 "10.0.0.1" 20002 sample_update down_world = Ok w1 ∧
    tbl_get (addr2key "10.0.0.1" 20002) (nodes w1) = Some n1 ∧
    is_neighbor n1 = true ∧ direct n1 = Some (Fin 2) ∧ saved n1 = None ∧
    linkup addrA "10.0.0.1" "10.0.0.1" 20002 no_kwargs w1
    = Ok {| nodes := nodes w1;
            stdout := stdout w1 ++ [NotPreviousNeighbor (addr2key "10.0.0.1" 20002)] |}.
Proof.
  eapply (update_costs_discards_saved addrA "10.0.0.1" 1 "10.0.0.1" 20002 sample_update
            no_kwargs down_world _ (Fin 2)).
  - apply (bool_decide_unpack _). vm_compute. reflexivity.
  - reflexivity.
  - vm_compute. reflexivity.
  - reflexivity.
  - reflexivity.
  - reflexivity.
  - reflexivity.
Defined.

(** ** The receive loop *)

Section Receive.
Variables (me localhost : string) (timeout : Q).

End Receive.



(** ** The recomputation, a link round trip and a cost update at concrete inputs *)

(** C3 on [ceiling_table]: the only offer for [addrD] is [16]; the recomputation
    stores [+inf] for [addrD] and leaves [addrB] as its route. *)
Lemma estimate_costs_unreachable_keeps_route :
  ∃ nodes' nd,
    estimate_costs addrA ceiling_table = Ok nodes' ∧
    tbl_get addrD nodes' = Some nd ∧
    cost nd = Inf ∧ route nd = addrB ∧ route nd ≠ "".
Proof.
  eexists _, _. split; [vm_compute; reflexivity|].
  split; [reflexivity|]. split; [reflexivity|]. split; [reflexivity|].
  intros H. discriminate H.
Qed.

(** C5 on the sample node: after the link to [addrB] is taken down and brought
    up, the direct cost is back, the saved cost is gone and [addrB] is a neighbour
    again, but its monitor is the cancelled one. *)
Lemma linkdown_linkup_monitor_cancelled :
  ∃ w1 w2 n0 n2,
    tbl_get addrB (nodes sample_world) = Some n0 ∧
    is_neighbor n0 = true ∧ direct n0 = Some (Fin 1) ∧
    linkdown addrA "10.0.0.1" "10.0.0.1" 20001 no_kwargs sample_world = Ok w1 ∧
    linkup addrA "10.0.0.1" "10.0.0.1" 20001 no_kwargs w1 = Ok w2 ∧
    tbl_get addrB (nodes w2) = Some n2 ∧
    direct n2 = Some (Fin 1) ∧ saved n2 = None ∧ is_neighbor n2 = true ∧
    countdown <$> silence_monitor n2 = Some Cancelled.
Proof.
  eexists _, _, _, _. split; [reflexivity|]. split; [reflexivity|].
  split; [reflexivity|]. split; [vm_compute; reflexivity|].
  split; [vm_compute; reflexivity|]. split; [reflexivity|].
  repeat split; reflexivity.
Qed.

(** C9 on the node as it starts: a cost update whose sender is the node's own
    address deletes the node's entry and puts a neighbour entry in its place,
    with cost [+inf] and the node itself as route; [get_neighbors] then
    lists the node itself. *)
Lemma update_costs_from_self :
  ∃ n0 w1 n1,
    tbl_get addrA (nodes startup_world) = Some n0 ∧
    cost n0 = Fin 0 ∧ route n0 = "" ∧ is_neighbor n0 = false ∧
    addr2key "10.0.0.1" 20000 = addrA ∧
    update_costs addrA 1 "10.0.0.1" 20000
      {| kw_costs := Some [(addrA, Fin 0); (addrB, Fin 1); (addrC, Fin 2)];
         kw_neighbor := Some (Some (Fin 1));
         kw_direct := None |} startup_world = Ok w1 ∧
    tbl_get addrA (nodes w1) = Some n1 ∧
    cost n1 = Inf ∧ route n1 = addrA ∧ is_neighbor n1 = true ∧
    (addrA, n1) ∈ get_neighbors (nodes w1).
Proof.
  eexists _, _, _. split; [reflexivity|]. do 4 (split; [reflexivity|]).
  split; [vm_compute; reflexivity|]. split; [reflexivity|].
  do 3 (split; [reflexivity|]).
  apply list_elem_of_filter. split; [reflexivity|].
  apply tbl_get_Some_elem. reflexivity.
Qed.

(** ** Reachable states *)

Lemma dd_getitem_other k k' (t : table) :
  k' ≠ k → tbl_get k' (dd_getitem k t).2 = tbl_get k' t.
Proof.
  intros Hne. rewrite dd_getitem_set. destruct (tbl_get k t); simpl; [done|].
  rewrite tbl_get_set. by destruct (String.eqb_spec k' k).
Qed.

Lemma dd_getitem_neighbor k (t : table) :
  is_neighbor (dd_getitem k t).1 = true →
  tbl_get k t = Some (dd_getitem k t).1 ∧ (dd_getitem k t).2 = t.
Proof. unfold dd_getitem. destruct (tbl_get k t); simpl; [done|discriminate]. Qed.

Section Invariants.
Variables (me localhost : string) (timeout : Q).

Lemma estimate_costs_me t out :
  estimate_costs me t = Ok out → tbl_get me out = tbl_get me t.
Proof.
  intros HF%estimate_costs_Ok. revert HF. generalize (get_neighbors t). intros N HF.
  induction HF as [|[k n] [k' n'] l l' He _ IH]; [done|].
  simpl. unfold relaxed in He. simpl in He.
  destruct (String.eqb_spec k me) as [->|Hne]; simpl in He.
  - injection He as <- <-. by rewrite String.eqb_refl.
  - destruct (scan_neighbors _ _ _ _); simpl in He; [|done]. injection He as <- <-.
    by destruct (String.eqb_spec me k).
Qed.

Lemma run_estimate_costs_inv w w' :
  run_estimate_costs me w = Ok w' →
  estimate_costs me (nodes w) = Ok (nodes w') ∧ stdout w' = stdout w.
Proof.
  unfold run_estimate_costs. destruct (estimate_costs me (nodes w)); simpl; [|done].
  by intros [= <-].
Qed.

Lemma startup_ok neighbors : table_ok (startup me timeout neighbors).
Proof.
  unfold startup. apply table_ok_set.
  - assert (H : ∀ t, table_ok t →
      table_ok (fold_left
        (fun t nc => tbl_set nc.1 (create_node timeout nc.2 true (Some nc.2) None nc.1) t)
        neighbors t)).
    { induction neighbors as [|nc l IH]; intros t Ht; simpl; [done|].
      apply IH. apply table_ok_set; [done|]. intros _. simpl. eauto. }
    apply H. split; [apply NoDup_nil_2 | constructor].
  - intros [H|[? H]]; discriminate H.
Qed.

Lemma startup_self neighbors : self_ok me (startup me timeout neighbors).
Proof.
  unfold startup, self_ok. eexists. split.
  - rewrite tbl_get_set. by rewrite String.eqb_refl.
  - done.
Qed.

(** What a link operation that returns has done to the table. *)
Lemma run_link_cases op host port kw w w' :
  run_link me localhost op host port kw w = Ok w' →
  nodes w' = nodes w ∨
  (tbl_get (addr2key (get_host localhost host) port) (nodes w) = None ∧
   nodes w' = nodes w ++ [(addr2key (get_host localhost host) port, default_node)]) ∨
  (∃ n n1,
     tbl_get (addr2key (get_host localhost host) port) (nodes w) = Some n ∧
     (is_neighbor n = true ∨ is_Some (saved n)) ∧
     (neighbor_ok n → neighbor_ok n1) ∧
     estimate_costs me (tbl_set (addr2key (get_host localhost host) port) n1 (nodes w))
     = Ok (nodes w')).
Proof.
  set (addr := addr2key (get_host localhost host) port).
  destruct (tbl_get addr (nodes w)) as [n|] eqn:Hget.
  - intros Hrun. destruct op; simpl in Hrun.
    + unfold linkdown in Hrun. rewrite (get_node_known _ _ _ _ _ Hget) in Hrun.
      fold addr in Hrun. destruct (is_neighbor n) eqn:Hn; simpl in Hrun.
      * destruct (direct n) as [c|] eqn:Hd; simpl in Hrun; [|done].
        destruct (silence_monitor n) as [m|] eqn:Hm; simpl in Hrun; [|done].
        apply run_estimate_costs_inv in Hrun as [Hrun _]. simpl in Hrun.
        right. right. eexists n, _. split; [done|]. split; [by left|].
        split; [|exact Hrun]. intros Hok _. simpl.
        destruct (Hok (or_introl Hn)) as (_ & Hc & _). eauto.
      * injection Hrun as <-. by left.
    + unfold linkup in Hrun. rewrite (get_node_known _ _ _ _ _ Hget) in Hrun.
      fold addr in Hrun. destruct (saved n) as [s|] eqn:Hs.
      * apply run_estimate_costs_inv in Hrun as [Hrun _]. simpl in Hrun.
        right. right. eexists n, _. split; [done|]. split; [right; by eauto|].
        split; [|exact Hrun]. intros Hok _. simpl.
        destruct (Hok (or_intror (ex_intro _ s Hs))) as (_ & Hc & Hm). eauto.
      * injection Hrun as <-. by left.
    + unfold linkchange in Hrun. rewrite (get_node_known _ _ _ _ _ Hget) in Hrun.
      fold addr in Hrun. destruct (is_neighbor n) eqn:Hn; simpl in Hrun.
      * destruct (kw_direct kw) as [d|]; simpl in Hrun; [|done].
        destruct (num_ltb d (Fin 1)); [injection Hrun as <-; by left|].
        destruct (saved n) eqn:Hs; [injection Hrun as <-; by left|].
        apply run_estimate_costs_inv in Hrun as [Hrun _]. simpl in Hrun.
        right. right. eexists n, _. split; [done|]. split; [by left|].
        split; [|exact Hrun]. intros Hok _. simpl.
        destruct (Hok (or_introl Hn)) as (_ & Hc & Hm). eauto.
      * injection Hrun as <-. by left.
  - intros Hrun. right. left. split; [done|].
    destruct op; simpl in Hrun; unfold linkdown, linkup, linkchange in Hrun;
      rewrite (get_node_unknown _ _ _ _ Hget) in Hrun; by injection Hrun as <-.
Qed.

(** What a cost update that returns has done to the table. *)
Lemma update_costs_inv host port kw w w' :
  table_ok (nodes w) →
  update_costs me timeout host port kw w = Ok w' →
  ∃ cs t ns,
    kw_costs kw = Some cs ∧ table_ok t ∧ estimate_costs me t = Ok (nodes w') ∧
    ∀ k, tbl_get k t =
         if String.eqb k (addr2key host port) then Some ns
         else tbl_get k (create_missing cs (nodes w)).
Proof.
  set (addr := addr2key host port). intros Hok Hrun. unfold update_costs in Hrun.
  destruct (kw_costs kw) as [cs|]; simpl in Hrun; [|done]. fold addr in Hrun.
  pose proof (create_missing_ok cs _ Hok) as Hok1.
  set (t1 := create_missing cs (nodes w)) in *.
  pose proof (dd_getitem_neighbor addr t1) as Hnb.
  pose proof (table_ok_dd addr t1 Hok1) as Hok2.
  pose proof (dd_getitem_other addr) as Hoth2. specialize (fun k H => Hoth2 k t1 H).
  destruct (dd_getitem addr t1) as [sender t2]. simpl in Hnb, Hok2, Hoth2.
  exists cs. destruct (is_neighbor sender) eqn:Hs; simpl in Hrun.
  - destruct (Hnb eq_refl) as [Hget ->].
    destruct (silence_monitor sender) as [m|] eqn:Hm; simpl in Hrun; [|done].
    apply run_estimate_costs_inv in Hrun as [Hrun _]. simpl in Hrun.
    eexists _, _. split; [done|]. split; [|split; [exact Hrun|]].
    + apply table_ok_set; [done|]. intros _. simpl.
      destruct (table_ok_neighbor _ _ _ Hok1 Hget (or_introl Hs)) as (? & _ & _). eauto.
    + intros k. apply tbl_get_set.
  - pose proof (table_ok_dd addr _ (table_ok_del addr _ Hok2)) as Hok4.
    pose proof (dd_getitem_other addr) as Hoth4.
    specialize (fun k H => Hoth4 k (tbl_del addr t2) H).
    destruct (dd_getitem addr (tbl_del addr t2)) as [fresh t4]. simpl in Hok4, Hoth4.
    destruct (kw_neighbor kw) as [[d|]|]; simpl in Hrun; [|done|done].
    apply run_estimate_costs_inv in Hrun as [Hrun _]. simpl in Hrun.
    eexists _, _. split; [done|]. split; [|split; [exact Hrun|]].
    + apply table_ok_set; [done|]. intros _. simpl. eauto.
    + intros k. rewrite tbl_get_set. destruct (String.eqb_spec k addr) as [->|Hne]; [done|].
      rewrite Hoth4 by done. rewrite tbl_get_del_ne by done. by apply Hoth2.
Qed.

(** Every operation that returns leaves a well-formed table. *)
Lemma apply_operation_ok o w w' :
  table_ok (nodes w) →
  apply_operation me localhost timeout o w = Ok w' → table_ok (nodes w').
Proof.
  intros Hok Hrun. destruct o as [host port kw|op host port kw| |]; simpl in Hrun.
  - destruct (update_costs_inv _ _ _ _ _ Hok Hrun) as (cs & t & ns & _ & Hokt & Hest & _).
    eapply same_links_ok; [|exact Hokt]. by eapply estimate_costs_same_links.
  - destruct (run_link_cases _ _ _ _ _ _ Hrun)
      as [->|[[Hget ->]|(n & n1 & Hget & _ & Hn1 & Hest)]]; [done| |].
    + rewrite <- (tbl_set_notin _ _ _ Hget). apply table_ok_set; [done|].
      apply neighbor_ok_default.
    + eapply same_links_ok; [by eapply estimate_costs_same_links|].
      apply table_ok_set; [done|]. apply Hn1. by eapply table_ok_neighbor.
  - apply run_estimate_costs_inv in Hrun as [Hrun _].
    eapply same_links_ok; [|exact Hok]. by eapply estimate_costs_same_links.
  - unfold broadcast_costs in Hrun. rewrite broadcast_loop_spec in Hrun.
    + simpl in Hrun. by injection Hrun as <-.
    + apply Hok.
    + eapply Forall_impl; [exact (neighbors_complete _ Hok)|]. by intros e [? _].
Qed.

(** Every operation that returns, other than a cost update from the node's
    own address, leaves the node's own entry as it was created. *)
Lemma apply_operation_self o w w' :
  table_ok (nodes w) → self_ok me (nodes w) → ¬ from_self me o →
  apply_operation me localhost timeout o w = Ok w' → self_ok me (nodes w').
Proof.
  intros Hok (n & Hme & Hself) Hnot Hrun. exists n. split; [|exact Hself].
  destruct o as [host port kw|op host port kw| |]; simpl in Hrun, Hnot.
  - destruct (update_costs_inv _ _ _ _ _ Hok Hrun) as (cs & t & ns & _ & _ & Hest & Hlook).
    rewrite (estimate_costs_me _ _ Hest), Hlook.
    destruct (String.eqb_spec me (addr2key host port)) as [Heq|_]; [by rewrite <- Heq in Hnot|].
    by apply create_missing_known.
  - destruct (run_link_cases _ _ _ _ _ _ Hrun)
      as [->|[[Hget ->]|(n0 & n1 & Hget & Hstate & _ & Hest)]]; [done| |].
    + rewrite tbl_get_app. by rewrite Hme.
    + rewrite (estimate_costs_me _ _ Hest), tbl_get_set.
      destruct (String.eqb_spec me (addr2key (get_host localhost host) port)) as [Heq|_]; [|done].
      exfalso. rewrite <- Heq, Hme in Hget. injection Hget as <-.
      destruct Hself as (_ & _ & Hn & Hs). rewrite Hn, Hs in Hstate.
      destruct Hstate as [?|[? ?]]; done.
  - apply run_estimate_costs_inv in Hrun as [Hrun _].
    by rewrite (estimate_costs_me _ _ Hrun).
  - unfold broadcast_costs in Hrun. rewrite broadcast_loop_spec in Hrun.
    + simpl in Hrun. by injection Hrun as <-.
    + apply Hok.
    + eapply Forall_impl; [exact (neighbors_complete _ Hok)|]. by intros e [? _].
Qed.

Lemma run_operations_invariant os w w' :
  table_ok (nodes w) → self_ok me (nodes w) →
  Forall (fun o => ¬ from_self me o) os →
  run_operations me localhost timeout os w = Ok w' →
  table_ok (nodes w') ∧ self_ok me (nodes w').
Proof.
  intros Hok Hself Hall. revert w Hok Hself.
  induction Hall as [|o os Ho _ IH]; intros w Hok Hself; simpl.
  - by intros [= <-].
  - destruct (apply_operation me localhost timeout o w) as [w1|] eqn:Hstep; simpl; [|done].
    apply IH.
    + exact (apply_operation_ok _ _ _ Hok Hstep).
    + exact (apply_operation_self _ _ _ Hok Hself Ho Hstep).
Qed.

(** The self entry in every reachable state: from the table the module
    starts with, any sequence of operations that contains no cost update
    from the node's own address, and that returns, leaves a well-formed
    table in which the node's own entry has cost [0], an empty route and is
    no neighbour. *)
Lemma run_operations_self os neighbors w' :
  Forall (fun o => ¬ from_self me o) os →
  run_operations me localhost timeout os
    {| nodes := startup me timeout neighbors; stdout := [] |} = Ok w' →
  table_ok (nodes w') ∧ self_ok me (nodes w').
Proof.
  apply run_operations_invariant; [apply startup_ok | apply startup_self].
Qed.
End Invariants.

Section SelfEntry.
Variables (me localhost : string) (timeout : Q).

(** X24.  From the table the module starts with, every sequence of
    cost updates, link operations, recomputations and broadcasts that
    contains no cost update sent from the node's own address, and that
    returns, leaves the node's own entry in the table with cost exactly
    [0], an empty route, and not a neighbour. *)
Theorem self_entry_invariant os neighbors w' :
  Forall (fun o => ¬ from_self me o) os →
  run_operations me localhost timeout os
    {| nodes := startup me timeout neighbors; stdout := [] |} = Ok w' →
  ∃ n, tbl_get me (nodes w') = Some n ∧
       cost n = Fin 0 ∧ route n = "" ∧ is_neighbor n = false.
Proof.
  intros Hall Hrun.
  destruct (run_operations_self me localhost timeout os neighbors w' Hall Hrun)
    as [_ (n & Hget & Hc & Hr & Hn & _)].
  by exists n.
Qed.
End SelfEntry.

(** X24 along [sample_run]. *)
Lemma self_entry_invariant_witness :
  ∃ w', run_operations addrA "10.0.0.1" 1 sample_run startup_world = Ok w' ∧
    ∃ n, tbl_get addrA (nodes w') = Some n ∧
         cost n = Fin 0 ∧ route n = "" ∧ is_neighbor n = false.
Proof.
  eexists. split; [vm_compute; reflexivity|].
  apply (self_entry_invariant addrA "10.0.0.1" 1 sample_run [(addrB, Fin 1); (addrC, Fin 2)]).
  - repeat constructor; simpl; try tauto; vm_compute; intros H; discriminate H.
  - vm_compute. reflexivity.
Defined.

(** ** More on the recomputation *)

Lemma Forall2_diag_r {A B} (P : A → B → Prop) (Q : B → B → Prop) l k :
  Forall2 P l k → (∀ x y, P x y → Q y y) → Forall2 Q k k.
Proof. induction 1; intros HPQ; constructor; eauto. Qed.

(** The next hop the inner loop returns is the one it started from or a
    scanned neighbour whose offer is finite. *)
Lemma scan_neighbors_nexthop d nbrs c0 h0 c h :
  scan_neighbors d nbrs c0 h0 = Ok (c, h) →
  h = h0 ∨ ∃ nb, (h, nb) ∈ nbrs ∧ num_lt (offer d nb) Inf.
Proof.
  revert c0 h0. induction nbrs as [|[k n] nbrs IH]; intros c0 h0; simpl.
  - intros [= _ <-]. by left.
  - assert (Hlift : ∀ c1 h1, scan_neighbors d nbrs c1 h1 = Ok (c, h) →
      (h1 = h0 ∨ (h1 = k ∧ num_lt (offer d n) Inf)) →
      h = h0 ∨ ∃ nb, (h, nb) ∈ (k, n) :: nbrs ∧ num_lt (offer d nb) Inf).
    { intros c1 h1 Hscan Hh1. destruct (IH _ _ Hscan) as [->|(nb & Hin & Hfin)].
      - destruct Hh1 as [?|[-> Hfin]]; [by left|]. right. exists n. split; [left|done].
      - right. exists nb. split; [by right|done]. }
    destruct (costs n) as [cs|] eqn:Hcs; simpl; [|done].
    destruct (tbl_get d cs) as [adv|] eqn:Hadv.
    + destruct (direct n) as [dir|] eqn:Hdir; simpl; [|done].
      assert (Hoff : offer d n = num_add dir adv).
      { unfold offer. by rewrite Hcs, Hdir, Hadv. }
      rewrite <- Hoff. destruct (num_ltb (offer d n) c0) eqn:Hlt.
      * intros Hscan. apply (Hlift _ _ Hscan). right. split; [done|].
        apply num_ltb_lt in Hlt. destruct (offer d n), c0; done.
      * intros Hscan. apply (Hlift _ _ Hscan). by left.
    + intros Hscan. apply (Hlift _ _ Hscan). by left.
Qed.

Section RecomputeMore.
Variable me : string.

(** X1. Recomputing twice is recomputing once: [estimate_costs] applied to
    its own result returns that result. *)
Theorem estimate_costs_idempotent nodes nodes' :
  estimate_costs me nodes = Ok nodes' →
  estimate_costs me nodes' = Ok nodes'.
Proof.
  intros Hout. pose proof (estimate_costs_same_links _ _ _ Hout) as Hsame.
  pose proof (same_links_view _ _ Hsame) as Hview.
  apply estimate_costs_Ok in Hout. apply estimate_costs_Ok.
  eapply Forall2_diag_r; [exact Hout|]. intros [k n] e' He.
  rewrite (relaxed_view me _ _ e' Hview). unfold relaxed in *. simpl in *.
  destruct (negb (String.eqb k me)) eqn:Hk.
  - destruct (scan_neighbors k (get_neighbors nodes) Inf "") as [[c h]|] eqn:Hscan;
      simpl in He; [|done].
    injection He as <-. simpl. rewrite Hk, Hscan. reflexivity.
  - injection He as <-. simpl. by rewrite Hk.
Qed.

(** X2. A recomputation only writes costs and routes: the table keeps its
    keys in their order, every node keeps its neighbour flag, direct cost,
    advertised vector, saved cost and monitor, and the entry of [me] is the
    one it was. *)
Theorem estimate_costs_frame nodes nodes' :
  estimate_costs me nodes = Ok nodes' →
  nodes'.*1 = nodes.*1 ∧
  Forall2 (fun e e' =>
             is_neighbor e'.2 = is_neighbor e.2 ∧ direct e'.2 = direct e.2 ∧
             costs e'.2 = costs e.2 ∧ saved e'.2 = saved e.2 ∧
             silence_monitor e'.2 = silence_monitor e.2) nodes nodes' ∧
  tbl_get me nodes' = tbl_get me nodes.
Proof.
  intros Hout. pose proof (estimate_costs_same_links _ _ _ Hout) as Hsame.
  split; [by apply same_links_keys|]. split; [|by apply estimate_costs_me].
  eapply Forall2_impl; [exact Hsame|]. by intros e e' (_ & ?).
Qed.

Lemma estimate_costs_route nodes nodes' d nd :
  estimate_costs me nodes = Ok nodes' →
  (d, nd) ∈ nodes' → d ≠ me →
  route nd = "" ∨
  ∃ nb, (route nd, nb) ∈ get_neighbors nodes' ∧ num_lt (offer d nb) Inf.
Proof.
  intros Hout Hin Hme.
  pose proof (same_links_neighbors _ _ (estimate_costs_same_links _ _ _ Hout)) as HN.
  destruct (estimate_costs_lookup _ _ _ _ _ Hout Hin Hme) as (nd0 & [c h] & _ & Hscan & ->).
  simpl. destruct (scan_neighbors_nexthop _ _ _ _ _ _ Hscan) as [->|(nb & Hnb & Hfin)];
    [by left|right].
  apply list_elem_of_lookup in Hnb as [i Hi].
  destruct (Forall2_lookup_l _ _ _ _ _ HN Hi) as ([k nb'] & Hi' & Hrel).
  pose proof Hrel as (Hk & _). simpl in Hk. subst k.
  exists nb'. split; [apply list_elem_of_lookup; eauto|].
  by rewrite (same_links_offer d _ _ Hrel : offer d nb' = offer d nb).
Qed.

Lemma unreachable_without_offer nodes nodes' d nd :
  estimate_costs me nodes = Ok nodes' →
  (d, nd) ∈ nodes' → d ≠ me →
  (∀ e, e ∈ get_neighbors nodes → offer d e.2 = Inf) →
  cost nd = Inf ∧ route nd = "".
Proof.
  intros Hout Hin Hme Hno.
  destruct (estimate_costs_lookup _ _ _ _ _ Hout Hin Hme) as (nd0 & [c h] & _ & Hscan & ->).
  simpl.
  destruct (scan_neighbors_nexthop _ _ _ _ _ _ Hscan) as [->|(nb & Hnb & Hfin)].
  - split; [|done]. destruct c as [q|]; [|done].
    destruct (scan_neighbors_spec _ _ _ _ _ _ Hscan capped_Inf) as (_ & _ & _ & Hq).
    destruct (Hq q eq_refl) as [(Habs & _)|(_ & l1 & nb & l2 & Hsplit & Hoff & _)]; [done|].
    assert (Hnb : ("", nb) ∈ get_neighbors nodes).
    { rewrite Hsplit. apply elem_of_app. right. left. }
    pose proof (Hno _ Hnb) as Hinf. simpl in Hinf. congruence.
  - pose proof (Hno _ Hnb) as Hinf. simpl in Hinf. rewrite Hinf in Hfin. done.
Qed.

(** X3. After a recomputation the route of every destination other than
    [me] is empty or is the key of a current neighbour whose offer for that
    destination is finite. *)
Theorem estimate_costs_route_is_neighbor nodes nodes' d nd :
  estimate_costs me nodes = Ok nodes' →
  (d, nd) ∈ nodes' → d ≠ me →
  route nd = "" ∨
  ∃ nb, (route nd, nb) ∈ get_neighbors nodes' ∧ num_lt (offer d nb) Inf.
Proof. apply estimate_costs_route. Qed.

(** X4. A destination other than [me] for which no neighbour has a finite
    offer is stored as unreachable: cost [+inf] and an empty route. *)
Theorem estimate_costs_no_offer nodes nodes' d nd :
  estimate_costs me nodes = Ok nodes' →
  (d, nd) ∈ nodes' → d ≠ me →
  (∀ e, e ∈ get_neighbors nodes → offer d e.2 = Inf) →
  cost nd = Inf ∧ route nd = "".
Proof. apply unreachable_without_offer. Qed.
End RecomputeMore.

(** X1 on the sample table. *)
Lemma estimate_costs_idempotent_witness :
  ∃ nodes', estimate_costs addrA tie_table = Ok nodes' ∧
            estimate_costs addrA nodes' = Ok nodes'.
Proof.
  eexists. split; [vm_compute; reflexivity|].
  apply (estimate_costs_idempotent addrA tie_table). vm_compute. reflexivity.
Defined.

(** X2 on the sample table. *)
Lemma estimate_costs_frame_witness :
  ∃ nodes', estimate_costs addrA tie_table = Ok nodes' ∧
    nodes'.*1 = tie_table.*1 ∧
    Forall2 (fun e e' =>
               is_neighbor e'.2 = is_neighbor e.2 ∧ direct e'.2 = direct e.2 ∧
               costs e'.2 = costs e.2 ∧ saved e'.2 = saved e.2 ∧
               silence_monitor e'.2 = silence_monitor e.2) tie_table nodes' ∧
    tbl_get addrA nodes' = tbl_get addrA tie_table.
Proof.
  eexists. split; [vm_compute; reflexivity|].
  apply (estimate_costs_frame addrA tie_table). vm_compute. reflexivity.
Defined.

(** X3 on the sample table, for the destination [addrD]. *)
Lemma estimate_costs_route_is_neighbor_witness :
  ∃ nodes' nd, estimate_costs addrA tie_table = Ok nodes' ∧
    (addrD, nd) ∈ nodes' ∧ addrD ≠ addrA ∧
    (route nd = "" ∨
     ∃ nb, (route nd, nb) ∈ get_neighbors nodes' ∧ num_lt (offer addrD nb) Inf).
Proof.
  eexists _, _. split; [vm_compute; reflexivity|].
  split; [apply tbl_get_Some_elem; vm_compute; reflexivity|].
  split; [vm_compute; intros H; discriminate H|].
  eapply (estimate_costs_route_is_neighbor addrA tie_table).
  - vm_compute. reflexivity.
  - apply tbl_get_Some_elem. vm_compute. reflexivity.
  - vm_compute. intros H. discriminate H.
Defined.

(** X4 on the table the sample node starts with, for the neighbour [addrB]:
    no vector has arrived yet. *)
Lemma estimate_costs_no_offer_witness :
  ∃ nodes' nd, estimate_costs addrA (nodes startup_world) = Ok nodes' ∧
    (addrB, nd) ∈ nodes' ∧ addrB ≠ addrA ∧
    (∀ e, e ∈ get_neighbors (nodes startup_world) → offer addrB e.2 = Inf) ∧
    cost nd = Inf ∧ route nd = "".
Proof.
  assert (Hno : ∀ e, e ∈ get_neighbors (nodes startup_world) → offer addrB e.2 = Inf).
  { intros e He. vm_compute in He.
    apply elem_of_cons in He as [->|He]; [reflexivity|].
    apply elem_of_cons in He as [->|He]; [reflexivity|].
    by apply elem_of_nil in He. }
  eexists _, _. split; [vm_compute; reflexivity|].
  split; [apply tbl_get_Some_elem; vm_compute; reflexivity|].
  split; [vm_compute; intros H; discriminate H|].
  split; [exact Hno|].
  eapply (estimate_costs_no_offer addrA (nodes startup_world) _ addrB).
  - vm_compute. reflexivity.
  - apply tbl_get_Some_elem. vm_compute. reflexivity.
  - vm_compute. intros H. discriminate H.
  - exact Hno.
Defined.

(** ** The table the module starts with *)

Section Startup.
Variables (me : string) (timeout : Q).

Lemma startup_fold_get k l t :
  tbl_get k (fold_left
               (fun t nc => tbl_set nc.1 (create_node timeout nc.2 true (Some nc.2) None nc.1) t)
               l t)
  = match tbl_get k (reverse l) with
    | Some c => Some (create_node timeout c true (Some c) None k)
    | None => tbl_get k t
    end.
Proof.
  revert t. induction l as [|[k' c] l IH]; intros t; simpl; [done|].
  rewrite IH, reverse_cons, tbl_get_app. destruct (tbl_get k (reverse l)); [done|].
  simpl. rewrite tbl_get_set. by destruct (String.eqb_spec k k') as [->|_].
Qed.

Lemma startup_fold_costs l t :
  Forall (fun e => costs e.2 = Some []) t →
  Forall (fun e => costs e.2 = Some [])
    (fold_left
       (fun t nc => tbl_set nc.1 (create_node timeout nc.2 true (Some nc.2) None nc.1) t)
       l t).
Proof.
  revert t. induction l as [|[k' c] l IH]; intros t Ht; simpl; [done|].
  apply IH. apply Forall_forall. intros e [->|He]%tbl_set_elem; [done|].
  by eapply Forall_forall in Ht.
Qed.

Lemma startup_get neighbors k :
  tbl_get k (startup me timeout neighbors) =
    if String.eqb k me
    then Some (create_node timeout (Fin 0) false (Some (Fin 0)) None me)
    else (fun c => create_node timeout c true (Some c) None k)
           <$> tbl_get k (reverse neighbors).
Proof.
  unfold startup. rewrite tbl_get_set. destruct (String.eqb k me); [done|].
  rewrite startup_fold_get. by destruct (tbl_get k (reverse neighbors)).
Qed.

(** X5. The table after startup, key by key: [me] holds the self node
    (cost and direct cost [0], no neighbour), also when [me] was configured
    as its own neighbour; any other key holds a neighbour node built from
    the cost configured for it last, and is absent when not configured. *)
Theorem startup_lookup neighbors k :
  tbl_get k (startup me timeout neighbors) =
    if String.eqb k me
    then Some (create_node timeout (Fin 0) false (Some (Fin 0)) None me)
    else (fun c => create_node timeout c true (Some c) None k)
           <$> tbl_get k (reverse neighbors).
Proof. apply startup_get. Qed.

(** X6. Before any cost update has arrived no neighbour advertises
    anything, so a recomputation of the startup table returns and stores
    every destination other than [me], the direct neighbours included, as
    unreachable: cost [+inf] and an empty route. *)
Theorem estimate_costs_after_startup neighbors :
  ∃ nodes', estimate_costs me (startup me timeout neighbors) = Ok nodes' ∧
    ∀ d nd, (d, nd) ∈ nodes' → d ≠ me → cost nd = Inf ∧ route nd = "".
Proof.
  destruct (estimate_costs_total me _ (startup_ok me timeout neighbors)) as [out Hout].
  exists out. split; [done|]. intros d nd Hin Hme.
  apply (unreachable_without_offer me _ _ d nd Hout Hin Hme).
  intros e He. apply list_elem_of_filter in He as [_ He].
  assert (Hc : costs e.2 = Some []).
  { revert e He. apply Forall_forall. unfold startup.
    apply Forall_forall. intros e [->|He]%tbl_set_elem; [done|]. revert e He.
    apply Forall_forall. apply startup_fold_costs. constructor. }
  unfold offer. rewrite Hc. by destruct (direct e.2).
Qed.
End Startup.

(** ** Reachable states *)

Section Reachable.
Variables (me localhost : string) (timeout : Q).

Lemma run_operations_ok os w w' :
  table_ok (nodes w) →
  run_operations me localhost timeout os w = Ok w' → table_ok (nodes w').
Proof.
  revert w. induction os as [|o os IH]; intros w Hok; simpl.
  - by intros [= <-].
  - destruct (apply_operation me localhost timeout o w) as [w1|] eqn:Hstep; simpl; [|done].
    apply IH. exact (apply_operation_ok _ _ _ _ _ _ Hok Hstep).
Qed.

(** X7. Every state reachable from startup is well formed: whatever the
    sequence of cost updates (from any sender, the node's own address
    included), link operations, recomputations and broadcasts, if it
    returns then the table has unique keys and every neighbour, up or taken
    down, carries its direct cost, its vector and its monitor. *)
Theorem reachable_table_ok os neighbors w' :
  run_operations me localhost timeout os
    {| nodes := startup me timeout neighbors; stdout := [] |} = Ok w' →
  table_ok (nodes w').
Proof. apply run_operations_ok. apply startup_ok. Qed.

Lemma create_missing_keys cs t k : k ∈ t.*1 → k ∈ (create_missing cs t).*1.
Proof.
  rewrite !tbl_in_keys. intros [n Hn]. exists n. by apply create_missing_known.
Qed.

Lemma estimate_costs_keys t out :
  estimate_costs me t = Ok out → out.*1 = t.*1.
Proof. intros H. apply same_links_keys. by eapply estimate_costs_same_links. Qed.

Lemma tbl_set_keys_mono {V} k k' (v : V) t : k' ∈ t.*1 → k' ∈ (tbl_set k v t).*1.
Proof.
  rewrite (tbl_in_keys k' t), (tbl_in_keys k' (tbl_set k v t)), tbl_get_set.
  destruct (String.eqb k' k); eauto.
Qed.

Lemma apply_operation_keys o w w' k :
  table_ok (nodes w) →
  apply_operation me localhost timeout o w = Ok w' →
  k ∈ (nodes w).*1 → k ∈ (nodes w').*1.
Proof.
  intros Hok Hrun Hk. destruct o as [host port kw|op host port kw| |]; simpl in Hrun.
  - destruct (update_costs_inv _ _ _ _ _ _ _ Hok Hrun) as (cs & t & ns & _ & _ & Hest & Hlook).
    rewrite (estimate_costs_keys _ _ Hest). apply tbl_in_keys. rewrite Hlook.
    destruct (String.eqb k (addr2key host port)); [by eauto|].
    apply tbl_in_keys. by apply create_missing_keys.
  - destruct (run_link_cases _ _ _ _ _ _ _ _ Hrun)
      as [->|[[Hget ->]|(n & n1 & Hget & _ & Hn1 & Hest)]]; [done| |].
    + rewrite fmap_app. apply elem_of_app. by left.
    + rewrite (estimate_costs_keys _ _ Hest). by apply tbl_set_keys_mono.
  - apply run_estimate_costs_inv in Hrun as [Hrun _].
    by rewrite (estimate_costs_keys _ _ Hrun).
  - unfold broadcast_costs in Hrun. rewrite broadcast_loop_spec in Hrun.
    + simpl in Hrun. by injection Hrun as <-.
    + apply Hok.
    + eapply Forall_impl; [exact (neighbors_complete _ Hok)|]. by intros e [? _].
Qed.

(** X8. The table only grows: a sequence of operations that returns, run
    from a well-formed table, keeps every key the table had.  No operation
    forgets a destination (a cost update deletes the sender's entry only to
    put it back). *)
Theorem run_operations_keeps_keys os w w' k :
  table_ok (nodes w) →
  run_operations me localhost timeout os w = Ok w' →
  k ∈ (nodes w).*1 → k ∈ (nodes w').*1.
Proof.
  revert w. induction os as [|o os IH]; intros w Hok; simpl.
  - by intros [= <-].
  - destruct (apply_operation me localhost timeout o w) as [w1|] eqn:Hstep; simpl; [|done].
    intros Hrun Hk. apply (IH w1).
    + exact (apply_operation_ok _ _ _ _ _ _ Hok Hstep).
    + exact Hrun.
    + exact (apply_operation_keys _ _ _ _ Hok Hstep Hk).
Qed.

(** X9. On a well-formed table a link operation returns: [linkdown] and
    [linkup] always, [linkchange] when its payload carries the new direct
    cost. *)
Theorem run_link_returns op host port kw w :
  table_ok (nodes w) →
  (op = LinkChange → is_Some (kw_direct kw)) →
  ∃ w', run_link me localhost op host port kw w = Ok w'.
Proof.
  set (addr := addr2key (get_host localhost host) port).
  intros Hok Hkw. destruct (tbl_get addr (nodes w)) as [n|] eqn:Hget.
  - assert (Hest : ∀ n1, neighbor_ok n1 →
      ∃ w', run_estimate_costs me (with_nodes (tbl_set addr n1 (nodes w)) w) = Ok w').
    { intros n1 Hn1.
      destruct (run_estimate_costs_total me (with_nodes (tbl_set addr n1 (nodes w)) w))
        as (t & _ & Hrun); [by apply table_ok_set|]. eauto. }
    pose proof (table_ok_neighbor _ _ _ Hok Hget) as Hn.
    destruct op; simpl.
    + unfold linkdown. rewrite (get_node_known _ _ _ _ _ Hget). fold addr.
      destruct (is_neighbor n) eqn:Hnb; simpl; [|by eauto].
      destruct (Hn (or_introl Hnb)) as ([d Hd] & [cs Hcs] & [m Hm]).
      rewrite Hd. simpl. rewrite Hm. simpl. apply Hest.
      intros _. simpl. rewrite Hcs. eauto.
    + unfold linkup. rewrite (get_node_known _ _ _ _ _ Hget). fold addr.
      destruct (saved n) as [s|] eqn:Hs; [|by eauto].
      destruct (Hn (or_intror (ex_intro _ s Hs))) as (_ & [cs Hcs] & [m Hm]).
      apply Hest. intros _. simpl. rewrite Hcs, Hm. eauto.
    + unfold linkchange. rewrite (get_node_known _ _ _ _ _ Hget). fold addr.
      destruct (is_neighbor n) eqn:Hnb; simpl; [|by eauto].
      destruct (Hkw eq_refl) as [d Hd]. rewrite Hd. simpl.
      destruct (num_ltb d (Fin 1)); [by eauto|].
      destruct (saved n) as [s|] eqn:Hs; [by eauto|].
      destruct (Hn (or_introl Hnb)) as (_ & [cs Hcs] & [m Hm]).
      apply Hest. intros _. simpl. rewrite Hcs, Hm. eauto.
  - destruct op; simpl; unfold linkdown, linkup, linkchange;
      rewrite (get_node_unknown _ _ _ _ Hget); by eauto.
Qed.
End Reachable.

(** X7 along the sample run, with a cost update from the node's own
    address put in front. *)
Lemma reachable_table_ok_witness :
  ∃ w', run_operations addrA "10.0.0.1" 1
          (Update "10.0.0.1" 20000
             {| kw_costs := Some [(addrA, Fin 0)];
                kw_neighbor := Some (Some (Fin 1)); kw_direct := None |} :: sample_run)
          startup_world = Ok w' ∧
    table_ok (nodes w').
Proof.
  eexists. split; [vm_compute; reflexivity|].
  apply (reachable_table_ok addrA "10.0.0.1" 1
           (Update "10.0.0.1" 20000
              {| kw_costs := Some [(addrA, Fin 0)];
                 kw_neighbor := Some (Some (Fin 1)); kw_direct := None |} :: sample_run)
           [(addrB, Fin 1); (addrC, Fin 2)]).
  vm_compute. reflexivity.
Defined.

(** X8 along the sample run: [addrC] is still a key at the end. *)
Lemma run_operations_keeps_keys_witness :
  ∃ w', table_ok (nodes startup_world) ∧
    run_operations addrA "10.0.0.1" 1 sample_run startup_world = Ok w' ∧
    addrC ∈ (nodes startup_world).*1 ∧ addrC ∈ (nodes w').*1.
Proof.
  assert (Hok : table_ok (nodes startup_world)).
  { apply (bool_decide_unpack _). vm_compute. reflexivity. }
  assert (Hk : addrC ∈ (nodes startup_world).*1).
  { apply tbl_in_keys. vm_compute. eauto. }
  eexists. split; [exact Hok|]. split; [vm_compute; reflexivity|]. split; [exact Hk|].
  apply (run_operations_keeps_keys addrA "10.0.0.1" 1 sample_run startup_world _ addrC Hok);
    [vm_compute; reflexivity | exact Hk].
Defined.

(** X9 on the sample table: taking down the link to [addrB]. *)
Lemma run_link_returns_witness :
  table_ok (nodes sample_world) ∧
  (LinkDown = LinkChange → is_Some (kw_direct no_kwargs)) ∧
  ∃ w', run_link addrA "10.0.0.1" LinkDown "10.0.0.1" 20001 no_kwargs sample_world = Ok w'.
Proof.
  assert (Hok : table_ok (nodes sample_world)).
  { apply (bool_decide_unpack _). vm_compute. reflexivity. }
  assert (Hkw : LinkDown = LinkChange → is_Some (kw_direct no_kwargs)).
  { intros H. discriminate H. }
  split; [exact Hok|]. split; [exact Hkw|].
  exact (run_link_returns addrA "10.0.0.1" LinkDown "10.0.0.1" 20001 no_kwargs
           sample_world Hok Hkw).
Defined.

(** ** Link operations that apply *)

Lemma addr2key_nonempty host port : addr2key host port ≠ "".
Proof. unfold addr2key. destruct host; discriminate. Qed.

Lemma Forall2_by_lookup {V W} (R : string * V → string * W → Prop) t t' :
  t'.*1 = t.*1 → NoDup t.*1 →
  (∀ k v v', tbl_get k t = Some v → tbl_get k t' = Some v' → R (k, v) (k, v')) →
  Forall2 R t t'.
Proof.
  revert t'. induction t as [|[k v] t IH]; intros [|[k' v'] t'] Hkeys Hnd HR;
    try discriminate Hkeys; [constructor|].
  injection Hkeys as -> Hkeys. apply NoDup_cons in Hnd as [Hk Hnd]. constructor.
  - apply HR; simpl; by rewrite String.eqb_refl.
  - apply IH; [done|done|]. intros k0 v0 v0' H0 H0'.
    assert (Hne : k0 ≠ k).
    { intros ->. apply Hk. apply tbl_in_keys. eauto. }
    apply HR; simpl; by destruct (String.eqb_spec k0 k).
Qed.

Section RecomputeCong.
Variable me : string.

Lemma same_inputs_view t t' :
  Forall2 (same_inputs me) t t' → routing_view t = routing_view t'.
Proof.
  induction 1 as [|[k n] [k' n'] t t' (Hk & Hn & Hd & Hc & _) _ IH]; [done|].
  simpl in *. by rewrite IH, Hk, Hn, Hd, Hc.
Qed.

(** Tables that give the recomputation the same inputs come out with the
    same costs and routes. *)
Lemma estimate_costs_cong t t' out out' :
  Forall2 (same_inputs me) t t' →
  estimate_costs me t = Ok out → estimate_costs me t' = Ok out' →
  Forall2 same_routes out out'.
Proof.
  intros Hin Hout Hout'. pose proof (same_inputs_view _ _ Hin) as Hview.
  apply estimate_costs_Ok in Hout. apply estimate_costs_Ok in Hout'.
  assert (Hscan : ∀ k c h, scan_neighbors k (get_neighbors t) c h
                           = scan_neighbors k (get_neighbors t') c h).
  { intros. by apply scan_neighbors_view. }
  clear Hview. revert Hscan Hout Hout'. generalize (get_neighbors t) (get_neighbors t').
  intros N N' Hscan. revert out out'.
  induction Hin as [|[k n] [k' n'] t t' (Hk & Hn & Hd & Hc & Hme) _ IH];
    intros out out' Hout Hout'.
  - apply Forall2_nil_inv_l in Hout as ->. apply Forall2_nil_inv_l in Hout' as ->.
    constructor.
  - apply Forall2_cons_inv_l in Hout as (e & o & He & Ho & ->).
    apply Forall2_cons_inv_l in Hout' as (e' & o' & He' & Ho' & ->).
    constructor; [|by apply IH]. simpl in *. subst k'.
    unfold relaxed in He, He'. simpl in He, He'. rewrite <- Hscan in He'.
    destruct (String.eqb_spec k me) as [Heq|Hne]; simpl in He, He'.
    + injection He as <-. injection He' as <-. destruct (Hme Heq) as [? ?].
      by repeat split.
    + destruct (scan_neighbors k N Inf "") as [[c h]|]; simpl in He, He'; [|done].
      injection He as <-. injection He' as <-. by repeat split.
Qed.
End RecomputeCong.

Section LinkEffects.
Variables (me localhost : string).

Lemma link_recompute addr n1 w :
  table_ok (nodes w) → is_Some (tbl_get addr (nodes w)) → neighbor_ok n1 →
  ∃ out n1',
    run_estimate_costs me (with_nodes (tbl_set addr n1 (nodes w)) w)
    = Ok {| nodes := out; stdout := stdout w |} ∧
    estimate_costs me (tbl_set addr n1 (nodes w)) = Ok out ∧
    table_ok out ∧ out.*1 = (nodes w).*1 ∧
    tbl_get addr out = Some n1' ∧ same_links (addr, n1) (addr, n1') ∧
    (addr = me → n1' = n1) ∧
    (∀ k m, k ≠ addr → tbl_get k (nodes w) = Some m →
            ∃ m', tbl_get k out = Some m' ∧ same_links (k, m) (k, m') ∧
                  (k = me → m' = m)).
Proof.
  intros Hok Hin Hn1.
  assert (Hok1 : table_ok (tbl_set addr n1 (nodes w))) by by apply table_ok_set.
  destruct (run_estimate_costs_total me (with_nodes (tbl_set addr n1 (nodes w)) w) Hok1)
    as (out & Hest & Hrun). simpl in Hest, Hrun.
  pose proof (estimate_costs_same_links _ _ _ Hest) as Hsame.
  pose proof (estimate_costs_me me _ _ Hest) as Hme.
  destruct (same_links_get _ _ addr n1 Hsame) as (n1' & Hget1 & Hrel1).
  { by rewrite tbl_get_set, String.eqb_refl. }
  exists out, n1'. split; [exact Hrun|]. split; [exact Hest|].
  split; [by eapply same_links_ok|]. split.
  { rewrite (same_links_keys _ _ Hsame). apply tbl_set_keys_in.
    unfold tbl_in. by destruct Hin as [? ->]. }
  split; [exact Hget1|]. split; [exact Hrel1|]. split.
  { intros ->. rewrite Hme, tbl_get_set, String.eqb_refl in Hget1. congruence. }
  intros k m Hne Hget.
  destruct (same_links_get _ _ k m Hsame) as (m' & Hget' & Hrel').
  { rewrite tbl_get_set. by destruct (String.eqb_spec k addr). }
  exists m'. split; [exact Hget'|]. split; [exact Hrel'|].
  intros ->. rewrite Hme, tbl_get_set in Hget'.
  destruct (String.eqb_spec me addr); [done|]. congruence.
Qed.

(** X10. [linkchange] on an up neighbour with a new cost of at least [1]:
    it returns without printing, the table is the recomputation of the old
    one with the neighbour's direct cost replaced, the keys and their order
    are kept, the neighbour keeps its vector and its monitor (which is not
    reset), and every other node keeps its link fields. *)
Theorem linkchange_applies host port kw w n d :
  table_ok (nodes w) →
  tbl_get (addr2key (get_host localhost host) port) (nodes w) = Some n →
  is_neighbor n = true → saved n = None →
  kw_direct kw = Some d → ¬ num_lt d (Fin 1) →
  ∃ w' n',
    linkchange me localhost host port kw w = Ok w' ∧ stdout w' = stdout w ∧
    estimate_costs me
      (tbl_set (addr2key (get_host localhost host) port) (set_direct (Some d) n) (nodes w))
    = Ok (nodes w') ∧
    (nodes w').*1 = (nodes w).*1 ∧
    tbl_get (addr2key (get_host localhost host) port) (nodes w') = Some n' ∧
    direct n' = Some d ∧ is_neighbor n' = true ∧ costs n' = costs n ∧
    saved n' = None ∧ silence_monitor n' = silence_monitor n ∧
    (∀ k m, k ≠ addr2key (get_host localhost host) port →
            tbl_get k (nodes w) = Some m →
            ∃ m', tbl_get k (nodes w') = Some m' ∧ same_links (k, m) (k, m')).
Proof.
  set (addr := addr2key (get_host localhost host) port).
  intros Hok Hget Hn Hs Hd Hlt.
  destruct (table_ok_neighbor _ _ _ Hok Hget (or_introl Hn)) as (_ & [cs Hcs] & [m Hm]).
  destruct (link_recompute addr (set_direct (Some d) n) w Hok)
    as (out & n' & Hrun & Hest & _ & Hkeys & Hget' & Hrel & _ & Hoth).
  { by rewrite Hget. }
  { intros _. simpl. rewrite Hcs, Hm. eauto. }
  exists {| nodes := out; stdout := stdout w |}, n'. split.
  { unfold linkchange. rewrite (get_node_known _ _ _ _ _ Hget). fold addr.
    rewrite Hn, Hd. simpl. apply num_ltb_nlt in Hlt. rewrite Hlt, Hs. exact Hrun. }
  destruct Hrel as (_ & Hn' & Hd' & Hc' & Hs' & Hm'). simpl in *.
  split; [done|]. split; [exact Hest|]. split; [exact Hkeys|]. split; [exact Hget'|].
  rewrite Hd', Hn', Hc', Hs', Hm', Hn, Hs. repeat split; try done.
  intros k m0 Hne Hk. destruct (Hoth k m0 Hne Hk) as (m' & ? & ? & _). eauto.
Qed.

(** X11. [linkdown] on a neighbour: it returns without printing; the
    neighbour's direct cost is saved and replaced by [+inf], it is no
    neighbour any more and its monitor is cancelled; the keys and their
    order are kept, every other node keeps its link fields; and after the
    recomputation no destination other than [me] is routed through the
    address taken down. *)
Theorem linkdown_applies host port kw w n :
  table_ok (nodes w) →
  tbl_get (addr2key (get_host localhost host) port) (nodes w) = Some n →
  is_neighbor n = true →
  ∃ w' n' c m,
    linkdown me localhost host port kw w = Ok w' ∧ stdout w' = stdout w ∧
    direct n = Some c ∧ silence_monitor n = Some m ∧
    (nodes w').*1 = (nodes w).*1 ∧
    tbl_get (addr2key (get_host localhost host) port) (nodes w') = Some n' ∧
    is_neighbor n' = false ∧ direct n' = Some Inf ∧ saved n' = Some c ∧
    silence_monitor n' = Some (cancel m) ∧ costs n' = costs n ∧
    (∀ k m0, k ≠ addr2key (get_host localhost host) port →
             tbl_get k (nodes w) = Some m0 →
             ∃ m', tbl_get k (nodes w') = Some m' ∧ same_links (k, m0) (k, m')) ∧
    (∀ d nd, (d, nd) ∈ nodes w' → d ≠ me →
             route nd ≠ addr2key (get_host localhost host) port).
Proof.
  set (addr := addr2key (get_host localhost host) port).
  intros Hok Hget Hn.
  destruct (table_ok_neighbor _ _ _ Hok Hget (or_introl Hn))
    as ([c Hd] & [cs Hcs] & [m Hm]).
  set (n1 := set_silence_monitor (Some (cancel m))
               (set_is_neighbor false (set_direct (Some Inf) (set_saved (Some c) n)))).
  destruct (link_recompute addr n1 w Hok)
    as (out & n' & Hrun & Hest & Hokout & Hkeys & Hget' & Hrel & _ & Hoth).
  { by rewrite Hget. }
  { intros _. subst n1. simpl. rewrite Hcs. eauto. }
  exists {| nodes := out; stdout := stdout w |}, n', c, m. split.
  { unfold linkdown. rewrite (get_node_known _ _ _ _ _ Hget). fold addr.
    rewrite Hn, Hd. simpl. rewrite Hm. simpl. exact Hrun. }
  destruct Hrel as (_ & Hn' & Hd' & Hc' & Hs' & Hm'). simpl in *.
  split; [done|]. split; [done|]. split; [done|]. split; [exact Hkeys|].
  split; [exact Hget'|]. rewrite Hn', Hd', Hs', Hm', Hc'.
  repeat split; try done.
  - intros k m0 Hne Hk. destruct (Hoth k m0 Hne Hk) as (m' & ? & ? & _). eauto.
  - intros d nd Hin Hme Hroute.
    destruct (estimate_costs_route me _ _ d nd Hest Hin Hme) as [Hr|(nb & Hnb & _)].
    + rewrite Hroute in Hr. by apply addr2key_nonempty in Hr.
    + rewrite Hroute in Hnb. apply list_elem_of_filter in Hnb as [Hnbt Hnb].
      simpl in Hnbt. apply (tbl_get_elem _ _ _ (proj1 Hokout)) in Hnb.
      rewrite Hget' in Hnb. injection Hnb as <-. congruence.
Qed.

(** X12. Taking a link down and up again undoes itself for routing: both
    operations return, and the table holds, key by key and in the same
    order, the costs, routes, neighbour flags, direct costs and vectors of
    a plain recomputation of the table the node had before. *)
Theorem linkdown_linkup_restores_routes host port kw kw' w n :
  table_ok (nodes w) →
  tbl_get (addr2key (get_host localhost host) port) (nodes w) = Some n →
  is_neighbor n = true →
  ∃ w1 w2 nodes0,
    linkdown me localhost host port kw w = Ok w1 ∧
    linkup me localhost host port kw' w1 = Ok w2 ∧
    estimate_costs me (nodes w) = Ok nodes0 ∧
    Forall2 same_routes nodes0 (nodes w2).
Proof.
  set (addr := addr2key (get_host localhost host) port).
  intros Hok Hget Hn.
  destruct (table_ok_neighbor _ _ _ Hok Hget (or_introl Hn))
    as ([c Hd] & [cs Hcs] & [m Hm]).
  set (n1 := set_silence_monitor (Some (cancel m))
               (set_is_neighbor false (set_direct (Some Inf) (set_saved (Some c) n)))).
  destruct (link_recompute addr n1 w Hok)
    as (t1 & n1' & Hrun1 & Hest1 & Hok1 & Hkeys1 & Hget1 & Hrel1 & Hme1 & Hoth1).
  { by rewrite Hget. }
  { intros _. subst n1. simpl. rewrite Hcs. eauto. }
  destruct Hrel1 as (_ & Hn1 & Hd1 & Hc1 & Hs1 & Hm1). simpl in *.
  set (w1 := {| nodes := t1; stdout := stdout w |}).
  set (n2 := set_is_neighbor true (set_saved None (set_direct (Some c) n1'))).
  destruct (link_recompute addr n2 w1)
    as (t2 & n2' & Hrun2 & Hest2 & _); [exact Hok1 | by (simpl; rewrite Hget1) | |].
  { intros _. subst n2. simpl. rewrite Hc1, Hm1, Hcs. eauto. }
  destruct (estimate_costs_total me _ Hok) as [t0 Hest0].
  exists w1, {| nodes := t2; stdout := stdout w |}, t0. split.
  { unfold linkdown. rewrite (get_node_known _ _ _ _ _ Hget). fold addr.
    rewrite Hn, Hd. simpl. rewrite Hm. simpl. exact Hrun1. }
  split.
  { unfold linkup. rewrite (get_node_known localhost host port w1 n1' Hget1). fold addr.
    rewrite Hs1. exact Hrun2. }
  split; [exact Hest0|]. simpl.
  apply (estimate_costs_cong me (nodes w) (tbl_set addr n2 t1)); [|exact Hest0|exact Hest2].
  apply Forall2_by_lookup.
  - rewrite tbl_set_keys_in; [exact Hkeys1|]. unfold tbl_in. by rewrite Hget1.
  - apply Hok.
  - intros k v v' Hk Hk'. rewrite tbl_get_set in Hk'.
    destruct (String.eqb_spec k addr) as [->|Hne].
    + injection Hk' as <-. rewrite Hget in Hk. injection Hk as <-.
      unfold same_inputs, n2. simpl. rewrite Hc1, Hd, Hn.
      split; [done|]. split; [done|]. split; [done|]. split; [done|].
      intros Heq. rewrite (Hme1 Heq). unfold n1. done.
    + destruct (Hoth1 k v Hne Hk) as (m' & Hm' & (_ & Hx1 & Hx2 & Hx3 & _) & Hself).
      rewrite Hm' in Hk'. injection Hk' as <-. unfold same_inputs. simpl in *.
      split; [done|]. split; [done|]. split; [done|]. split; [done|].
      intros Heq. by rewrite (Hself Heq).
Qed.
End LinkEffects.

Section Promotion.
Variables (me : string) (timeout : Q).

(** X13. Promotion moves the sender to the end of the table: after a cost
    update from an address that is no neighbour, the sender's entry is the
    last one, whatever place it had before, and the entries in front of it
    are the other keys of the table and the new keys of the vector, in that
    order. *)
Theorem update_costs_promotes_last host port kw w cs d :
  table_ok (nodes w) →
  kw_costs kw = Some cs → kw_neighbor kw = Some (Some d) →
  (∀ n, tbl_get (addr2key host port) (nodes w) = Some n → is_neighbor n = false) →
  ∃ w' front n',
    update_costs me timeout host port kw w = Ok w' ∧
    nodes w' = front ++ [(addr2key host port, n')] ∧
    is_neighbor n' = true ∧
    front.*1 = (tbl_del (addr2key host port) (create_missing cs (nodes w))).*1.
Proof.
  intros Hok Hcs Hd Hnot.
  destruct (update_costs_promote me timeout host port kw w cs d Hok Hcs Hd Hnot)
    as [Hokt Heq].
  destruct (estimate_costs_total me _ Hokt) as [out Hest].
  pose proof (estimate_costs_same_links _ _ _ Hest) as Hsame.
  apply Forall2_app_inv_l in Hsame as (front & last & Hfront & Hlast & ->).
  apply Forall2_cons_inv_l in Hlast as ([k n'] & rest & (Hk & Hn & _) & Hrest & ->).
  apply Forall2_nil_inv_l in Hrest as ->. simpl in Hk, Hn. subst k.
  exists {| nodes := front ++ [(addr2key host port, n')];
            stdout := stdout w ++ [MakingNewNeighbor (addr2key host port)] |}, front, n'.
  split; [|split; [done|split; [done|by apply same_links_keys]]].
  rewrite Heq. by apply run_estimate_costs_eq.
Qed.
End Promotion.

(** X10 on the sample table: the link to [addrC] changes to cost [4]. *)
Lemma linkchange_applies_witness :
  ∃ n w' n',
    table_ok (nodes sample_world) ∧
    tbl_get (addr2key (get_host "10.0.0.1" "10.0.0.1") 20002) (nodes sample_world) = Some n ∧
    linkchange addrA "10.0.0.1" "10.0.0.1" 20002
      {| kw_costs := None; kw_neighbor := None; kw_direct := Some (Fin 4) |}
      sample_world = Ok w' ∧
    stdout w' = stdout sample_world ∧
    (nodes w').*1 = (nodes sample_world).*1 ∧
    tbl_get (addr2key (get_host "10.0.0.1" "10.0.0.1") 20002) (nodes w') = Some n' ∧
    direct n' = Some (Fin 4) ∧ silence_monitor n' = silence_monitor n.
Proof.
  assert (Hok : table_ok (nodes sample_world)).
  { apply (bool_decide_unpack _). vm_compute. reflexivity. }
  exists (neighbor_node addrC (Fin 2) [(addrC, Fin 0); (addrD, Fin 1); (addrB, Fin 4)]).
  assert (Hget : tbl_get (addr2key (get_host "10.0.0.1" "10.0.0.1") 20002)
                   (nodes sample_world)
                 = Some (neighbor_node addrC (Fin 2)
                           [(addrC, Fin 0); (addrD, Fin 1); (addrB, Fin 4)])).
  { vm_compute. reflexivity. }
  destruct (linkchange_applies addrA "10.0.0.1" "10.0.0.1" 20002
              {| kw_costs := None; kw_neighbor := None; kw_direct := Some (Fin 4) |}
              sample_world _ (Fin 4) Hok Hget eq_refl eq_refl eq_refl)
    as (w' & n' & Hrun & Hout & _ & Hkeys & Hget' & Hd & _ & _ & _ & Hm & _).
  { vm_compute. intros H. discriminate H. }
  exists w', n'. split; [exact Hok|]. split; [exact Hget|]. split; [exact Hrun|].
  split; [exact Hout|]. split; [exact Hkeys|]. split; [exact Hget'|].
  split; [exact Hd|exact Hm].
Defined.

(** X11 on the sample table: the link to [addrB] is taken down. *)
Lemma linkdown_applies_witness :
  ∃ n w' n',
    table_ok (nodes sample_world) ∧
    tbl_get (addr2key (get_host "10.0.0.1" "10.0.0.1") 20001) (nodes sample_world) = Some n ∧
    linkdown addrA "10.0.0.1" "10.0.0.1" 20001 no_kwargs sample_world = Ok w' ∧
    tbl_get (addr2key (get_host "10.0.0.1" "10.0.0.1") 20001) (nodes w') = Some n' ∧
    is_neighbor n' = false ∧ direct n' = Some Inf ∧ saved n' = direct n ∧
    (∀ d nd, (d, nd) ∈ nodes w' → d ≠ addrA →
             route nd ≠ addr2key (get_host "10.0.0.1" "10.0.0.1") 20001).
Proof.
  assert (Hok : table_ok (nodes sample_world)).
  { apply (bool_decide_unpack _). vm_compute. reflexivity. }
  exists (neighbor_node addrB (Fin 1) [(addrB, Fin 0); (addrD, Fin 2)]).
  assert (Hget : tbl_get (addr2key (get_host "10.0.0.1" "10.0.0.1") 20001)
                   (nodes sample_world)
                 = Some (neighbor_node addrB (Fin 1) [(addrB, Fin 0); (addrD, Fin 2)])).
  { vm_compute. reflexivity. }
  destruct (linkdown_applies addrA "10.0.0.1" "10.0.0.1" 20001 no_kwargs
              sample_world _ Hok Hget eq_refl)
    as (w' & n' & c & m & Hrun & _ & Hd & _ & _ & Hget' & Hn & Hinf & Hs & _ & _ & _ & Hr).
  exists w', n'. split; [exact Hok|]. split; [exact Hget|]. split; [exact Hrun|].
  split; [exact Hget'|]. split; [exact Hn|]. split; [exact Hinf|].
  split; [by rewrite Hs, <- Hd|exact Hr].
Defined.

(** X12 on the sample table: the link to [addrB] goes down and up. *)
Lemma linkdown_linkup_restores_routes_witness :
  ∃ w1 w2 nodes0,
    linkdown addrA "10.0.0.1" "10.0.0.1" 20001 no_kwargs sample_world = Ok w1 ∧
    linkup addrA "10.0.0.1" "10.0.0.1" 20001 no_kwargs w1 = Ok w2 ∧
    estimate_costs addrA (nodes sample_world) = Ok nodes0 ∧
    Forall2 same_routes nodes0 (nodes w2).
Proof.
  eapply (linkdown_linkup_restores_routes addrA "10.0.0.1" "10.0.0.1" 20001
            no_kwargs no_kwargs sample_world).
  - apply (bool_decide_unpack _). vm_compute. reflexivity.
  - vm_compute. reflexivity.
  - reflexivity.
Defined.

(** X13 on the sample node after the link to [addrC] was taken down: the
    update from [addrC] moves it from the second place to the last. *)
Lemma update_costs_promotes_last_witness :
  ∃ w' front n',
    update_costs addrA 1 "10.0.0.1" 20002 sample_update down_world = Ok w' ∧
    nodes w' = front ++ [(addr2key "10.0.0.1" 20002, n')] ∧
    is_neighbor n' = true ∧
    front.*1 = (tbl_del (addr2key "10.0.0.1" 20002)
                  (create_missing
                     [(addrC, Fin 0); (addrA, Fin 2); (addrD, Fin 1); ("10.0.0.1:20004", Fin 3)]
                     (nodes down_world))).*1.
Proof.
  apply (update_costs_promotes_last addrA 1 "10.0.0.1" 20002 sample_update down_world
           _ (Fin 2)).
  - apply (bool_decide_unpack _). vm_compute. reflexivity.
  - reflexivity.
  - reflexivity.
  - intros n Hn. vm_compute in Hn. injection Hn as <-. reflexivity.
Defined.

(** ** Poison reverse, seen from the receiver *)

Section Poisoned.
Variables (me localhost : string) (timeout : Q).

(** A cost update whose vector does not name [d], or names it at [+inf],
    never makes the sender the next hop for [d]. *)
Lemma update_costs_no_route_back host port kw w cs dc d :
  table_ok (nodes w) →
  kw_costs kw = Some cs → kw_neighbor kw = Some (Some dc) →
  d ≠ me →
  tbl_get d cs = None ∨ tbl_get d cs = Some Inf →
  ∃ w', update_costs me timeout host port kw w = Ok w' ∧
    ∀ nd, tbl_get d (nodes w') = Some nd → route nd ≠ addr2key host port.
Proof.
  intros Hok Hcs Hdc Hme Hadv.
  destruct (update_costs_shape me timeout host port kw w cs dc Hok Hcs Hdc)
    as (t & ns & out & log & Hrun & Hokt & Hest & Hlook & Hns).
  exists {| nodes := out; stdout := log |}. split; [exact Hrun|]. simpl.
  intros nd Hget Hroute.
  assert (Hcosts : costs ns = Some cs).
  { destruct Hns as [(_ & -> & _)|(n & m & _ & _ & _ & -> & _)]; done. }
  pose proof (estimate_costs_same_links _ _ _ Hest) as Hsame.
  destruct (estimate_costs_route me _ _ d nd Hest (tbl_get_Some_elem _ _ _ Hget) Hme)
    as [Hr|(nb & Hnb & Hfin)].
  - rewrite Hroute in Hr. by apply addr2key_nonempty in Hr.
  - rewrite Hroute in Hnb. apply list_elem_of_filter in Hnb as [_ Hnb].
    apply (tbl_get_elem _ _ _ (proj1 (same_links_ok _ _ Hsame Hokt))) in Hnb.
    destruct (same_links_get _ _ (addr2key host port) ns Hsame) as (n' & Hn' & Hrel).
    { by rewrite Hlook, String.eqb_refl. }
    rewrite Hnb in Hn'. injection Hn' as <-.
    destruct Hrel as (_ & _ & _ & Hc & _). simpl in Hc.
    apply (num_lt_Inf Inf). revert Hfin. unfold offer. rewrite Hc, Hcosts.
    destruct (direct nb) as [dir|]; [|done].
    destruct Hadv as [->| ->]; [done|]. by destruct dir.
Qed.

(** X14. Poison reverse works at the receiver: when the vector of a cost
    update does not name a destination [d] other than [me], or names it at
    [+inf], the update returns and leaves [d] routed through something
    other than the sender. *)
Theorem update_costs_poisoned host port kw w cs dc d :
  table_ok (nodes w) →
  kw_costs kw = Some cs → kw_neighbor kw = Some (Some dc) →
  d ≠ me →
  tbl_get d cs = None ∨ tbl_get d cs = Some Inf →
  ∃ w', update_costs me timeout host port kw w = Ok w' ∧
    ∀ nd, tbl_get d (nodes w') = Some nd → route nd ≠ addr2key host port.
Proof. apply update_costs_no_route_back. Qed.
End Poisoned.

Section TwoNodes.
(** The advertiser [me_s] with its table, and the node that receives. *)
Variables (me_s me_r localhost : string) (timeout : Q).

(** X15. What [broadcast_costs] sends to a neighbour, as it is received.
    When the encoded message has at most [SIZE] bytes, a node with a
    well-formed table decodes it and [update_costs] applies it without an
    exception, whatever address it arrives from; and after that no
    destination that the advertiser routes through the addressee (other
    than the advertiser, the addressee and the receiver itself) is routed
    by the receiver through the address the message came from: two nodes
    never point at each other for a third one.  When the encoded message
    has more than [SIZE] bytes, what arrives is cut and the decoding raises
    [ValueError].  (The display of the table that may follow in the same
    pass of the loop is not part of [receive].) *)
Theorem broadcast_costs_received nodes_s sent nodes_s' N msg sent_bytes host port w :
  table_ok nodes_s →
  broadcast_costs me_s nodes_s = Ok (sent, nodes_s') →
  (N, msg) ∈ sent →
  table_ok (nodes w) →
  ((sent_bytes ≤ SIZE)%Z →
   ∃ w', receive me_r localhost timeout (recvfrom sent_bytes msg) (host, port) w = Ok w' ∧
     ∀ d nd_s nd,
       tbl_get d nodes_s = Some nd_s → route nd_s = N →
       d ≠ me_s → d ≠ N → d ≠ me_r →
       tbl_get d (nodes w') = Some nd → route nd ≠ addr2key host port) ∧
  ((SIZE < sent_bytes)%Z →
   receive me_r localhost timeout (recvfrom sent_bytes msg) (host, port) w
   = Raised ValueError).
Proof.
  intros Hoks Hsent Hin Hok. split.
  2:{ intros Hbig. unfold recvfrom.
      destruct (Z.leb_spec sent_bytes SIZE) as [Hle|_]; [lia|reflexivity]. }
  intros Hfit.
  assert (Hwhole : recvfrom sent_bytes msg = Encoded (encode msg)).
  { unfold recvfrom. by destruct (Z.leb_spec sent_bytes SIZE) as [_|Hgt]; [|lia]. }
  rewrite Hwhole. clear Hwhole Hfit.
  unfold broadcast_costs in Hsent. rewrite broadcast_loop_spec in Hsent; [|apply Hoks|].
  2:{ eapply Forall_impl; [exact (neighbors_complete _ Hoks)|]. by intros e [? _]. }
  injection Hsent as <- _. simpl in Hin.
  apply list_elem_of_fmap in Hin as ([N' nb] & Heq & Hnb). injection Heq as -> ->.
  pose proof (neighbors_complete _ Hoks) as Hc. rewrite Forall_forall in Hc.
  destruct (Hc _ Hnb) as [[dc Hd] _]. simpl in Hd.
  assert (Hnone : ∀ d,
    tbl_get d (poisoned_vector me_s nodes_s N') = None ∨
    (∃ nd_s, tbl_get d nodes_s = Some nd_s ∧
       tbl_get d (poisoned_vector me_s nodes_s N') =
         Some (if negb (String.eqb d me_s || String.eqb d N')
                  && String.eqb (route nd_s) N' then Inf else cost nd_s))).
  { intros d. destruct (tbl_get d nodes_s) as [nd_s|] eqn:Hget.
    - right. exists nd_s. split; [done|].
      exact (tbl_get_map
        (fun k n => if negb (String.eqb k me_s || String.eqb k N')
                       && String.eqb (route n) N' then Inf else cost n) d nd_s nodes_s Hget).
    - left. apply tbl_get_None. unfold poisoned_vector.
      rewrite <- list_fmap_compose. by apply tbl_get_None. }
  set (kw := {| kw_costs := Some (poisoned_vector me_s nodes_s N');
                kw_neighbor := Some (direct nb); kw_direct := None |}).
  assert (Hkw : kw_neighbor kw = Some (Some dc)) by (simpl; by rewrite Hd).
  destruct (update_costs_shape me_r timeout host port kw w
              (poisoned_vector me_s nodes_s N') dc Hok eq_refl Hkw)
    as (t0 & ns0 & out0 & log0 & Hw0 & _).
  set (w0 := {| nodes := out0; stdout := log0 |}) in *.
  assert (Hrecv : ∀ w', update_costs me_r timeout host port kw w = Ok w' →
    receive me_r localhost timeout
      (Encoded (encode {| msg_type := Some COSTSUPDATE; msg_payload := Some kw |}))
      (host, port) w
    = Ok w').
  { intros w' Hw'. unfold receive. simpl. exact Hw'. }
  exists w0. split; [by apply Hrecv|].
  intros d nd_s nd Hget Hroute Hne1 Hne2 Hne3 Hget'.
  destruct (update_costs_no_route_back me_r timeout host port kw w
              (poisoned_vector me_s nodes_s N') dc d Hok eq_refl Hkw Hne3)
    as (w1 & Hw1 & Hno).
  { right. destruct (Hnone d) as [Hn|(nd' & Hg & ->)].
    - exfalso. apply tbl_get_None in Hn. apply Hn. unfold poisoned_vector.
      rewrite <- list_fmap_compose. apply tbl_in_keys. eauto.
    - rewrite Hget in Hg. injection Hg as <-.
      destruct (String.eqb_spec d me_s); [done|]. destruct (String.eqb_spec d N'); [done|].
      by destruct (String.eqb_spec (route nd_s) N'). }
  rewrite Hw0 in Hw1. injection Hw1 as <-. by apply Hno.
Qed.
End TwoNodes.

(** ** Keys back to addresses *)

Lemma split_colon_length s : length (split_colon s) = S (count_colons s).
Proof.
  induction s as [|c s IH]; simpl; [done|].
  destruct (Ascii.eqb c ":"%char); simpl; [by rewrite IH|].
  destruct (split_colon s); simpl in *; [discriminate IH|done].
Qed.

Lemma split_colon_whole s : count_colons s = 0 → split_colon s = [s].
Proof.
  induction s as [|c s IH]; simpl; [done|].
  destruct (Ascii.eqb c ":"%char); [discriminate|]. intros H. by rewrite (IH H).
Qed.

Lemma split_colon_app host rest :
  count_colons host = 0 →
  split_colon (host +:+ ":" +:+ rest) = host :: split_colon rest.
Proof.
  induction host as [|c host IH]; simpl; [done|].
  destruct (Ascii.eqb c ":"%char); [discriminate|]. intros H. by rewrite (IH H).
Qed.

Lemma count_colons_app s1 s2 :
  count_colons (s1 +:+ s2) = count_colons s1 + count_colons s2.
Proof.
  induction s1 as [|c s1 IH]; simpl; [done|].
  destruct (Ascii.eqb c ":"%char); simpl; by rewrite IH.
Qed.

Lemma pretty_N_char_digit x :
  (x < 10)%N → digit_of (pretty_N_char x) = Some (Z.of_N x) ∧
               Ascii.eqb (pretty_N_char x) ":"%char = false.
Proof.
  intros Hx.
  destruct x as [|[[[|[]|]|[[]|[]|]|]|[[|[]|]|[|[]|]|]|]]; try lia; by split.
Qed.

Lemma count_colons_pretty_N_go x s :
  count_colons (pretty_N_go x s) = count_colons s.
Proof.
  revert s. induction (N.lt_wf_0 x) as [x _ IH]; intros s.
  assert (x = 0 ∨ 0 < x)%N as [->|Hx] by lia; [by rewrite pretty_N_go_0|].
  rewrite pretty_N_go_step by done. rewrite IH by (by apply N.div_lt).
  simpl. destruct (pretty_N_char_digit (x `mod` 10)) as [_ ->]; [|done].
  by apply N.mod_lt.
Qed.

Lemma read_digits_pretty_N_go x s :
  read_digits 0 (pretty_N_go x s) = read_digits (Z.of_N x) s.
Proof.
  revert s. induction (N.lt_wf_0 x) as [x _ IH]; intros s.
  assert (x = 0 ∨ 0 < x)%N as [->|Hx] by lia; [by rewrite pretty_N_go_0|].
  rewrite pretty_N_go_step by done. rewrite IH by (by apply N.div_lt).
  simpl. destruct (pretty_N_char_digit (x `mod` 10)) as [-> _]; [by apply N.mod_lt|].
  f_equal. rewrite <- N2Z.inj_mul with (n := 10%N), <- N2Z.inj_add. f_equal.
  symmetry. apply N.div_mod. lia.
Qed.

Lemma pretty_positive_go p : pretty (Z.pos p) = pretty_N_go (N.pos p) "".
Proof. done. Qed.

Lemma count_colons_pretty (z : Z) : count_colons (pretty z) = 0.
Proof.
  destruct z as [|p|p]; [done| |].
  - rewrite pretty_positive_go. by rewrite count_colons_pretty_N_go.
  - change (pretty (Z.neg p)) with ("-" +:+ pretty_N_go (N.pos p) "").
    rewrite count_colons_app, count_colons_pretty_N_go. done.
Qed.

(** The decimal reader reads back what [pretty] writes. *)
Lemma int_decimal_pretty (z : Z) : int_decimal (pretty z) = Some z.
Proof.
  assert (Hne : ∀ p, pretty_N_go (N.pos p) "" ≠ "").
  { intros p H. pose proof (read_digits_pretty_N_go (N.pos p) "") as Hr.
    rewrite H in Hr. simpl in Hr. discriminate Hr. }
  assert (Hnd : ∀ p s, pretty_N_go (N.pos p) "" ≠ String "-"%char s).
  { intros p s H. exact (pretty_N_go_ne_dash (N.pos p) "" s ltac:(done) H). }
  destruct z as [|p|p]; [done| |].
  - rewrite pretty_positive_go.
    pose proof (read_digits_pretty_N_go (N.pos p) "") as Hr. simpl in Hr.
    pose proof (Hne p) as H1. pose proof (Hnd p) as H2.
    destruct (pretty_N_go (N.pos p) "") as [|c s]; [done|].
    unfold int_decimal.
    destruct (Ascii.eqb_spec c "-"%char) as [->|Hc]; [by destruct (H2 s)|].
    destruct c as [[] [] [] [] [] [] [] []]; try exact Hr. by destruct Hc.
  - change (pretty (Z.neg p)) with (String "-"%char (pretty_N_go (N.pos p) "")).
    pose proof (read_digits_pretty_N_go (N.pos p) "") as Hr. simpl in Hr.
    pose proof (Hne p) as H1.
    destruct (pretty_N_go (N.pos p) "") as [|c s]; [done|].
    change (int_decimal (String "-"%char (String c s)))
      with (Z.opp <$> read_digits 0 (String c s)).
    by rewrite Hr.
Qed.

Section KeyRoundTrip.
Variable int : string → option Z.

(** X16. [key2addr] undoes [addr2key]: for a host without a colon and any
    port the key parses back to the same host and port, given that [int]
    reads back the decimal numeral that formatting wrote (as Python's
    does).  The keys [update_costs] makes from sender addresses are of this
    kind. *)
Theorem key2addr_addr2key host port :
  (∀ z : Z, int (pretty z) = Some z) →
  count_colons host = 0 →
  key2addr int (addr2key host port) = Ok (host, port).
Proof.
  intros Hint Hhost. unfold key2addr, addr2key.
  rewrite (split_colon_app _ _ Hhost), (split_colon_whole _ (count_colons_pretty port)).
  by rewrite Hint.
Qed.

(** X17. A key that does not hold exactly one colon (none, or more than
    one as with an IPv6 host) makes [key2addr] raise [ValueError], whatever
    [int] does. *)
Theorem key2addr_colons key :
  count_colons key ≠ 1 → key2addr int key = Raised ValueError.
Proof.
  intros Hn. unfold key2addr. pose proof (split_colon_length key) as Hlen.
  destruct (split_colon key) as [|host [|port [|x rest]]]; try done.
  simpl in Hlen. injection Hlen as Hlen. by destruct Hn.
Qed.
End KeyRoundTrip.

(** ** The routing table display *)

Section ShowRt.
Variable me : string.

(** X18. [showrt] returns exactly when, for every entry other than [me],
    the last five characters of its key and of its route are among the
    five ports of [node_name]; it then shows one row per such entry, in
    table order, with the two names and the stored cost. *)
Theorem showrt_rows nodes rows :
  showrt me nodes = Ok rows ↔
  Forall2 (fun e row =>
             node_name_getitem (last5 e.1) = Ok row.1.1 ∧
             node_name_getitem (last5 (route e.2)) = Ok row.1.2 ∧
             row.2 = cost e.2)
          (filter (fun e => e.1 ≠ me) nodes) rows.
Proof.
  revert rows. induction nodes as [|[addr node] nodes IH]; intros rows; simpl.
  - split; [intros [= <-]; constructor|]. by intros ->%Forall2_nil_inv_l.
  - rewrite filter_cons. simpl.
    destruct (String.eqb_spec addr me) as [->|Hne]; simpl.
    + rewrite decide_False by (intros H; by apply H). apply IH.
    + rewrite decide_True by done.
      destruct (node_name_getitem (last5 addr)) as [dn|e] eqn:Hd; simpl.
      2:{ split; [done|]. intros H. apply Forall2_cons_inv_l in H as (r & l & (H & _) & _).
          simpl in H. congruence. }
      destruct (node_name_getitem (last5 (route node))) as [hn|e] eqn:Hh; simpl.
      2:{ split; [done|]. intros H.
          apply Forall2_cons_inv_l in H as (r & l & (_ & H & _) & _).
          simpl in H. congruence. }
      destruct (showrt me nodes) as [rs|e] eqn:Hrest; simpl.
      * split.
        -- intros [= <-]. constructor; [done|]. by apply IH.
        -- intros H. apply Forall2_cons_inv_l in H as ([[a b] c] & l & (H1 & H2 & H3) & Hl & ->).
           simpl in *. apply IH in Hl. congruence.
      * split; [done|]. intros H.
        apply Forall2_cons_inv_l in H as (r & l & _ & Hl & _). apply IH in Hl. discriminate Hl.
Qed.

Lemma showrt_empty_route nodes d nd :
  (d, nd) ∈ nodes → d ≠ me → route nd = "" →
  ∃ key, showrt me nodes = Raised (KeyError key).
Proof.
  intros Hin Hme Hr. induction nodes as [|[addr node] nodes IH]; [by apply elem_of_nil in Hin|].
  simpl. apply elem_of_cons in Hin as [[= <- <-]|Hin].
  - destruct (String.eqb_spec d me) as [|_]; [done|]. simpl.
    destruct (node_name_getitem (last5 d)) as [?|e] eqn:Hd; simpl.
    + rewrite Hr. simpl. eauto.
    + unfold node_name_getitem, getitem in Hd.
      destruct (tbl_get (last5 d) node_name); [done|]. injection Hd as <-. eauto.
  - destruct (negb (String.eqb addr me)); [|by eauto].
    destruct (node_name_getitem (last5 addr)) as [?|e] eqn:Hd; simpl.
    2:{ unfold node_name_getitem, getitem in Hd.
        destruct (tbl_get (last5 addr) node_name); [done|]. injection Hd as <-. eauto. }
    destruct (node_name_getitem (last5 (route node))) as [?|e] eqn:Hh; simpl.
    2:{ unfold node_name_getitem, getitem in Hh.
        destruct (tbl_get (last5 (route node)) node_name); [done|]. injection Hh as <-. eauto. }
    destruct (IH Hin) as [key Hkey]. rewrite Hkey. simpl. eauto.
Qed.

(** X19. [showrt] raises [KeyError] as soon as the table holds an entry
    other than [me] whose route is empty: a default node, or a destination
    that the recomputation found unreachable. *)
Theorem showrt_unreachable nodes d nd :
  (d, nd) ∈ nodes → d ≠ me → route nd = "" →
  ∃ key, showrt me nodes = Raised (KeyError key).
Proof. apply showrt_empty_route. Qed.
End ShowRt.

(** ** The socket branch of the main loop *)

Section SocketBranch.
Variables (me localhost : string) (timeout : Q).

Lemma get_neighbors_num_length nodes :
  get_neighbors_num nodes = Z.of_nat (length (get_neighbors nodes)).
Proof.
  unfold get_neighbors_num.
  assert (H : ∀ (l : table) z,
    fold_left (fun n _ => (n + 1)%Z) l z = (z + Z.of_nat (length l))%Z).
  { induction l as [|x l IH]; intros z; simpl fold_left; [simpl; lia|].
    rewrite IH. simpl length. lia. }
  by rewrite H.
Qed.

(** X20. A node started without neighbours cannot take an update: the
    count taken at startup is [0], so every datagram of a known kind whose
    handler returns ends the main loop with [ZeroDivisionError] at
    [i % neighbors_num]; a valid cost update does so from any well-formed
    state. *)
Theorem socket_branch_no_neighbors i host port kw w cs dc :
  table_ok (nodes w) →
  kw_costs kw = Some cs → kw_neighbor kw = Some (Some dc) →
  socket_branch me localhost timeout
    (get_neighbors_num (startup me timeout [])) i
    (Encoded (encode {| msg_type := Some COSTSUPDATE; msg_payload := Some kw |}))
    (host, port) w
  = Dies ZeroDivisionError.
Proof.
  intros Hok Hcs Hdc.
  destruct (update_costs_shape me timeout host port kw w cs dc Hok Hcs Hdc)
    as (t & ns & out & log & Hrun & _).
  unfold socket_branch. simpl. rewrite Hrun. reflexivity.
Qed.
End SocketBranch.

(** X16 for the key of the sample neighbour [addrB], with the decimal
    reader for [int]. *)
Lemma key2addr_addr2key_witness :
  (∀ z : Z, int_decimal (pretty z) = Some z) ∧
  count_colons "10.0.0.1" = 0 ∧
  key2addr int_decimal (addr2key "10.0.0.1" 20001) = Ok ("10.0.0.1", 20001%Z).
Proof.
  split; [exact int_decimal_pretty|]. split; [reflexivity|].
  apply (key2addr_addr2key int_decimal "10.0.0.1" 20001 int_decimal_pretty).
  reflexivity.
Defined.

(** X17 for the key of an IPv6 loopback address. *)
Lemma key2addr_colons_witness :
  count_colons (addr2key "::1" 20001) ≠ 1 ∧
  key2addr int_decimal (addr2key "::1" 20001) = Raised ValueError.
Proof.
  assert (H : count_colons (addr2key "::1" 20001) ≠ 1).
  { vm_compute. intros H. discriminate H. }
  split; [exact H|]. exact (key2addr_colons int_decimal (addr2key "::1" 20001) H).
Defined.

(** X19 on the sample table: [addrD] is a default node. *)
Lemma showrt_unreachable_witness :
  (addrD, default_node) ∈ tie_table ∧ addrD ≠ addrA ∧ route default_node = "" ∧
  ∃ key, showrt addrA tie_table = Raised (KeyError key).
Proof.
  assert (Hin : (addrD, default_node) ∈ tie_table).
  { apply tbl_get_Some_elem. vm_compute. reflexivity. }
  assert (Hne : addrD ≠ addrA).
  { vm_compute. intros H. discriminate H. }
  split; [exact Hin|]. split; [exact Hne|]. split; [reflexivity|].
  exact (showrt_unreachable addrA tie_table addrD default_node Hin Hne eq_refl).
Defined.

(** X20 at the sample update, received by a node started alone. *)
Lemma socket_branch_no_neighbors_witness :
  table_ok (startup addrA 1 []) ∧
  socket_branch addrA "10.0.0.1" 1 (get_neighbors_num (startup addrA 1 [])) 0
    (Encoded (encode {| msg_type := Some COSTSUPDATE; msg_payload := Some sample_update |}))
    ("10.0.0.1", 20002%Z) {| nodes := startup addrA 1 []; stdout := [] |}
  = Dies ZeroDivisionError.
Proof.
  assert (Hok : table_ok (startup addrA 1 [])).
  { apply (bool_decide_unpack _). vm_compute. reflexivity. }
  split; [exact Hok|].
  exact (socket_branch_no_neighbors addrA "10.0.0.1" 1 0 "10.0.0.1" 20002 sample_update
           {| nodes := startup addrA 1 []; stdout := [] |} _ (Fin 2) Hok eq_refl eq_refl).
Defined.

(** ** Cost updates without the sender's direct cost *)

Lemma sender_lookup addr cs (t : table) :
  (dd_getitem addr (create_missing cs t)).1
  = match tbl_get addr t with Some n => n | None => default_node end.
Proof.
  destruct (tbl_get addr t) as [n|] eqn:Hget.
  - by rewrite (dd_getitem_known _ n _ (create_missing_known cs _ _ _ Hget)).
  - destruct (decide (addr ∈ cs.*1)) as [Hin|Hin].
    + by rewrite (dd_getitem_known _ _ _ (create_missing_new cs _ _ Hget Hin)).
    + by rewrite (dd_getitem_unknown _ _ (create_missing_other cs _ _ Hget Hin)).
Qed.

Section MissingNeighbor.
Variables (me : string) (timeout : Q).

(** X21. The payload key [neighbor] is read only when the sender is to be
    promoted.  For a sender that is no neighbour, a cost update without
    [neighbor] raises [KeyError 'neighbor'], and one whose [neighbor] lacks
    [direct] raises [KeyError 'direct']; for a sender that is a neighbour
    the update returns whatever the payload holds besides the vector. *)
Theorem update_costs_neighbor_key host port kw w cs :
  table_ok (nodes w) → kw_costs kw = Some cs →
  ((∀ n, tbl_get (addr2key host port) (nodes w) = Some n → is_neighbor n = false) →
   (kw_neighbor kw = None →
    update_costs me timeout host port kw w = Raised (KeyError "neighbor")) ∧
   (kw_neighbor kw = Some None →
    update_costs me timeout host port kw w = Raised (KeyError "direct"))) ∧
  (∀ n, tbl_get (addr2key host port) (nodes w) = Some n → is_neighbor n = true →
        ∃ w', update_costs me timeout host port kw w = Ok w').
Proof.
  intros Hok Hcs. split.
  - intros Hnot.
    assert (Hs : is_neighbor (dd_getitem (addr2key host port)
                                (create_missing cs (nodes w))).1 = false).
    { rewrite sender_lookup.
      destruct (tbl_get (addr2key host port) (nodes w)) as [n|]; [by apply Hnot|done]. }
    split; intros Hkw; unfold update_costs; rewrite Hcs; simpl;
      destruct (dd_getitem (addr2key host port) (create_missing cs (nodes w)))
        as [sender t2]; simpl in Hs; rewrite Hs; simpl;
      destruct (dd_getitem (addr2key host port) (tbl_del (addr2key host port) t2))
        as [fresh t4]; by rewrite Hkw.
  - intros n Hget Hn.
    destruct (table_ok_neighbor _ _ _ Hok Hget (or_introl Hn)) as ([d Hd] & _ & [m Hm]).
    rewrite (update_costs_refresh me timeout host port kw w cs n m Hcs Hget Hn Hm).
    destruct (run_estimate_costs_total me
                {| nodes := tbl_set (addr2key host port)
                              (set_silence_monitor (Some (reset m)) (set_costs (Some cs) n))
                              (create_missing cs (nodes w));
                   stdout := stdout w |}) as (t & _ & Hrun).
    { simpl. apply table_ok_set; [by apply create_missing_ok|].
      intros _. simpl. rewrite Hd. eauto. }
    eauto.
Qed.
End MissingNeighbor.

(** ** Links taken down *)

Lemma create_missing_lookup cs (t : table) k n :
  tbl_get k (create_missing cs t) = Some n →
  tbl_get k t = Some n ∨ n = default_node.
Proof.
  intros Hget. destruct (tbl_get k t) as [n0|] eqn:Hk.
  - left. rewrite (create_missing_known cs _ _ _ Hk) in Hget. done.
  - right. destruct (decide (k ∈ cs.*1)) as [Hin|Hin].
    + rewrite (create_missing_new cs _ _ Hk Hin) in Hget. congruence.
    + rewrite (create_missing_other cs _ _ Hk Hin) in Hget. done.
Qed.

Lemma down_ok_default : down_ok default_node.
Proof. intros [? H]. discriminate H. Qed.

Lemma links_ok_set k n t : links_ok t → down_ok n → links_ok (tbl_set k n t).
Proof.
  intros Ht Hn k' n' Hget. rewrite tbl_get_set in Hget.
  destruct (String.eqb k' k); [by injection Hget as <-|by eapply Ht].
Qed.

Lemma links_ok_same t t' : Forall2 same_links t t' → links_ok t → links_ok t'.
Proof.
  intros Hsame Ht k n' Hget. destruct (tbl_get k t) as [n|] eqn:Hk.
  - destruct (same_links_get _ _ _ _ Hsame Hk) as (n'' & Hget'' & Hrel).
    rewrite Hget in Hget''. injection Hget'' as <-.
    destruct Hrel as (_ & Hn & Hd & _ & Hs & _). simpl in *.
    unfold down_ok. rewrite Hn, Hd, Hs. by eapply Ht.
  - rewrite (same_links_get_None _ _ _ Hsame Hk) in Hget. done.
Qed.

Section DownLinks.
Variables (me localhost : string) (timeout : Q).

Lemma links_ok_estimate t out :
  estimate_costs me t = Ok out → links_ok t → links_ok out.
Proof. intros Hest. apply links_ok_same. by eapply estimate_costs_same_links. Qed.

Lemma run_link_links op host port kw w w' :
  links_ok (nodes w) →
  run_link me localhost op host port kw w = Ok w' →
  links_ok (nodes w') ∧
  (LinkCurrentlyDown ∈ stdout w' → LinkCurrentlyDown ∈ stdout w).
Proof.
  set (addr := addr2key (get_host localhost host) port).
  intros Hl.
  assert (Hprint : ∀ r, r ≠ LinkCurrentlyDown →
    links_ok (nodes (print r w)) ∧
    (LinkCurrentlyDown ∈ stdout (print r w) → LinkCurrentlyDown ∈ stdout w)).
  { intros r Hr. split; [done|]. simpl. intros [H|H]%elem_of_app; [done|].
    apply list_elem_of_singleton in H. by destruct Hr. }
  assert (Hest : ∀ n1 w', down_ok n1 →
    run_estimate_costs me (with_nodes (tbl_set addr n1 (nodes w)) w) = Ok w' →
    links_ok (nodes w') ∧
    (LinkCurrentlyDown ∈ stdout w' → LinkCurrentlyDown ∈ stdout w)).
  { intros n1 w1 Hn1 Hrun. apply run_estimate_costs_inv in Hrun as [Hrun Hout].
    simpl in Hrun, Hout. rewrite Hout. split; [|done].
    eapply links_ok_estimate; [exact Hrun|]. by apply links_ok_set. }
  destruct (tbl_get addr (nodes w)) as [n|] eqn:Hget.
  - pose proof (Hl _ _ Hget) as Hn0.
    intros Hrun. destruct op; simpl in Hrun.
    + unfold linkdown in Hrun. rewrite (get_node_known _ _ _ _ _ Hget) in Hrun.
      fold addr in Hrun. destruct (is_neighbor n) eqn:Hn; simpl in Hrun.
      * destruct (direct n) as [c|] eqn:Hd; simpl in Hrun; [|done].
        destruct (silence_monitor n) as [m|] eqn:Hm; simpl in Hrun; [|done].
        apply (Hest _ _) in Hrun; [done|]. by intros _.
      * injection Hrun as <-. by apply Hprint.
    + unfold linkup in Hrun. rewrite (get_node_known _ _ _ _ _ Hget) in Hrun.
      fold addr in Hrun. destruct (saved n) as [s|] eqn:Hs.
      * apply (Hest _ _) in Hrun; [done|]. intros [? H]. discriminate H.
      * injection Hrun as <-. by apply Hprint.
    + unfold linkchange in Hrun. rewrite (get_node_known _ _ _ _ _ Hget) in Hrun.
      fold addr in Hrun. destruct (is_neighbor n) eqn:Hn; simpl in Hrun.
      * destruct (kw_direct kw) as [d|]; simpl in Hrun; [|done].
        destruct (num_ltb d (Fin 1)); [injection Hrun as <-; by apply Hprint|].
        destruct (saved n) as [s|] eqn:Hs.
        { exfalso. destruct Hn0 as [Hn0 _]; [by rewrite Hs; eauto|]. congruence. }
        apply (Hest _ _) in Hrun; [done|]. intros [? H]. simpl in H. congruence.
      * injection Hrun as <-. by apply Hprint.
  - intros Hrun.
    assert (Hw' : w' = {| nodes := nodes w ++ [(addr, default_node)];
                          stdout := stdout w ++ [NotInNetwork addr] |}).
    { destruct op; simpl in Hrun; unfold linkdown, linkup, linkchange in Hrun;
        rewrite (get_node_unknown _ _ _ _ Hget) in Hrun; by injection Hrun as <-. }
    subst w'. simpl. split.
    + rewrite <- (tbl_set_notin _ _ _ Hget). apply links_ok_set; [done|].
      apply down_ok_default.
    + intros [H|H]%elem_of_app; [done|]. apply list_elem_of_singleton in H. done.
Qed.

Lemma update_costs_links host port kw w w' :
  table_ok (nodes w) → links_ok (nodes w) →
  update_costs me timeout host port kw w = Ok w' →
  links_ok (nodes w') ∧
  (LinkCurrentlyDown ∈ stdout w' → LinkCurrentlyDown ∈ stdout w).
Proof.
  set (addr := addr2key host port). intros Hok Hl Hrun. unfold update_costs in Hrun.
  destruct (kw_costs kw) as [cs|]; simpl in Hrun; [|done]. fold addr in Hrun.
  assert (Hl1 : links_ok (create_missing cs (nodes w))).
  { intros k n [Hk| ->]%create_missing_lookup; [by eapply Hl|apply down_ok_default]. }
  set (t1 := create_missing cs (nodes w)) in *.
  pose proof (dd_getitem_neighbor addr t1) as Hnb.
  assert (Hl2 : links_ok (dd_getitem addr t1).2).
  { rewrite dd_getitem_set. destruct (tbl_get addr t1); simpl; [done|].
    apply links_ok_set; [done|apply down_ok_default]. }
  pose proof (table_ok_dd addr t1 (create_missing_ok cs _ Hok)) as Hok2.
  destruct (dd_getitem addr t1) as [sender t2]. simpl in Hnb, Hl2, Hok2.
  destruct (is_neighbor sender) eqn:Hs; simpl in Hrun.
  - destruct (Hnb eq_refl) as [Hget ->].
    destruct (silence_monitor sender) as [m|] eqn:Hm; simpl in Hrun; [|done].
    apply run_estimate_costs_inv in Hrun as [Hrun Hout]. simpl in Hrun, Hout.
    rewrite Hout. split; [|done]. eapply links_ok_estimate; [exact Hrun|].
    apply links_ok_set; [done|]. intros Hsv. simpl in Hsv.
    destruct (Hl1 _ _ Hget Hsv) as [Hn _]. congruence.
  - assert (Hl4 : links_ok (dd_getitem addr (tbl_del addr t2)).2).
    { rewrite dd_getitem_set.
      assert (Hdel : links_ok (tbl_del addr t2)).
      { intros k n Hk. destruct (String.eqb_spec k addr) as [->|Hne].
        - rewrite tbl_get_del in Hk by apply Hok2. done.
        - rewrite tbl_get_del_ne in Hk by done. by eapply Hl2. }
      destruct (tbl_get addr (tbl_del addr t2)); simpl; [done|].
      apply links_ok_set; [done|apply down_ok_default]. }
    destruct (dd_getitem addr (tbl_del addr t2)) as [fresh t4]. simpl in Hl4.
    destruct (kw_neighbor kw) as [[d|]|]; simpl in Hrun; [|done|done].
    apply run_estimate_costs_inv in Hrun as [Hrun Hout]. simpl in Hrun, Hout.
    rewrite Hout. split.
    + eapply links_ok_estimate; [exact Hrun|]. apply links_ok_set; [done|].
      intros [? H]. discriminate H.
    + intros [H|H]%elem_of_app; [done|]. apply list_elem_of_singleton in H. done.
Qed.
End DownLinks.

Section DownLinksReachable.
Variables (me localhost : string) (timeout : Q).

Lemma apply_operation_links o w w' :
  table_ok (nodes w) → links_ok (nodes w) →
  apply_operation me localhost timeout o w = Ok w' →
  links_ok (nodes w') ∧
  (LinkCurrentlyDown ∈ stdout w' → LinkCurrentlyDown ∈ stdout w).
Proof.
  intros Hok Hl Hrun. destruct o as [host port kw|op host port kw| |]; simpl in Hrun.
  - by eapply update_costs_links.
  - by eapply run_link_links.
  - apply run_estimate_costs_inv in Hrun as [Hrun Hout]. rewrite Hout.
    split; [|done]. by eapply links_ok_estimate.
  - unfold broadcast_costs in Hrun. rewrite broadcast_loop_spec in Hrun.
    + simpl in Hrun. by injection Hrun as <-.
    + apply Hok.
    + eapply Forall_impl; [exact (neighbors_complete _ Hok)|]. by intros e [? _].
Qed.

Lemma run_operations_links os w w' :
  table_ok (nodes w) → links_ok (nodes w) →
  run_operations me localhost timeout os w = Ok w' →
  links_ok (nodes w') ∧
  (LinkCurrentlyDown ∈ stdout w' → LinkCurrentlyDown ∈ stdout w).
Proof.
  revert w. induction os as [|o os IH]; intros w Hok Hl; simpl.
  - by intros [= <-].
  - destruct (apply_operation me localhost timeout o w) as [w1|] eqn:Hstep; simpl; [|done].
    intros Hrun.
    destruct (apply_operation_links _ _ _ Hok Hl Hstep) as [Hl1 Hout1].
    destruct (IH w1 (apply_operation_ok _ _ _ _ _ _ Hok Hstep) Hl1 Hrun) as [Hl' Hout'].
    split; [done|]. intros H. apply Hout1. by apply Hout'.
Qed.

Lemma startup_links neighbors : links_ok (startup me timeout neighbors).
Proof.
  intros k n Hget. rewrite (startup_get me timeout) in Hget.
  destruct (String.eqb k me).
  - injection Hget as <-. intros [? H]. discriminate H.
  - destruct (tbl_get k (reverse neighbors)); simpl in Hget; [|done].
    injection Hget as <-. intros [? H]. discriminate H.
Qed.

(** X22. In every state reachable from startup a node that holds a saved
    cost is no neighbour and has a direct cost of [+inf]; so [linkchange]
    never finds a neighbour with a saved cost, and its report that the link
    is currently down is never printed. *)
Theorem link_currently_down_never_printed os neighbors w' :
  run_operations me localhost timeout os
    {| nodes := startup me timeout neighbors; stdout := [] |} = Ok w' →
  (∀ k n s, tbl_get k (nodes w') = Some n → saved n = Some s →
            is_neighbor n = false ∧ direct n = Some Inf) ∧
  LinkCurrentlyDown ∉ stdout w'.
Proof.
  intros Hrun.
  destruct (run_operations_links os
              {| nodes := startup me timeout neighbors; stdout := [] |} w'
              (startup_ok me timeout neighbors) (startup_links neighbors) Hrun)
    as [Hl Hout].
  split.
  - intros k n s Hget Hs. apply (Hl k n Hget). rewrite Hs. eauto.
  - intros H. apply Hout in H. simpl in H. by apply elem_of_nil in H.
Qed.
End DownLinksReachable.

Section LinkUp.
Variables (me localhost : string).

(** X23. [linkup] on a node that holds a saved cost: it returns without
    printing; the saved cost becomes the direct cost again, the saved cost
    is removed and the node is a neighbour; its vector and its monitor are
    the ones it had (the monitor is not restarted); the keys and their
    order are kept and every other node keeps its link fields. *)
Theorem linkup_applies host port kw w n s :
  table_ok (nodes w) →
  tbl_get (addr2key (get_host localhost host) port) (nodes w) = Some n →
  saved n = Some s →
  ∃ w' n',
    linkup me localhost host port kw w = Ok w' ∧ stdout w' = stdout w ∧
    (nodes w').*1 = (nodes w).*1 ∧
    tbl_get (addr2key (get_host localhost host) port) (nodes w') = Some n' ∧
    is_neighbor n' = true ∧ direct n' = Some s ∧ saved n' = None ∧
    costs n' = costs n ∧ silence_monitor n' = silence_monitor n ∧
    (∀ k m, k ≠ addr2key (get_host localhost host) port →
            tbl_get k (nodes w) = Some m →
            ∃ m', tbl_get k (nodes w') = Some m' ∧ same_links (k, m) (k, m')).
Proof.
  set (addr := addr2key (get_host localhost host) port).
  intros Hok Hget Hs.
  destruct (table_ok_neighbor _ _ _ Hok Hget (or_intror (ex_intro _ s Hs)))
    as (_ & [cs Hcs] & [m Hm]).
  set (n1 := set_is_neighbor true (set_saved None (set_direct (Some s) n))).
  destruct (link_recompute me addr n1 w Hok)
    as (out & n' & Hrun & Hest & _ & Hkeys & Hget' & Hrel & _ & Hoth).
  { by rewrite Hget. }
  { intros _. subst n1. simpl. rewrite Hcs, Hm. eauto. }
  exists {| nodes := out; stdout := stdout w |}, n'. split.
  { unfold linkup. rewrite (get_node_known _ _ _ _ _ Hget). fold addr.
    rewrite Hs. exact Hrun. }
  destruct Hrel as (_ & Hn' & Hd' & Hc' & Hs' & Hm'). simpl in *.
  split; [done|]. split; [exact Hkeys|]. split; [exact Hget'|].
  rewrite Hn', Hd', Hs', Hc', Hm'. repeat split; try done.
  intros k m0 Hne Hk. destruct (Hoth k m0 Hne Hk) as (m' & ? & ? & _). eauto.
Qed.
End LinkUp.

(** X21 on the sample table: [addrD] is no neighbour, [addrC] is one. *)
Lemma update_costs_neighbor_key_witness :
  table_ok (nodes sample_world) ∧
  update_costs addrA 1 "10.0.0.1" 20003
    {| kw_costs := Some [(addrD, Fin 0)]; kw_neighbor := None; kw_direct := None |}
    sample_world = Raised (KeyError "neighbor") ∧
  ∃ w', update_costs addrA 1 "10.0.0.1" 20002
          {| kw_costs := Some [(addrD, Fin 0)]; kw_neighbor := None; kw_direct := None |}
          sample_world = Ok w'.
Proof.
  assert (Hok : table_ok (nodes sample_world)).
  { apply (bool_decide_unpack _). vm_compute. reflexivity. }
  split; [exact Hok|]. split.
  - destruct (update_costs_neighbor_key addrA 1 "10.0.0.1" 20003
                {| kw_costs := Some [(addrD, Fin 0)]; kw_neighbor := None; kw_direct := None |}
                sample_world [(addrD, Fin 0)] Hok eq_refl) as [Hnot _].
    destruct Hnot as [Hraise _].
    + intros n Hn. vm_compute in Hn. injection Hn as <-. reflexivity.
    + exact (Hraise eq_refl).
  - destruct (update_costs_neighbor_key addrA 1 "10.0.0.1" 20002
                {| kw_costs := Some [(addrD, Fin 0)]; kw_neighbor := None; kw_direct := None |}
                sample_world [(addrD, Fin 0)] Hok eq_refl) as [_ Hnb].
    apply (Hnb (neighbor_node addrC (Fin 2) [(addrC, Fin 0); (addrD, Fin 1); (addrB, Fin 4)])).
    + vm_compute. reflexivity.
    + reflexivity.
Defined.

(** X22 along the sample run. *)
Lemma link_currently_down_never_printed_witness :
  ∃ w', run_operations addrA "10.0.0.1" 1 sample_run startup_world = Ok w' ∧
    (∀ k n s, tbl_get k (nodes w') = Some n → saved n = Some s →
              is_neighbor n = false ∧ direct n = Some Inf) ∧
    LinkCurrentlyDown ∉ stdout w'.
Proof.
  eexists. split; [vm_compute; reflexivity|].
  apply (link_currently_down_never_printed addrA "10.0.0.1" 1 sample_run
           [(addrB, Fin 1); (addrC, Fin 2)]).
  vm_compute. reflexivity.
Defined.

(** X23 on the sample node after the link to [addrC] was taken down. *)
Lemma linkup_applies_witness :
  ∃ n w' n',
    table_ok (nodes down_world) ∧
    tbl_get (addr2key (get_host "10.0.0.1" "10.0.0.1") 20002) (nodes down_world) = Some n ∧
    saved n = Some (Fin 2) ∧
    linkup addrA "10.0.0.1" "10.0.0.1" 20002 no_kwargs down_world = Ok w' ∧
    tbl_get (addr2key (get_host "10.0.0.1" "10.0.0.1") 20002) (nodes w') = Some n' ∧
    is_neighbor n' = true ∧ direct n' = Some (Fin 2) ∧ saved n' = None ∧
    silence_monitor n' = silence_monitor n.
Proof.
  assert (Hok : table_ok (nodes down_world)).
  { apply (bool_decide_unpack _). vm_compute. reflexivity. }
  pose (n := set_saved (Some (Fin 2))
          (set_direct (Some Inf)
             (set_is_neighbor false
                (set_silence_monitor
                   (Some (cancel (start (ResettableTimer_init 3 addrC))))
                   (neighbor_node addrC (Fin 2) [(addrC, Fin 0); (addrD, Fin 1)]))))).
  assert (Hget : tbl_get (addr2key (get_host "10.0.0.1" "10.0.0.1") 20002)
                   (nodes down_world) = Some n).
  { vm_compute. reflexivity. }
  destruct (linkup_applies addrA "10.0.0.1" "10.0.0.1" 20002 no_kwargs down_world
              n (Fin 2) Hok Hget eq_refl)
    as (w' & n' & Hrun & _ & _ & Hget' & Hn & Hd & Hs & _ & Hm & _).
  exists n, w', n'. split; [exact Hok|]. split; [exact Hget|]. split; [reflexivity|].
  split; [exact Hrun|]. split; [exact Hget'|]. split; [exact Hn|].
  split; [exact Hd|]. split; [exact Hs|exact Hm].
Defined.

(** X14 on the sample table: [addrC] advertises [addrD] at [+inf]. *)
Lemma update_costs_poisoned_witness :
  table_ok (nodes sample_world) ∧ addrD ≠ addrA ∧
  ∃ w', update_costs addrA 1 "10.0.0.1" 20002
          {| kw_costs := Some [(addrC, Fin 0); (addrD, Inf)];
             kw_neighbor := Some (Some (Fin 2)); kw_direct := None |}
          sample_world = Ok w' ∧
    ∀ nd, tbl_get addrD (nodes w') = Some nd → route nd ≠ addr2key "10.0.0.1" 20002.
Proof.
  assert (Hok : table_ok (nodes sample_world)).
  { apply (bool_decide_unpack _). vm_compute. reflexivity. }
  assert (Hne : addrD ≠ addrA).
  { vm_compute. intros H. discriminate H. }
  split; [exact Hok|]. split; [exact Hne|].
  apply (update_costs_poisoned addrA 1 "10.0.0.1" 20002
           {| kw_costs := Some [(addrC, Fin 0); (addrD, Inf)];
              kw_neighbor := Some (Some (Fin 2)); kw_direct := None |}
           sample_world [(addrC, Fin 0); (addrD, Inf)] (Fin 2) addrD
           Hok eq_refl eq_refl Hne).
  right. reflexivity.
Defined.

(** X15 between the sample node [addrA], which routes [addrD] through
    [addrB], and the node [addrB] as it starts; the message for [addrB]
    encodes to 173 bytes. *)
Lemma broadcast_costs_received_witness :
  ∃ w',
    table_ok tie_routes ∧
    broadcast_costs addrA tie_routes = Ok (tie_sent, tie_routes) ∧
    (addrB, tie_msg) ∈ tie_sent ∧
    table_ok (startup addrB 1 [(addrA, Fin 1)]) ∧
    (173 ≤ SIZE)%Z ∧
    receive addrB "10.0.0.1" 1 (recvfrom 173 tie_msg) ("10.0.0.1", 20000%Z)
      {| nodes := startup addrB 1 [(addrA, Fin 1)]; stdout := [] |} = Ok w' ∧
    ∀ d nd_s nd,
      tbl_get d tie_routes = Some nd_s → route nd_s = addrB →
      d ≠ addrA → d ≠ addrB → d ≠ addrB →
      tbl_get d (nodes w') = Some nd → route nd ≠ addr2key "10.0.0.1" 20000.
Proof.
  assert (Hoks : table_ok tie_routes).
  { apply (bool_decide_unpack _). vm_compute. reflexivity. }
  assert (Hok : table_ok (startup addrB 1 [(addrA, Fin 1)])).
  { apply (bool_decide_unpack _). vm_compute. reflexivity. }
  assert (Hsent : broadcast_costs addrA tie_routes = Ok (tie_sent, tie_routes)).
  { vm_compute. reflexivity. }
  assert (Hin : (addrB, tie_msg) ∈ tie_sent).
  { apply list_elem_of_lookup. exists 0. vm_compute. reflexivity. }
  assert (Hfit : (173 ≤ SIZE)%Z).
  { vm_compute. intros H. discriminate H. }
  destruct (broadcast_costs_received addrA addrB "10.0.0.1" 1 tie_routes tie_sent
              tie_routes addrB tie_msg 173 "10.0.0.1" 20000
              {| nodes := startup addrB 1 [(addrA, Fin 1)]; stdout := [] |}
              Hoks Hsent Hin Hok) as [Hsmall _].
  destruct (Hsmall Hfit) as (w' & Hrecv & Hno).
  exists w'. split; [exact Hoks|]. split; [exact Hsent|]. split; [exact Hin|].
  split; [exact Hok|]. split; [exact Hfit|]. split; [exact Hrecv|exact Hno].
Defined.
